(** * The shape model and transform engine of the paint editor (shapes.py)

    A shallow embedding of [shapes.py], with the few lines of [canvas.py]
    and [main.py] that call into it.

    Numbers.  Python floats are modelled by the real numbers [R]: every
    arithmetic operation is the exact one, [math.cos], [math.sin],
    [math.sqrt] and [math.pi] are [cos], [sin], [sqrt] and [PI].  The
    statements about this layer are therefore about the exact-arithmetic
    reading of the code; where the documentation says "within epsilon" the
    model gives equality.  Rounding, overflow and NaN are outside it.

    Whether the code raises can depend on the floats: [**] raises
    [OverflowError] when a square leaves the range (the distance
    computations of the hit tests and of [Triangle.__init__]), and a
    divisor that is not zero over the reals can round to zero (the hit
    tests of [Ellipse] and [Polygon]).  Module [Binary64] embeds the hit
    tests of [Line], [Ellipse] and [Polygon] a second time, over IEEE 754
    binary64 numbers, and the statements about what these three raise are
    made there.

    Exceptions.  The operations that can raise in Python return a [result]:
    true division raises [ZeroDivisionError] on a zero divisor, [math.sqrt]
    and [min]/[max] of an empty list raise [ValueError], an index out of
    range raises [IndexError], a missing attribute [AttributeError], a
    float power out of range [OverflowError].

    Objects.  A shape object is a value of [ShapeOf P]: its class is the
    constructor, its attributes are the constructor's arguments.  [P] is the
    type of the [points] attribute: a list of points in the pure layer
    ([Shape]), a reference to a list object in the heap layer ([Obj]).  The
    methods of the pure layer take [self] and return the mutated [self].

    Scope.  The transforms, [copy], [get_bounds], [contains_point], [draw]
    and the constructors of all eight classes are embedded; [draw] returns
    the toolkit calls it issues. *)

From Stdlib Require Import Floats.
From Stdlib Require Import Reals Lra List ZArith String.
From stdpp Require Import base option gmap strings.
Import ListNotations.
Open Scope R_scope.

(** ** Exceptions *)

Inductive exn : Type :=
| ZeroDivisionError | ValueError | IndexError | AttributeError | OverflowError.

Inductive result (A : Type) : Type :=
| Ok (a : A)
| Raise (e : exn).
Arguments Ok {A} a.
Arguments Raise {A} e.

#[global] Instance result_ret : MRet result := fun A a => Ok a.
#[global] Instance result_bind : MBind result := fun A B f m =>
  match m with
  | Ok a => f a
  | Raise e => Raise e
  end.

Definition returns {A : Type} (m : result A) : Prop := exists a, m = Ok a.

(** ** Numbers *)

Definition Rltb (x y : R) : bool := if Rlt_dec x y then true else false.
Definition Rleb (x y : R) : bool := if Rle_dec x y then true else false.

(** [x / y] on Python numbers. *)
Definition py_div (x y : R) : result R :=
  if Req_dec_T y 0 then Raise ZeroDivisionError else Ok (x / y).

Definition math_sqrt (x : R) : result R :=
  if Rlt_dec x 0 then Raise ValueError else Ok (sqrt x).

Definition math_radians (deg : R) : R := deg * (PI / 180).

(** [sum(xs)], [len(xs)], [min(xs)], [max(xs)]. *)
Definition py_sum (xs : list R) : R := fold_left Rplus xs 0.
Definition py_len {A : Type} (xs : list A) : R := INR (length xs).

Definition py_min (xs : list R) : result R :=
  match xs with
  | [] => Raise ValueError
  | x :: t => Ok (fold_left Rmin t x)
  end.

Definition py_max (xs : list R) : result R :=
  match xs with
  | [] => Raise ValueError
  | x :: t => Ok (fold_left Rmax t x)
  end.

Definition Reqb (x y : R) : bool := if Req_dec_T x y then true else false.

(** [xs[i]] for an index that is not negative. *)
Definition py_getitem {A : Type} (xs : list A) (i : nat) : result A :=
  match xs !! i with
  | Some x => Ok x
  | None => Raise IndexError
  end.

(** ** Data model *)

Definition point : Type := R * R.

(** The attributes set by [Shape.__init__]. *)
Record Style : Type := mkStyle {
  selected : bool;
  line_color : string;
  fill_color : string;
  line_width : Z;
  line_style : string
}.

Definition Shape__init__ : Style :=
  {| selected := false; line_color := "black"; fill_color := "";
     line_width := 2%Z; line_style := "solid" |}.

(** The eight classes.  [Circle.shear], [Rectangle.shear] and
    [Ellipse.shear] assign [self.__class__ = Polygon]: the object keeps its
    old attributes next to the new [points], but no method of [Polygon]
    reads them, so the embedding drops them. *)
Inductive ShapeOf (P : Type) : Type :=
| Line (st : Style) (x1 y1 x2 y2 : R)
| Circle (st : Style) (center_x center_y radius : R)
| Rectangle (st : Style) (x1 y1 x2 y2 : R)
| Ellipse (st : Style) (center_x center_y width height : R)
| Triangle (st : Style) (points : P)
| Pentagon (st : Style) (center_x center_y radius : R) (points : P)
| Hexagon (st : Style) (center_x center_y radius : R) (points : P)
| Polygon (st : Style) (points : P).
Arguments Line {P} st x1 y1 x2 y2.
Arguments Circle {P} st center_x center_y radius.
Arguments Rectangle {P} st x1 y1 x2 y2.
Arguments Ellipse {P} st center_x center_y width height.
Arguments Triangle {P} st points.
Arguments Pentagon {P} st center_x center_y radius points.
Arguments Hexagon {P} st center_x center_y radius points.
Arguments Polygon {P} st points.

Abbreviation Shape := (ShapeOf (list point)).

Definition style {P : Type} (s : ShapeOf P) : Style :=
  match s with
  | Line st _ _ _ _ | Circle st _ _ _ | Rectangle st _ _ _ _
  | Ellipse st _ _ _ _ | Triangle st _ | Pentagon st _ _ _ _
  | Hexagon st _ _ _ _ | Polygon st _ => st
  end.

Definition set_style {P : Type} (st : Style) (s : ShapeOf P) : ShapeOf P :=
  match s with
  | Line _ a b c d => Line st a b c d
  | Circle _ a b c => Circle st a b c
  | Rectangle _ a b c d => Rectangle st a b c d
  | Ellipse _ a b c d => Ellipse st a b c d
  | Triangle _ p => Triangle st p
  | Pentagon _ a b c p => Pentagon st a b c p
  | Hexagon _ a b c p => Hexagon st a b c p
  | Polygon _ p => Polygon st p
  end.

(** The [points] attribute, for the classes that have one. *)
Definition points_of {P : Type} (s : ShapeOf P) : option P :=
  match s with
  | Triangle _ p | Pentagon _ _ _ _ p | Hexagon _ _ _ _ p | Polygon _ p => Some p
  | _ => None
  end.

(** [Shape.get_dash_pattern]. *)
Definition get_dash_pattern (st : Style) : option (Z * Z) :=
  if String.eqb (line_style st) "dashed" then Some (5, 5)%Z
  else if String.eqb (line_style st) "dotted" then Some (2, 2)%Z
  else None.

(** The calls [draw] makes on the canvas, in order.  All carry
    [tags="shape"]; a call that passes no [dash] has [None]. *)
Inductive command : Type :=
| create_line (x1 y1 x2 y2 : R) (fill : string) (width : Z) (dash : option (Z * Z))
| create_oval (x1 y1 x2 y2 : R) (outline fill : string) (width : Z)
    (dash : option (Z * Z))
| create_rectangle (x1 y1 x2 y2 : R) (outline fill : string) (width : Z)
    (dash : option (Z * Z))
| create_polygon (flat_points : list R) (outline fill : string) (width : Z)
    (dash : option (Z * Z)).

(** ["red" if self.selected else self.line_color]. *)
Definition outline_of (st : Style) : string :=
  if selected st then "red" else line_color st.

(** [[coord for point in self.points for coord in point]]. *)
Definition flat_points_of (points : list point) : list R :=
  flat_map (fun p : point => [fst p; snd p]) points.

(** ** Geometry shared by the methods *)

(** The body of the rotation loops. *)
Definition rotate_point (cos_a sin_a center_x center_y : R) (p : point) : point :=
  let '(x, y) := p in
  let dx := x - center_x in
  let dy := y - center_y in
  (center_x + dx * cos_a - dy * sin_a, center_y + dx * sin_a + dy * cos_a).

(** The body of the scaling comprehensions. *)
Definition scale_point (factor center_x center_y : R) (p : point) : point :=
  let '(x, y) := p in
  (center_x + (x - center_x) * factor, center_y + (y - center_y) * factor).

(** The body of the shear loops. *)
Definition shear_point (shear_x shear_y : R) (p : point) : point :=
  let '(x, y) := p in (x + shear_x * y, y + shear_y * x).

Definition translate_point (dx dy : R) (p : point) : point :=
  let '(x, y) := p in (x + dx, y + dy).

(** [xs = [p[0] for p in points]], [ys = [p[1] for p in points]]. *)
Definition xs_of (points : list point) : list R := map fst points.
Definition ys_of (points : list point) : list R := map snd points.

(** [(sum(xs) / len(xs), sum(ys) / len(ys))], the default pivot of
    [Triangle] and [Polygon]. *)
Definition centroid (points : list point) : result point :=
  cx ← py_div (py_sum (xs_of points)) (py_len (xs_of points));
  cy ← py_div (py_sum (ys_of points)) (py_len (ys_of points));
  Ok (cx, cy).

(** [if center_x is None or center_y is None: <default>]. *)
Definition pivot_or (center_x center_y : option R) (default : result point)
  : result point :=
  match center_x, center_y with
  | Some cx, Some cy => Ok (cx, cy)
  | _, _ => default
  end.

(** [(min(xs), min(ys), max(xs), max(ys))]. *)
Definition points_bounds (points : list point) : result (R * R * R * R) :=
  min_x ← py_min (xs_of points);
  min_y ← py_min (ys_of points);
  max_x ← py_max (xs_of points);
  max_y ← py_max (ys_of points);
  Ok (min_x, min_y, max_x, max_y).

(** The tessellation loop of [Circle.shear] and [Ellipse.shear]:
    [rx = ry = r] for the circle. *)
Definition num_points : nat := 36.

Definition tessellate_shear (cx cy rx ry shear_x shear_y : R) : list point :=
  map (fun i : nat =>
         let theta := 2 * PI * INR i / INR num_points in
         let x := cx + rx * cos theta in
         let y := cy + ry * sin theta in
         (x + shear_x * y, y + shear_y * x))
      (seq 0 num_points).

(** Attribute assignments [obj.line_color = c] and the like. *)
Definition with_selected (b : bool) (st : Style) : Style :=
  {| selected := b; line_color := line_color st; fill_color := fill_color st;
     line_width := line_width st; line_style := line_style st |}.
Definition with_line_color (c : string) (st : Style) : Style :=
  {| selected := selected st; line_color := c; fill_color := fill_color st;
     line_width := line_width st; line_style := line_style st |}.
Definition with_fill_color (c : string) (st : Style) : Style :=
  {| selected := selected st; line_color := line_color st; fill_color := c;
     line_width := line_width st; line_style := line_style st |}.
Definition with_line_width (w : Z) (st : Style) : Style :=
  {| selected := selected st; line_color := line_color st; fill_color := fill_color st;
     line_width := w; line_style := line_style st |}.
Definition with_line_style (d : string) (st : Style) : Style :=
  {| selected := selected st; line_color := line_color st; fill_color := fill_color st;
     line_width := line_width st; line_style := d |}.

(** The four assignments made by every [copy] but [Line.copy], on the style
    [new] of the freshly constructed object. *)
Definition copy_style4 (self new : Style) : Style :=
  with_line_style (line_style self)
    (with_line_width (line_width self)
       (with_fill_color (fill_color self)
          (with_line_color (line_color self) new))).

(** The three assignments made by [Line.copy]. *)
Definition copy_style3 (self new : Style) : Style :=
  with_line_style (line_style self)
    (with_line_width (line_width self)
       (with_line_color (line_color self) new)).

(** ** class Line *)

Module Line.

Definition __init__ (x1 y1 x2 y2 : R) : Shape :=
  Line Shape__init__ x1 y1 x2 y2.

(** Over the reals; what the float code raises is in
    [Binary64.Line.contains_point]. *)
Definition contains_point (st : Style) (x1 y1 x2 y2 : R) (x y : R) : result bool :=
  let A := y2 - y1 in
  let B := x1 - x2 in
  let C := x2 * y1 - x1 * y2 in
  denominator ← math_sqrt (A * A + B * B);
  if Req_dec_T denominator 0 then
    distance_to_point ← math_sqrt ((x - x1) ^ 2 + (y - y1) ^ 2);
    Ok (Rltb distance_to_point 5)
  else
    distance ← py_div (Rabs (A * x + B * y + C)) denominator;
    let min_x := Rmin x1 x2 in
    let max_x := Rmax x1 x2 in
    let min_y := Rmin y1 y2 in
    let max_y := Rmax y1 y2 in
    Ok (Rltb distance 5 && (Rleb (min_x - 5) x && Rleb x (max_x + 5))
        && (Rleb (min_y - 5) y && Rleb y (max_y + 5))).

Definition get_bounds (st : Style) (x1 y1 x2 y2 : R) : R * R * R * R :=
  (Rmin x1 x2, Rmin y1 y2, Rmax x1 x2, Rmax y1 y2).

Definition translate (st : Style) (x1 y1 x2 y2 : R) (dx dy : R) : Shape :=
  Line st (x1 + dx) (y1 + dy) (x2 + dx) (y2 + dy).

Definition default_center (x1 y1 x2 y2 : R) : point :=
  ((x1 + x2) / 2, (y1 + y2) / 2).

Definition scale (st : Style) (x1 y1 x2 y2 : R) (factor : R)
    (center_x center_y : option R) : result Shape :=
  '(center_x, center_y) ← pivot_or center_x center_y (Ok (default_center x1 y1 x2 y2));
  Ok (Line st (center_x + (x1 - center_x) * factor)
              (center_y + (y1 - center_y) * factor)
              (center_x + (x2 - center_x) * factor)
              (center_y + (y2 - center_y) * factor)).

Definition rotate (st : Style) (x1 y1 x2 y2 : R) (angle : R)
    (center_x center_y : option R) : result Shape :=
  '(center_x, center_y) ← pivot_or center_x center_y (Ok (default_center x1 y1 x2 y2));
  let cos_a := cos angle in
  let sin_a := sin angle in
  let dx1 := x1 - center_x in
  let dy1 := y1 - center_y in
  let dx2 := x2 - center_x in
  let dy2 := y2 - center_y in
  Ok (Line st (center_x + dx1 * cos_a - dy1 * sin_a)
              (center_y + dx1 * sin_a + dy1 * cos_a)
              (center_x + dx2 * cos_a - dy2 * sin_a)
              (center_y + dx2 * sin_a + dy2 * cos_a)).

Definition copy (st : Style) (x1 y1 x2 y2 : R) : result Shape :=
  let new_line := __init__ x1 y1 x2 y2 in
  Ok (set_style (copy_style3 st (style new_line)) new_line).

Definition shear (st : Style) (x1 y1 x2 y2 : R) (shear_x shear_y : R) : Shape :=
  Line st (x1 + shear_x * y1) (y1 + shear_y * x1)
          (x2 + shear_x * y2) (y2 + shear_y * x2).

Definition draw (st : Style) (x1 y1 x2 y2 : R) : list command :=
  [create_line x1 y1 x2 y2 (outline_of st) (line_width st) (get_dash_pattern st)].

End Line.

(** ** class Circle *)

Module Circle.

Definition __init__ (center_x center_y radius : R) : Shape :=
  Circle Shape__init__ center_x center_y radius.

Definition contains_point (st : Style) (cx cy radius : R) (x y : R) : result bool :=
  distance ← math_sqrt ((x - cx) ^ 2 + (y - cy) ^ 2);
  Ok (Rltb (Rabs (distance - radius)) 5).

Definition get_bounds (st : Style) (cx cy radius : R) : R * R * R * R :=
  (cx - radius, cy - radius, cx + radius, cy + radius).

Definition translate (st : Style) (cx cy radius : R) (dx dy : R) : Shape :=
  Circle st (cx + dx) (cy + dy) radius.

Definition scale (st : Style) (cx cy radius : R) (factor : R)
    (center_x center_y : option R) : result Shape :=
  match center_x, center_y with
  | Some center_x, Some center_y =>
      Ok (Circle st (center_x + (cx - center_x) * factor)
                    (center_y + (cy - center_y) * factor)
                    (radius * factor))
  | _, _ => Ok (Circle st cx cy (radius * factor))
  end.

Definition rotate (st : Style) (cx cy radius : R) (angle : R)
    (center_x center_y : option R) : result Shape :=
  match center_x, center_y with
  | Some center_x, Some center_y =>
      let cos_a := cos angle in
      let sin_a := sin angle in
      let dx := cx - center_x in
      let dy := cy - center_y in
      Ok (Circle st (center_x + dx * cos_a - dy * sin_a)
                    (center_y + dx * sin_a + dy * cos_a) radius)
  | _, _ => Ok (Circle st cx cy radius)
  end.

Definition copy (st : Style) (cx cy radius : R) : result Shape :=
  let new_circle := __init__ cx cy radius in
  Ok (set_style (copy_style4 st (style new_circle)) new_circle).

Definition shear (st : Style) (cx cy r : R) (shear_x shear_y : R) : Shape :=
  Polygon st (tessellate_shear cx cy r r shear_x shear_y).

Definition draw (st : Style) (cx cy radius : R) : list command :=
  [create_oval (cx - radius) (cy - radius) (cx + radius) (cy + radius)
     (outline_of st) (fill_color st) (line_width st) (get_dash_pattern st)].

End Circle.

(** ** class Rectangle *)

Module Rectangle.

Definition __init__ (x1 y1 x2 y2 : R) : Shape :=
  Rectangle Shape__init__ (Rmin x1 x2) (Rmin y1 y2) (Rmax x1 x2) (Rmax y1 y2).

Definition get_bounds (st : Style) (x1 y1 x2 y2 : R) : R * R * R * R :=
  (x1, y1, x2, y2).

Definition translate (st : Style) (x1 y1 x2 y2 : R) (dx dy : R) : Shape :=
  Rectangle st (x1 + dx) (y1 + dy) (x2 + dx) (y2 + dy).

Definition default_center (x1 y1 x2 y2 : R) : point :=
  ((x1 + x2) / 2, (y1 + y2) / 2).

Definition scale (st : Style) (x1 y1 x2 y2 : R) (factor : R)
    (center_x center_y : option R) : result Shape :=
  '(center_x, center_y) ← pivot_or center_x center_y (Ok (default_center x1 y1 x2 y2));
  Ok (Rectangle st (center_x + (x1 - center_x) * factor)
                   (center_y + (y1 - center_y) * factor)
                   (center_x + (x2 - center_x) * factor)
                   (center_y + (y2 - center_y) * factor)).

Definition corners (x1 y1 x2 y2 : R) : list point :=
  [(x1, y1); (x2, y1); (x2, y2); (x1, y2)].

Definition rotate (st : Style) (x1 y1 x2 y2 : R) (angle : R)
    (center_x center_y : option R) : result Shape :=
  '(center_x, center_y) ← pivot_or center_x center_y (Ok (default_center x1 y1 x2 y2));
  let points := corners x1 y1 x2 y2 in
  let cos_a := cos angle in
  let sin_a := sin angle in
  let rotated_points := map (rotate_point cos_a sin_a center_x center_y) points in
  let xs := xs_of rotated_points in
  let ys := ys_of rotated_points in
  nx1 ← py_min xs;
  ny1 ← py_min ys;
  nx2 ← py_max xs;
  ny2 ← py_max ys;
  Ok (Rectangle st nx1 ny1 nx2 ny2).

Definition copy (st : Style) (x1 y1 x2 y2 : R) : result Shape :=
  let new_rect := __init__ x1 y1 x2 y2 in
  Ok (set_style (copy_style4 st (style new_rect)) new_rect).

Definition shear (st : Style) (x1 y1 x2 y2 : R) (shear_x shear_y : R) : Shape :=
  Polygon st (map (shear_point shear_x shear_y) (corners x1 y1 x2 y2)).

Definition draw (st : Style) (x1 y1 x2 y2 : R) : list command :=
  [create_rectangle x1 y1 x2 y2
     (outline_of st) (fill_color st) (line_width st) (get_dash_pattern st)].

Definition contains_point (st : Style) (x1 y1 x2 y2 : R) (x y : R) : result bool :=
  let margin := 5 in
  Ok (((Rleb (x1 - margin) x && Rleb x (x2 + margin))
       && (Rleb (y1 - margin) y && Rleb y (y1 + margin)))
      || ((Rleb (x1 - margin) x && Rleb x (x2 + margin))
          && (Rleb (y2 - margin) y && Rleb y (y2 + margin)))
      || ((Rleb (x1 - margin) x && Rleb x (x1 + margin))
          && (Rleb (y1 - margin) y && Rleb y (y2 + margin)))
      || ((Rleb (x2 - margin) x && Rleb x (x2 + margin))
          && (Rleb (y1 - margin) y && Rleb y (y2 + margin)))).

End Rectangle.

(** ** class Ellipse *)

Module Ellipse.

Definition __init__ (center_x center_y width height : R) : Shape :=
  Ellipse Shape__init__ center_x center_y width height.

(** Over the reals; what the float code raises is in
    [Binary64.Ellipse.contains_point]. *)
Definition contains_point (st : Style) (cx cy width height : R) (x y : R)
  : result bool :=
  if Rleb width 0 || Rleb height 0 then Ok false
  else
    hw ← py_div width 2;
    dx ← py_div (x - cx) hw;
    hh ← py_div height 2;
    dy ← py_div (y - cy) hh;
    Ok (Rleb (dx * dx + dy * dy) 1).

Definition get_bounds (st : Style) (cx cy width height : R) : R * R * R * R :=
  (cx - width / 2, cy - height / 2, cx + width / 2, cy + height / 2).

Definition translate (st : Style) (cx cy width height : R) (dx dy : R) : Shape :=
  Ellipse st (cx + dx) (cy + dy) width height.

Definition scale (st : Style) (cx cy width height : R) (factor : R)
    (center_x center_y : option R) : result Shape :=
  match center_x, center_y with
  | Some center_x, Some center_y =>
      Ok (Ellipse st (center_x + (cx - center_x) * factor)
                     (center_y + (cy - center_y) * factor)
                     (width * factor) (height * factor))
  | _, _ => Ok (Ellipse st cx cy (width * factor) (height * factor))
  end.

Definition rotate (st : Style) (cx cy width height : R) (angle : R)
    (center_x center_y : option R) : result Shape :=
  match center_x, center_y with
  | Some center_x, Some center_y =>
      let cos_a := cos angle in
      let sin_a := sin angle in
      let dx := cx - center_x in
      let dy := cy - center_y in
      Ok (Ellipse st (center_x + dx * cos_a - dy * sin_a)
                     (center_y + dx * sin_a + dy * cos_a) width height)
  | _, _ => Ok (Ellipse st cx cy width height)
  end.

Definition copy (st : Style) (cx cy width height : R) : result Shape :=
  let new_ellipse := __init__ cx cy width height in
  Ok (set_style (copy_style4 st (style new_ellipse)) new_ellipse).

Definition shear (st : Style) (cx cy width height : R) (shear_x shear_y : R)
  : Shape :=
  Polygon st (tessellate_shear cx cy (width / 2) (height / 2) shear_x shear_y).

Definition draw (st : Style) (cx cy width height : R) : list command :=
  [create_oval (cx - width / 2) (cy - height / 2) (cx + width / 2) (cy + height / 2)
     (outline_of st) (fill_color st) (line_width st) (get_dash_pattern st)].

End Ellipse.

(** ** class Triangle *)

Module Triangle.

Definition __init__ (x1 y1 x2 y2 : R) : result Shape :=
  let center_x := (x1 + x2) / 2 in
  let center_y := (y1 + y2) / 2 in
  d ← math_sqrt ((x2 - x1) ^ 2 + (y2 - y1) ^ 2);
  let size := d / 2 in
  Ok (Triangle Shape__init__
        [ (center_x, center_y - size);
          (center_x - size * 0.866, center_y + size * 0.5);
          (center_x + size * 0.866, center_y + size * 0.5) ]).

Definition contains_point (st : Style) (points : list point) (x y : R)
  : result bool :=
  let xs := xs_of points in
  let ys := ys_of points in
  min_x ← py_min xs;
  max_x ← py_max xs;
  min_y ← py_min ys;
  max_y ← py_max ys;
  Ok ((Rleb (min_x - 5) x && Rleb x (max_x + 5))
      && (Rleb (min_y - 5) y && Rleb y (max_y + 5))).

Definition get_bounds (st : Style) (points : list point) : result (R * R * R * R) :=
  points_bounds points.

Definition translate (st : Style) (points : list point) (dx dy : R) : Shape :=
  Triangle st (map (translate_point dx dy) points).

Definition scale (st : Style) (points : list point) (factor : R)
    (center_x center_y : option R) : result Shape :=
  '(center_x, center_y) ← pivot_or center_x center_y (centroid points);
  Ok (Triangle st (map (scale_point factor center_x center_y) points)).

Definition rotate (st : Style) (points : list point) (angle : R)
    (center_x center_y : option R) : result Shape :=
  '(center_x, center_y) ← pivot_or center_x center_y (centroid points);
  let cos_a := cos angle in
  let sin_a := sin angle in
  Ok (Triangle st (map (rotate_point cos_a sin_a center_x center_y) points)).

Definition copy (st : Style) (points : list point) : result Shape :=
  new_triangle ← __init__ 0 0 0 0;
  Ok (Triangle (copy_style4 st (style new_triangle)) points).

Definition shear (st : Style) (points : list point) (shear_x shear_y : R) : Shape :=
  Triangle st (map (shear_point shear_x shear_y) points).

Definition draw (st : Style) (points : list point) : list command :=
  [create_polygon (flat_points_of points)
     (outline_of st) (fill_color st) (line_width st) (get_dash_pattern st)].

End Triangle.

(** ** class Pentagon *)

Module Pentagon.

Definition _generate_pentagon_points (center_x center_y radius : R) : list point :=
  map (fun i : nat =>
         let angle := INR i * 2 * PI / 5 - PI / 2 in
         (center_x + radius * cos angle, center_y + radius * sin angle))
      (seq 0 5).

Definition __init__ (center_x center_y radius : R) : Shape :=
  Pentagon Shape__init__ center_x center_y radius
    (_generate_pentagon_points center_x center_y radius).

Definition contains_point (st : Style) (cx cy radius : R) (points : list point)
    (x y : R) : result bool :=
  distance ← math_sqrt ((x - cx) ^ 2 + (y - cy) ^ 2);
  Ok (Rltb (Rabs (distance - radius)) 10).

Definition get_bounds (st : Style) (cx cy radius : R) (points : list point)
  : R * R * R * R :=
  (cx - radius, cy - radius, cx + radius, cy + radius).

Definition translate (st : Style) (cx cy radius : R) (points : list point)
    (dx dy : R) : Shape :=
  Pentagon st (cx + dx) (cy + dy) radius (map (translate_point dx dy) points).

Definition scale (st : Style) (cx cy radius : R) (points : list point)
    (factor : R) (center_x center_y : option R) : result Shape :=
  let '(cx', cy') :=
    match center_x, center_y with
    | Some center_x, Some center_y =>
        (center_x + (cx - center_x) * factor, center_y + (cy - center_y) * factor)
    | _, _ => (cx, cy)
    end in
  let radius' := radius * factor in
  Ok (Pentagon st cx' cy' radius' (_generate_pentagon_points cx' cy' radius')).

Definition rotate (st : Style) (cx cy radius : R) (points : list point)
    (angle : R) (center_x center_y : option R) : result Shape :=
  let '(cx', cy') :=
    match center_x, center_y with
    | Some center_x, Some center_y =>
        let cos_a := cos angle in
        let sin_a := sin angle in
        let dx := cx - center_x in
        let dy := cy - center_y in
        (center_x + dx * cos_a - dy * sin_a, center_y + dx * sin_a + dy * cos_a)
    | _, _ => (cx, cy)
    end in
  Ok (Pentagon st cx' cy' radius (_generate_pentagon_points cx' cy' radius)).

Definition copy (st : Style) (cx cy radius : R) (points : list point)
  : result Shape :=
  let new_pentagon := __init__ cx cy radius in
  Ok (set_style (copy_style4 st (style new_pentagon)) new_pentagon).

Definition shear (st : Style) (cx cy radius : R) (points : list point)
    (shear_x shear_y : R) : Shape :=
  Pentagon st cx cy radius (map (shear_point shear_x shear_y) points).

Definition draw (st : Style) (cx cy radius : R) (points : list point) : list command :=
  [create_polygon (flat_points_of points)
     (outline_of st) (fill_color st) (line_width st) (get_dash_pattern st)].

End Pentagon.

(** ** class Hexagon *)

Module Hexagon.

Definition _generate_hexagon_points (center_x center_y radius : R) : list point :=
  map (fun i : nat =>
         let angle := INR i * 2 * PI / 6 in
         (center_x + radius * cos angle, center_y + radius * sin angle))
      (seq 0 6).

Definition __init__ (center_x center_y radius : R) : Shape :=
  Hexagon Shape__init__ center_x center_y radius
    (_generate_hexagon_points center_x center_y radius).

Definition contains_point (st : Style) (cx cy radius : R) (points : list point)
    (x y : R) : result bool :=
  distance ← math_sqrt ((x - cx) ^ 2 + (y - cy) ^ 2);
  Ok (Rltb (Rabs (distance - radius)) 10).

Definition get_bounds (st : Style) (cx cy radius : R) (points : list point)
  : R * R * R * R :=
  (cx - radius, cy - radius, cx + radius, cy + radius).

Definition translate (st : Style) (cx cy radius : R) (points : list point)
    (dx dy : R) : Shape :=
  Hexagon st (cx + dx) (cy + dy) radius (map (translate_point dx dy) points).

Definition scale (st : Style) (cx cy radius : R) (points : list point)
    (factor : R) (center_x center_y : option R) : result Shape :=
  let '(cx', cy') :=
    match center_x, center_y with
    | Some center_x, Some center_y =>
        (center_x + (cx - center_x) * factor, center_y + (cy - center_y) * factor)
    | _, _ => (cx, cy)
    end in
  let radius' := radius * factor in
  Ok (Hexagon st cx' cy' radius' (_generate_hexagon_points cx' cy' radius')).

Definition rotate (st : Style) (cx cy radius : R) (points : list point)
    (angle : R) (center_x center_y : option R) : result Shape :=
  let '(cx', cy') :=
    match center_x, center_y with
    | Some center_x, Some center_y =>
        let cos_a := cos angle in
        let sin_a := sin angle in
        let dx := cx - center_x in
        let dy := cy - center_y in
        (center_x + dx * cos_a - dy * sin_a, center_y + dx * sin_a + dy * cos_a)
    | _, _ => (cx, cy)
    end in
  Ok (Hexagon st cx' cy' radius (_generate_hexagon_points cx' cy' radius)).

Definition copy (st : Style) (cx cy radius : R) (points : list point)
  : result Shape :=
  let new_hexagon := __init__ cx cy radius in
  Ok (set_style (copy_style4 st (style new_hexagon)) new_hexagon).

Definition shear (st : Style) (cx cy radius : R) (points : list point)
    (shear_x shear_y : R) : Shape :=
  Hexagon st cx cy radius (map (shear_point shear_x shear_y) points).

Definition draw (st : Style) (cx cy radius : R) (points : list point) : list command :=
  [create_polygon (flat_points_of points)
     (outline_of st) (fill_color st) (line_width st) (get_dash_pattern st)].

End Hexagon.

(** ** class Polygon *)

Module Polygon.

Definition __init__ (points : list point) : Shape :=
  Polygon Shape__init__ points.

Definition get_bounds (st : Style) (points : list point) : result (R * R * R * R) :=
  match points with
  | [] => Ok (0, 0, 0, 0)
  | _ => points_bounds points
  end.

Definition translate (st : Style) (points : list point) (dx dy : R) : Shape :=
  Polygon st (map (translate_point dx dy) points).

Definition scale (st : Style) (points : list point) (factor : R)
    (center_x center_y : option R) : result Shape :=
  '(center_x, center_y) ← pivot_or center_x center_y (centroid points);
  Ok (Polygon st (map (scale_point factor center_x center_y) points)).

Definition rotate (st : Style) (points : list point) (angle : R)
    (center_x center_y : option R) : result Shape :=
  '(center_x, center_y) ← pivot_or center_x center_y (centroid points);
  let cos_a := cos angle in
  let sin_a := sin angle in
  Ok (Polygon st (map (rotate_point cos_a sin_a center_x center_y) points)).

Definition copy (st : Style) (points : list point) : result Shape :=
  let new_polygon := __init__ points in
  Ok (set_style (copy_style4 st (style new_polygon)) new_polygon).

Definition shear (st : Style) (points : list point) (shear_x shear_y : R) : Shape :=
  Polygon st (map (shear_point shear_x shear_y) points).

(** The loop of [draw], over [indices]. *)
Fixpoint draw_loop (st : Style) (points : list point) (indices : list nat)
  : result (list command) :=
  match indices with
  | [] => Ok []
  | i :: rest =>
      '(x1, y1) ← py_getitem points i;
      '(x2, y2) ← py_getitem points ((i + 1) mod length points);
      cmds ← draw_loop st points rest;
      Ok (create_line x1 y1 x2 y2 (outline_of st) (line_width st) None :: cmds)
  end.

Definition draw (st : Style) (points : list point) : result (list command) :=
  if (length points <? 2)%nat then Ok []
  else draw_loop st points (seq 0 (length points)).

(** The loop of [contains_point], over [indices].  Over the reals; what
    the float code raises is in [Binary64.Polygon.contains_point]. *)
Fixpoint contains_point_loop (points : list point) (x y : R) (indices : list nat)
  : result bool :=
  match indices with
  | [] => Ok false
  | i :: rest =>
      '(x1, y1) ← py_getitem points i;
      '(x2, y2) ← py_getitem points ((i + 1) mod length points);
      if Reqb x1 x2 && Reqb y1 y2 then contains_point_loop points x y rest
      else
        let A := y2 - y1 in
        let B := x1 - x2 in
        let C := x2 * y1 - x1 * y2 in
        if Reqb A 0 && Reqb B 0 then contains_point_loop points x y rest
        else
          d ← math_sqrt (A * A + B * B);
          distance ← py_div (Rabs (A * x + B * y + C)) d;
          if Rltb distance 5 then Ok true
          else contains_point_loop points x y rest
  end.

Definition contains_point (st : Style) (points : list point) (x y : R) : result bool :=
  contains_point_loop points x y (seq 0 (length points)).

End Polygon.

(** ** Method dispatch on the class of [self] *)

Definition get_bounds (self : Shape) : result (R * R * R * R) :=
  match self with
  | Line st x1 y1 x2 y2 => Ok (Line.get_bounds st x1 y1 x2 y2)
  | Circle st cx cy r => Ok (Circle.get_bounds st cx cy r)
  | Rectangle st x1 y1 x2 y2 => Ok (Rectangle.get_bounds st x1 y1 x2 y2)
  | Ellipse st cx cy w h => Ok (Ellipse.get_bounds st cx cy w h)
  | Triangle st pts => Triangle.get_bounds st pts
  | Pentagon st cx cy r pts => Ok (Pentagon.get_bounds st cx cy r pts)
  | Hexagon st cx cy r pts => Ok (Hexagon.get_bounds st cx cy r pts)
  | Polygon st pts => Polygon.get_bounds st pts
  end.

Definition translate (self : Shape) (dx dy : R) : result Shape :=
  match self with
  | Line st x1 y1 x2 y2 => Ok (Line.translate st x1 y1 x2 y2 dx dy)
  | Circle st cx cy r => Ok (Circle.translate st cx cy r dx dy)
  | Rectangle st x1 y1 x2 y2 => Ok (Rectangle.translate st x1 y1 x2 y2 dx dy)
  | Ellipse st cx cy w h => Ok (Ellipse.translate st cx cy w h dx dy)
  | Triangle st pts => Ok (Triangle.translate st pts dx dy)
  | Pentagon st cx cy r pts => Ok (Pentagon.translate st cx cy r pts dx dy)
  | Hexagon st cx cy r pts => Ok (Hexagon.translate st cx cy r pts dx dy)
  | Polygon st pts => Ok (Polygon.translate st pts dx dy)
  end.

Definition scale (self : Shape) (factor : R) (center_x center_y : option R)
  : result Shape :=
  match self with
  | Line st x1 y1 x2 y2 => Line.scale st x1 y1 x2 y2 factor center_x center_y
  | Circle st cx cy r => Circle.scale st cx cy r factor center_x center_y
  | Rectangle st x1 y1 x2 y2 => Rectangle.scale st x1 y1 x2 y2 factor center_x center_y
  | Ellipse st cx cy w h => Ellipse.scale st cx cy w h factor center_x center_y
  | Triangle st pts => Triangle.scale st pts factor center_x center_y
  | Pentagon st cx cy r pts => Pentagon.scale st cx cy r pts factor center_x center_y
  | Hexagon st cx cy r pts => Hexagon.scale st cx cy r pts factor center_x center_y
  | Polygon st pts => Polygon.scale st pts factor center_x center_y
  end.

Definition rotate (self : Shape) (angle : R) (center_x center_y : option R)
  : result Shape :=
  match self with
  | Line st x1 y1 x2 y2 => Line.rotate st x1 y1 x2 y2 angle center_x center_y
  | Circle st cx cy r => Circle.rotate st cx cy r angle center_x center_y
  | Rectangle st x1 y1 x2 y2 => Rectangle.rotate st x1 y1 x2 y2 angle center_x center_y
  | Ellipse st cx cy w h => Ellipse.rotate st cx cy w h angle center_x center_y
  | Triangle st pts => Triangle.rotate st pts angle center_x center_y
  | Pentagon st cx cy r pts => Pentagon.rotate st cx cy r pts angle center_x center_y
  | Hexagon st cx cy r pts => Hexagon.rotate st cx cy r pts angle center_x center_y
  | Polygon st pts => Polygon.rotate st pts angle center_x center_y
  end.

Definition shear (self : Shape) (shear_x shear_y : R) : result Shape :=
  match self with
  | Line st x1 y1 x2 y2 => Ok (Line.shear st x1 y1 x2 y2 shear_x shear_y)
  | Circle st cx cy r => Ok (Circle.shear st cx cy r shear_x shear_y)
  | Rectangle st x1 y1 x2 y2 => Ok (Rectangle.shear st x1 y1 x2 y2 shear_x shear_y)
  | Ellipse st cx cy w h => Ok (Ellipse.shear st cx cy w h shear_x shear_y)
  | Triangle st pts => Ok (Triangle.shear st pts shear_x shear_y)
  | Pentagon st cx cy r pts => Ok (Pentagon.shear st cx cy r pts shear_x shear_y)
  | Hexagon st cx cy r pts => Ok (Hexagon.shear st cx cy r pts shear_x shear_y)
  | Polygon st pts => Ok (Polygon.shear st pts shear_x shear_y)
  end.

Definition copy (self : Shape) : result Shape :=
  match self with
  | Line st x1 y1 x2 y2 => Line.copy st x1 y1 x2 y2
  | Circle st cx cy r => Circle.copy st cx cy r
  | Rectangle st x1 y1 x2 y2 => Rectangle.copy st x1 y1 x2 y2
  | Ellipse st cx cy w h => Ellipse.copy st cx cy w h
  | Triangle st pts => Triangle.copy st pts
  | Pentagon st cx cy r pts => Pentagon.copy st cx cy r pts
  | Hexagon st cx cy r pts => Hexagon.copy st cx cy r pts
  | Polygon st pts => Polygon.copy st pts
  end.

Definition contains_point (self : Shape) (x y : R) : result bool :=
  match self with
  | Line st x1 y1 x2 y2 => Line.contains_point st x1 y1 x2 y2 x y
  | Circle st cx cy r => Circle.contains_point st cx cy r x y
  | Rectangle st x1 y1 x2 y2 => Rectangle.contains_point st x1 y1 x2 y2 x y
  | Ellipse st cx cy w h => Ellipse.contains_point st cx cy w h x y
  | Triangle st pts => Triangle.contains_point st pts x y
  | Pentagon st cx cy r pts => Pentagon.contains_point st cx cy r pts x y
  | Hexagon st cx cy r pts => Hexagon.contains_point st cx cy r pts x y
  | Polygon st pts => Polygon.contains_point st pts x y
  end.

(** [self.draw(canvas)]; the name [draw] is taken by a tool below. *)
Definition Shape_draw (self : Shape) : result (list command) :=
  match self with
  | Line st x1 y1 x2 y2 => Ok (Line.draw st x1 y1 x2 y2)
  | Circle st cx cy r => Ok (Circle.draw st cx cy r)
  | Rectangle st x1 y1 x2 y2 => Ok (Rectangle.draw st x1 y1 x2 y2)
  | Ellipse st cx cy w h => Ok (Ellipse.draw st cx cy w h)
  | Triangle st pts => Ok (Triangle.draw st pts)
  | Pentagon st cx cy r pts => Ok (Pentagon.draw st cx cy r pts)
  | Hexagon st cx cy r pts => Ok (Hexagon.draw st cx cy r pts)
  | Polygon st pts => Polygon.draw st pts
  end.

(** [hasattr(shape, 'shear')], the test made by [PaintApp.shear_transform]:
    the attribute is looked up on the class of the object and then on its
    base class [Shape], which defines [shear] for every shape. *)
Inductive class : Type :=
| CLine | CCircle | CRectangle | CEllipse | CTriangle | CPentagon | CHexagon | CPolygon.

Definition class_of {P : Type} (s : ShapeOf P) : class :=
  match s with
  | Line _ _ _ _ _ => CLine
  | Circle _ _ _ _ => CCircle
  | Rectangle _ _ _ _ _ => CRectangle
  | Ellipse _ _ _ _ _ => CEllipse
  | Triangle _ _ => CTriangle
  | Pentagon _ _ _ _ _ => CPentagon
  | Hexagon _ _ _ _ _ => CHexagon
  | Polygon _ _ => CPolygon
  end.

(** Does the class body itself define [shear]? *)
Definition overrides_shear (c : class) : bool :=
  match c with
  | CLine | CCircle | CRectangle | CEllipse
  | CTriangle | CPentagon | CHexagon | CPolygon => true
  end.

Definition base_defines_shear : bool := true.

Definition hasattr_shear {P : Type} (s : ShapeOf P) : bool :=
  overrides_shear (class_of s) || base_defines_shear.

(** ** The factory: [DrawingCanvas.create_shape] and [on_right_click] *)

Inductive tool : Type :=
| pointer | draw | line | circle | rectangle | ellipse | triangle | pentagon
| hexagon | polygon.

Definition create_shape (current_tool : tool) (x1 y1 x2 y2 : R)
  : result (option Shape) :=
  match current_tool with
  | line => Ok (Some (Line.__init__ x1 y1 x2 y2))
  | circle =>
      radius ← math_sqrt ((x2 - x1) ^ 2 + (y2 - y1) ^ 2);
      Ok (Some (Circle.__init__ x1 y1 radius))
  | rectangle => Ok (Some (Rectangle.__init__ x1 y1 x2 y2))
  | ellipse =>
      let width := Rabs (x2 - x1) in
      let height := Rabs (y2 - y1) in
      let center_x := (x1 + x2) / 2 in
      let center_y := (y1 + y2) / 2 in
      Ok (Some (Ellipse.__init__ center_x center_y width height))
  | triangle => s ← Triangle.__init__ x1 y1 x2 y2; Ok (Some s)
  | pentagon =>
      radius ← math_sqrt ((x2 - x1) ^ 2 + (y2 - y1) ^ 2);
      Ok (Some (Pentagon.__init__ x1 y1 radius))
  | hexagon =>
      radius ← math_sqrt ((x2 - x1) ^ 2 + (y2 - y1) ^ 2);
      Ok (Some (Hexagon.__init__ x1 y1 radius))
  | _ => Ok None
  end.

(** ** Reachable states of one shape object *)

(** The four transforms, as requested by the user interface. *)
Inductive op : Type :=
| OTranslate (dx dy : R)
| OScale (factor : R) (center_x center_y : option R)
| ORotate (angle : R) (center_x center_y : option R)
| OShear (shear_x shear_y : R).

Definition apply_op (o : op) (self : Shape) : result Shape :=
  match o with
  | OTranslate dx dy => translate self dx dy
  | OScale factor center_x center_y => scale self factor center_x center_y
  | ORotate angle center_x center_y => rotate self angle center_x center_y
  | OShear shear_x shear_y => shear self shear_x shear_y
  end.

(** What the constructors return. *)
Inductive constructed : Shape -> Prop :=
| new_Line x1 y1 x2 y2 : constructed (Line.__init__ x1 y1 x2 y2)
| new_Circle cx cy r : constructed (Circle.__init__ cx cy r)
| new_Rectangle x1 y1 x2 y2 : constructed (Rectangle.__init__ x1 y1 x2 y2)
| new_Ellipse cx cy w h : constructed (Ellipse.__init__ cx cy w h)
| new_Triangle x1 y1 x2 y2 s :
    Triangle.__init__ x1 y1 x2 y2 = Ok s -> constructed s
| new_Pentagon cx cy r : constructed (Pentagon.__init__ cx cy r)
| new_Hexagon cx cy r : constructed (Hexagon.__init__ cx cy r)
| new_Polygon pts : constructed (Polygon.__init__ pts).

(** A state is reachable when it is built by a constructor and then changed
    by style assignments and transform calls that return. *)
Inductive reachable : Shape -> Prop :=
| reach_new s : constructed s -> reachable s
| reach_style s st : reachable s -> reachable (set_style st s)
| reach_op s o s' : reachable s -> apply_op o s = Ok s' -> reachable s'.

(** A [Pentagon] or [Hexagon] whose [points] are the ones its
    [_generate_*_points] computes from its current center and radius. *)
Definition in_sync (s : Shape) : Prop :=
  match s with
  | Pentagon _ cx cy r pts => pts = Pentagon._generate_pentagon_points cx cy r
  | Hexagon _ cx cy r pts => pts = Hexagon._generate_hexagon_points cx cy r
  | _ => True
  end.

(** The pivot is passed, or the default pivot can be computed: only the
    centroid of an empty point list cannot. *)
Definition pivot_given (center_x center_y : option R) : bool :=
  match center_x, center_y with
  | Some _, Some _ => true
  | _, _ => false
  end.

Definition has_pivot (s : Shape) (center_x center_y : option R) : Prop :=
  match s with
  | Triangle _ pts | Polygon _ pts => pivot_given center_x center_y = true \/ pts <> []
  | _ => True
  end.

(** The pivot a transform of [s] uses: the one passed, else the default of
    the class of [s]. *)
Definition pivot_of (s : Shape) (center_x center_y : option R) : result point :=
  pivot_or center_x center_y
    match s with
    | Line _ x1 y1 x2 y2 => Ok (Line.default_center x1 y1 x2 y2)
    | Rectangle _ x1 y1 x2 y2 => Ok (Rectangle.default_center x1 y1 x2 y2)
    | Circle _ cx cy _ | Ellipse _ cx cy _ _
    | Pentagon _ cx cy _ _ | Hexagon _ cx cy _ _ => Ok (cx, cy)
    | Triangle _ pts | Polygon _ pts => centroid pts
    end.

(** The standard rotation [pivot + R(angle)(p - pivot)]. *)
Definition rotation (angle : R) (pivot p : point) : point :=
  (fst pivot + (fst p - fst pivot) * cos angle - (snd p - snd pivot) * sin angle,
   snd pivot + (fst p - fst pivot) * sin angle + (snd p - snd pivot) * cos angle).

Definition is_Rectangle {P : Type} (s : ShapeOf P) : bool :=
  match s with Rectangle _ _ _ _ _ => true | _ => false end.

(** ** The object heap

    Objects and list objects live in two stores; an address is an index
    and allocation appends.  An object's [points] attribute holds the
    address of a list object. *)

Abbreviation loc := nat.

Abbreviation Obj := (ShapeOf loc).

Record Heap : Type := mkHeap {
  objs : list Obj;
  lists : list (list point)
}.

Definition map_points {P Q : Type} (f : P -> option Q) (s : ShapeOf P)
  : option (ShapeOf Q) :=
  match s with
  | Line st a b c d => Some (Line st a b c d)
  | Circle st a b c => Some (Circle st a b c)
  | Rectangle st a b c d => Some (Rectangle st a b c d)
  | Ellipse st a b c d => Some (Ellipse st a b c d)
  | Triangle st p => q ← f p; Some (Triangle st q)
  | Pentagon st a b c p => q ← f p; Some (Pentagon st a b c q)
  | Hexagon st a b c p => q ← f p; Some (Hexagon st a b c q)
  | Polygon st p => q ← f p; Some (Polygon st q)
  end.

Definition retarget {P Q : Type} (q : Q) (s : ShapeOf P) : ShapeOf Q :=
  match s with
  | Line st a b c d => Line st a b c d
  | Circle st a b c => Circle st a b c
  | Rectangle st a b c d => Rectangle st a b c d
  | Ellipse st a b c d => Ellipse st a b c d
  | Triangle st _ => Triangle st q
  | Pentagon st a b c _ => Pentagon st a b c q
  | Hexagon st a b c _ => Hexagon st a b c q
  | Polygon st _ => Polygon st q
  end.

(** The value of the object at [a]: its attributes, with the contents of
    the list its [points] refers to. *)
Definition load (h : Heap) (a : loc) : option Shape :=
  o ← objs h !! a; map_points (fun l : loc => lists h !! l) o.

(** The list store after the new [points] list of [s], if it has one, is
    allocated at the next free address. *)
Definition alloc_points (ls : list (list point)) (s : Shape) : list (list point) :=
  match points_of s with
  | Some pts => ls ++ [pts]
  | None => ls
  end.

(** [self] at [a] becomes [s]; every method that leaves a [points] attribute
    assigns it a list it has just built. *)
Definition store_obj (h : Heap) (a : loc) (s : Shape) : Heap :=
  {| objs := <[a := retarget (length (lists h)) s]> (objs h);
     lists := alloc_points (lists h) s |}.

(** A new object with value [s]. *)
Definition alloc_obj (h : Heap) (s : Shape) : Heap * loc :=
  ({| objs := objs h ++ [retarget (length (lists h)) s];
      lists := alloc_points (lists h) s |},
   length (objs h)).

(** What a client can do to the object at an address. *)
Inductive mutation : Type :=
| Call (o : op)
| SetAttr (f : Style -> Style)
| AssignPoints (pts : list point)
| SetPointsItem (i : nat) (p : point)
| AppendPoint (p : point).

(** [None]: there is no object at [a], or the list its [points] refers to
    is missing, which a well-formed heap excludes. *)
Definition mutate (m : mutation) (h : Heap) (a : loc) : option (result Heap) :=
  match m with
  | Call o =>
      s ← load h a;
      Some (match apply_op o s with
            | Ok s' => Ok (store_obj h a s')
            | Raise e => Raise e
            end)
  | SetAttr f =>
      o ← objs h !! a;
      Some (Ok {| objs := <[a := set_style (f (style o)) o]> (objs h);
                  lists := lists h |})
  | AssignPoints pts =>
      o ← objs h !! a;
      Some (Ok {| objs := <[a := retarget (length (lists h)) o]> (objs h);
                  lists := lists h ++ [pts] |})
  | SetPointsItem i p =>
      o ← objs h !! a;
      match points_of o with
      | None => Some (Raise AttributeError)
      | Some l =>
          pts ← lists h !! l;
          Some (if decide (i < length pts)%nat
                then Ok {| objs := objs h; lists := <[l := <[i := p]> pts]> (lists h) |}
                else Raise IndexError)
      end
  | AppendPoint p =>
      o ← objs h !! a;
      match points_of o with
      | None => Some (Raise AttributeError)
      | Some l =>
          pts ← lists h !! l;
          Some (Ok {| objs := objs h; lists := <[l := pts ++ [p]]> (lists h) |})
      end
  end.

(** [new = self.copy()] for the object at [a]. *)
Definition heap_copy (h : Heap) (a : loc) : option (result (Heap * loc)) :=
  s ← load h a;
  Some (match copy s with
        | Ok c => Ok (alloc_obj h c)
        | Raise e => Raise e
        end).

(** ** The canvas and the application

    The shapes of the drawing are [app.shapes], bottom first.  Where only
    their values matter a shape is identified by its index in the list;
    where their identity matters, by its address. *)

(** [DrawingCanvas.find_shape_at_point]: the loop over
    [reversed(self.app.shapes)], on the shapes paired with their indices. *)
Fixpoint find_first_hit (indexed : list (nat * Shape)) (x y : R)
  : result (option nat) :=
  match indexed with
  | [] => Ok None
  | (i, shape) :: rest =>
      contains_point shape x y ≫= fun hit : bool =>
      if hit then Ok (Some i) else find_first_hit rest x y
  end.

Definition find_shape_at_point (shapes : list Shape) (x y : R)
  : result (option nat) :=
  find_first_hit (rev (combine (seq 0 (length shapes)) shapes)) x y.

(** The four assignments of the current drawing properties made by
    [on_release] and [on_right_click] on a new shape. *)
Definition apply_drawing_properties (app_style : Style) (shape : Shape) : Shape :=
  set_style (copy_style4 app_style (style shape)) shape.

(** [DrawingCanvas.on_release], for a drag from [(x1, y1)] to [(x2, y2)]:
    the shape appended to [app.shapes], if any. *)
Definition on_release (current_tool : tool) (app_style : Style) (x1 y1 x2 y2 : R)
  : result (option Shape) :=
  shape ← create_shape current_tool x1 y1 x2 y2;
  Ok (option_map (apply_drawing_properties app_style) shape).

(** [DrawingCanvas.on_right_click]: the new [polygon_points] and
    [app.shapes]. *)
Definition on_right_click (current_tool : tool) (app_style : Style)
    (polygon_points : list point) (shapes : list Shape)
  : list point * list Shape :=
  match current_tool with
  | polygon =>
      if (3 <=? length polygon_points)%nat
      then ([], shapes ++ [apply_drawing_properties app_style
                             (Polygon.__init__ polygon_points)])
      else (polygon_points, shapes)
  | _ => (polygon_points, shapes)
  end.

(** The two dialogs of [DrawingCanvas.handle_transform_click]. *)
Inductive transform_mode : Type := mode_scale | mode_rotate.

(** The values [simpledialog.askfloat] lets through: [minvalue] and
    [maxvalue] of each dialog. *)
Definition dialog_accepts (mode : transform_mode) (value : R) : Prop :=
  match mode with
  | mode_rotate => -360 <= value <= 360
  | mode_scale => 0.1 <= value <= 5.0
  end.

(** [handle_transform_click] on the selected shape, with the answer of the
    dialog ([None]: cancelled): the pivot is the center of the bounds. *)
Definition handle_transform_click (mode : transform_mode) (answer : option R)
    (selected_shape : Shape) : result Shape :=
  match answer with
  | None => Ok selected_shape
  | Some value =>
      '(b0, b1, b2, b3) ← get_bounds selected_shape;
      let center_x := (b0 + b2) / 2 in
      let center_y := (b1 + b3) / 2 in
      match mode with
      | mode_rotate =>
          rotate selected_shape (math_radians value) (Some center_x) (Some center_y)
      | mode_scale =>
          scale selected_shape value (Some center_x) (Some center_y)
      end
  end.

(** [PaintApp.shear_transform], once both dialogs are answered. *)
Definition shear_transform (selected_shape : Shape) (shear_x shear_y : R)
  : result Shape :=
  if hasattr_shear selected_shape then shear selected_shape shear_x shear_y
  else Ok selected_shape.

(** [PaintApp.duplicate_selected]: the value of the appended shape. *)
Definition duplicate_value (selected_shape : Shape) : result Shape :=
  new_shape ← copy selected_shape;
  new_shape ← translate new_shape 20 20;
  Ok (set_style (with_selected false (style new_shape)) new_shape).

(** [shape.selected = b]. *)
Definition set_selected (b : bool) (shape : Shape) : Shape :=
  set_style (with_selected b (style shape)) shape.

(** [DrawingCanvas.handle_drawing_click] with the pointer tool: the new
    values of [app.shapes] and the index of [app.selected_shape].  The
    drawing is a list of values addressed by index: it stands for a list
    that holds every object once, as the application builds it ([on_release],
    [on_right_click] and [duplicate_selected] append fresh objects only). *)
Definition handle_pointer_click (shapes : list Shape) (x y : R)
  : result (list Shape * option nat) :=
  clicked_shape ← find_shape_at_point shapes x y;
  let deselected := map (set_selected false) shapes in
  match clicked_shape with
  | Some i => Ok (alter (set_selected true) i deselected, Some i)
  | None => Ok (deselected, None)
  end.

(** What the user interface can do to one shape. *)
Inductive ui_op : Type :=
| UMove (dx dy : R)
| UDialog (mode : transform_mode) (answer : option R)
| UShear (shear_x shear_y : R)
| USelect (b : bool)
| UDuplicate.

Definition ui_accepts (o : ui_op) : Prop :=
  match o with
  | UDialog mode (Some value) => dialog_accepts mode value
  | _ => True
  end.

Definition ui_apply (o : ui_op) (s : Shape) : result Shape :=
  match o with
  | UMove dx dy => translate s dx dy
  | UDialog mode answer => handle_transform_click mode answer s
  | UShear shear_x shear_y => shear_transform s shear_x shear_y
  | USelect b => Ok (set_style (with_selected b (style s)) s)
  | UDuplicate => duplicate_value s
  end.

(** The shapes the user interface can produce: created by a drag or by
    closing a polygon, then changed by accepted operations. *)
Inductive ui_reachable : Shape -> Prop :=
| ui_drag current_tool app_style x1 y1 x2 y2 s :
    on_release current_tool app_style x1 y1 x2 y2 = Ok (Some s) -> ui_reachable s
| ui_polygon app_style polygon_points shapes shapes' s :
    on_right_click polygon app_style polygon_points shapes = ([], shapes') ->
    last shapes' = Some s -> polygon_points <> [] -> ui_reachable s
| ui_step s o s' :
    ui_reachable s -> ui_accepts o -> ui_apply o s = Ok s' -> ui_reachable s'.

(** What the user interface keeps true of every shape. *)
Definition ui_invariant (s : Shape) : Prop :=
  match s with
  | Line _ _ _ _ _ => True
  | Circle _ _ _ r => 0 <= r
  | Rectangle _ x1 y1 x2 y2 => x1 <= x2 /\ y1 <= y2
  | Ellipse _ _ _ w h => 0 <= w /\ 0 <= h
  | Triangle _ pts => length pts = 3%nat
  | Pentagon _ _ _ r pts => 0 <= r /\ length pts = 5%nat
  | Hexagon _ _ _ r pts => 0 <= r /\ length pts = 6%nat
  | Polygon _ pts => (3 <= length pts)%nat
  end.

(** [app.shapes] and [app.selected_shape], by address. *)
Record App : Type := mkApp {
  shapes : list loc;
  selected_shape : option loc
}.

(** [x in xs] and [xs.remove(x)] on a list of objects, compared by
    identity. *)
Definition py_in (x : loc) (xs : list loc) : bool := existsb (Nat.eqb x) xs.

Fixpoint py_remove (x : loc) (xs : list loc) : result (list loc) :=
  match xs with
  | [] => Raise ValueError
  | y :: rest =>
      if Nat.eqb y x then Ok rest
      else rest' ← py_remove x rest; Ok (y :: rest')
  end.

(** [PaintApp.bring_to_front]. *)
Definition bring_to_front (app : App) : result App :=
  match selected_shape app with
  | None => Ok app
  | Some x =>
      if py_in x (shapes app) then
        rest ← py_remove x (shapes app);
        Ok {| shapes := rest ++ [x]; selected_shape := Some x |}
      else Ok app
  end.

(** [PaintApp.send_to_back]. *)
Definition send_to_back (app : App) : result App :=
  match selected_shape app with
  | None => Ok app
  | Some x =>
      if py_in x (shapes app) then
        rest ← py_remove x (shapes app);
        Ok {| shapes := x :: rest; selected_shape := Some x |}
      else Ok app
  end.

(** [PaintApp.delete_selected]. *)
Definition delete_selected (app : App) : result App :=
  match selected_shape app with
  | None => Ok app
  | Some x =>
      if py_in x (shapes app) then
        rest ← py_remove x (shapes app);
        Ok {| shapes := rest; selected_shape := None |}
      else Ok app
  end.

(** [PaintApp.duplicate_selected] on the heap: copy, translate the copy,
    clear its flag, append it. *)
Definition duplicate_selected (h : Heap) (app : App) : option (result (Heap * App)) :=
  match selected_shape app with
  | None => Some (Ok (h, app))
  | Some a =>
      r1 ← heap_copy h a;
      match r1 with
      | Raise e => Some (Raise e)
      | Ok (h1, new_shape) =>
          r2 ← mutate (Call (OTranslate 20 20)) h1 new_shape;
          match r2 with
          | Raise e => Some (Raise e)
          | Ok h2 =>
              r3 ← mutate (SetAttr (with_selected false)) h2 new_shape;
              match r3 with
              | Raise e => Some (Raise e)
              | Ok h3 =>
                  Some (Ok (h3, {| shapes := shapes app ++ [new_shape];
                                   selected_shape := selected_shape app |}))
              end
          end
      end
  end.

(** ** Vocabulary of the statements *)

Definition circle_radius {P : Type} (s : ShapeOf P) : option R :=
  match s with
  | Circle _ _ _ r => Some r
  | _ => None
  end.

(** A sequence of transform calls, stopping at the first that raises. *)
Fixpoint apply_ops (os : list op) (self : Shape) : result Shape :=
  match os with
  | [] => Ok self
  | o :: os' => s' ← apply_op o self; apply_ops os' s'
  end.

(** The scale factor of a call is not negative. *)
Definition factor_nonneg (o : op) : Prop :=
  match o with
  | OScale factor _ _ => 0 <= factor
  | _ => True
  end.

(** Squared Euclidean distance. *)
Definition dist2 (p q : point) : R :=
  (fst p - fst q) ^ 2 + (snd p - snd q) ^ 2.

(** The triangle as the documentation describes it: centred on the drag
    start [(x1, y1)], of size half the drag distance. *)
Definition documented_triangle_points (x1 y1 x2 y2 : R) : list point :=
  let size := sqrt ((x2 - x1) ^ 2 + (y2 - y1) ^ 2) / 2 in
  [ (x1, y1 - size);
    (x1 - size * 0.866, y1 + size * 0.5);
    (x1 + size * 0.866, y1 + size * 0.5) ].

(** The triangle the constructor builds: centred on the midpoint. *)
Definition midpoint_triangle_points (x1 y1 x2 y2 : R) : list point :=
  let center_x := (x1 + x2) / 2 in
  let center_y := (y1 + y2) / 2 in
  let size := sqrt ((x2 - x1) ^ 2 + (y2 - y1) ^ 2) / 2 in
  [ (center_x, center_y - size);
    (center_x - size * 0.866, center_y + size * 0.5);
    (center_x + size * 0.866, center_y + size * 0.5) ].

(** The corners of a [Rectangle] are in the order the constructor puts
    them in. *)
Definition normalized (s : Shape) : Prop :=
  match s with
  | Rectangle _ x1 y1 x2 y2 => x1 <= x2 /\ y1 <= y2
  | _ => True
  end.

(** The class and the geometric attributes of a shape: everything but its
    style. *)
Definition geometry {P : Type} (s : ShapeOf P) : ShapeOf P :=
  set_style Shape__init__ s.

(** The number of points each class keeps in [points]. *)
Definition points_invariant (s : Shape) : Prop :=
  match s with
  | Triangle _ pts => length pts = 3%nat
  | Pentagon _ _ _ _ pts => length pts = 5%nat
  | Hexagon _ _ _ _ pts => length pts = 6%nat
  | _ => True
  end.

Definition is_shear (o : op) : bool :=
  match o with OShear _ _ => true | _ => false end.

(** [rotate] maps every defining point [p] of [s] to
    [pivot + R(angle)(p - pivot)], where [pivot] is the one passed or the
    default one. *)
Definition rotates_every_point (s : Shape) (angle : R)
    (center_x center_y : option R) : Prop :=
  forall (pivot : point) (pts : list point),
    pivot_of s center_x center_y = Ok pivot ->
    points_of s = Some pts ->
    exists s', rotate s angle center_x center_y = Ok s' /\
               points_of s' = Some (map (rotation angle pivot) pts).

(** The classes whose [shear] keeps the class of the object. *)
Definition shear_keeps_class {P : Type} (s : ShapeOf P) : bool :=
  match s with
  | Circle _ _ _ _ | Rectangle _ _ _ _ _ | Ellipse _ _ _ _ _ => false
  | _ => true
  end.

(** [p] lies in the closed box [(min_x, min_y, max_x, max_y)]. *)
Definition in_box (b : R * R * R * R) (p : point) : Prop :=
  let '(min_x, min_y, max_x, max_y) := b in
  min_x <= fst p <= max_x /\ min_y <= snd p <= max_y.

(** The box [b] grown by [margin] on every side. *)
Definition grow (margin : R) (b : R * R * R * R) : R * R * R * R :=
  let '(min_x, min_y, max_x, max_y) := b in
  (min_x - margin, min_y - margin, max_x + margin, max_y + margin).

(** [p] lies strictly inside the box [b]. *)
Definition strictly_inside (b : R * R * R * R) (p : point) : Prop :=
  let '(min_x, min_y, max_x, max_y) := b in
  min_x < fst p < max_x /\ min_y < snd p < max_y.

(** The edge of a closed point list that starts at index [i]. *)
Definition edge (points : list point) (i : nat) : option (point * point) :=
  p ← points !! i;
  q ← points !! ((i + 1) mod length points)%nat;
  Some (p, q).

Definition shift_box (dx dy : R) (b : R * R * R * R) : R * R * R * R :=
  let '(min_x, min_y, max_x, max_y) := b in
  (min_x + dx, min_y + dy, max_x + dx, max_y + dy).

(** The line [Polygon.draw] draws for the edge that starts at index [i]. *)
Definition edge_line (st : Style) (points : list point) (i : nat) (c : command)
  : Prop :=
  exists p q, edge points i = Some (p, q) /\
    c = create_line (fst p) (snd p) (fst q) (snd q) (outline_of st) (line_width st) None.

(** No shape above index [i] of [shapes] is hit at [(x, y)]. *)
Definition none_hit_above (shapes : list Shape) (i : nat) (x y : R) : Prop :=
  forall j s, (i < j)%nat -> shapes !! j = Some s -> contains_point s x y = Ok false.

(** The classes drawn from a center and a radius or two diameters. *)
Definition is_round {P : Type} (s : ShapeOf P) : bool :=
  match s with
  | Circle _ _ _ _ | Ellipse _ _ _ _ _ | Pentagon _ _ _ _ _ | Hexagon _ _ _ _ _ => true
  | _ => false
  end.

(** ** The hit tests of [Line], [Ellipse] and [Polygon] over binary64

    The same three methods as above, on IEEE 754 binary64 numbers (the
    floats of Python), with the exceptions of the float operations.  The
    attributes and the query point are floats; the literals [0], [2] and
    [5] the code compares with and divides by are the floats of the same
    value. *)

Module Binary64.
Local Open Scope float_scope.

Definition point : Type := float * float.

(** [a / b]: [ZeroDivisionError] when [b] is [0.0] or [-0.0]. *)
Definition py_div (a b : float) : result float :=
  if b =? 0 then Raise ZeroDivisionError else Ok (a / b).

(** The square of the finite number [a] is out of range. *)
Definition square_overflows (a : float) : bool :=
  is_finite a && is_infinity (a * a).

(** [a ** 2]: the rounded square of [a] ([pow] of the C library, taken to
    round the exact square correctly); [OverflowError] when the square of
    a finite number is out of range.  An underflow gives [0.0], an
    infinite [a] gives [inf], NaN gives NaN. *)
Definition py_pow2 (a : float) : result float :=
  if square_overflows a then Raise OverflowError else Ok (a * a).

(** [math.sqrt]: [ValueError] below zero; NaN for NaN, [inf] for [inf]. *)
Definition math_sqrt (a : float) : result float :=
  if a <? 0 then Raise ValueError else Ok (PrimFloat.sqrt a).

(** [min(a, b)] and [max(a, b)]: the second argument replaces the first
    when it is smaller, or greater. *)
Definition py_min2 (a b : float) : float := if b <? a then b else a.
Definition py_max2 (a b : float) : float := if a <? b then b else a.

Module Line.

Definition contains_point (x1 y1 x2 y2 : float) (x y : float) : result bool :=
  let A := y2 - y1 in
  let B := x1 - x2 in
  let C := x2 * y1 - x1 * y2 in
  denominator ← math_sqrt (A * A + B * B);
  if denominator =? 0 then
    dx2 ← py_pow2 (x - x1);
    dy2 ← py_pow2 (y - y1);
    distance_to_point ← math_sqrt (dx2 + dy2);
    Ok (distance_to_point <? 5)
  else
    distance ← py_div (PrimFloat.abs (A * x + B * y + C)) denominator;
    let min_x := py_min2 x1 x2 in
    let max_x := py_max2 x1 x2 in
    let min_y := py_min2 y1 y2 in
    let max_y := py_max2 y1 y2 in
    Ok ((distance <? 5) && ((min_x - 5 <=? x) && (x <=? max_x + 5))
        && ((min_y - 5 <=? y) && (y <=? max_y + 5))).

End Line.

Module Ellipse.

Definition contains_point (cx cy width height : float) (x y : float)
  : result bool :=
  if (width <=? 0) || (height <=? 0) then Ok false
  else
    hw ← py_div width 2;
    dx ← py_div (x - cx) hw;
    hh ← py_div height 2;
    dy ← py_div (y - cy) hh;
    Ok (dx * dx + dy * dy <=? 1).

End Ellipse.

Module Polygon.

(** The loop of [contains_point], over [indices]. *)
Fixpoint contains_point_loop (points : list point) (x y : float)
    (indices : list nat) : result bool :=
  match indices with
  | [] => Ok false
  | i :: rest =>
      '(x1, y1) ← py_getitem points i;
      '(x2, y2) ← py_getitem points ((i + 1) mod length points);
      if (x1 =? x2) && (y1 =? y2) then contains_point_loop points x y rest
      else
        let A := y2 - y1 in
        let B := x1 - x2 in
        let C := x2 * y1 - x1 * y2 in
        if (A =? 0) && (B =? 0) then contains_point_loop points x y rest
        else
          d ← math_sqrt (A * A + B * B);
          distance ← py_div (PrimFloat.abs (A * x + B * y + C)) d;
          if distance <? 5 then Ok true
          else contains_point_loop points x y rest
  end.

Definition contains_point (points : list point) (x y : float) : result bool :=
  contains_point_loop points x y (seq 0 (length points)).

End Polygon.

(** *** Vocabulary of the statements *)

(** The edge of a closed point list that starts at index [i]. *)
Definition edge (points : list point) (i : nat) : option (point * point) :=
  p ← points !! i;
  q ← points !! ((i + 1) mod length points)%nat;
  Some (p, q).

(** One of the two guards of the loop passes over the edge from [p] to
    [q]. *)
Definition skipped (p q : point) : bool :=
  ((fst p =? fst q) && (snd p =? snd q))
  || ((snd q - snd p =? 0) && (fst p - fst q =? 0)).

(** The divisor of the distance, and the distance from [(x, y)] to the
    line through [p] and [q], as the floats give them. *)
Definition norm (p q : point) : float :=
  let A := snd q - snd p in
  let B := fst p - fst q in
  PrimFloat.sqrt (A * A + B * B).

Definition line_distance (p q : point) (x y : float) : float :=
  let A := snd q - snd p in
  let B := fst p - fst q in
  let C := fst q * snd p - fst p * snd q in
  PrimFloat.abs (A * x + B * y + C) / norm p q.

(** The edge passes the guards and its divisor is zero all the same. *)
Definition divides_by_zero (p q : point) : bool :=
  negb (skipped p q) && (norm p q =? 0).

(** The edge passes the guards, its divisor is not zero and [(x, y)] is
    less than 5 away from its line. *)
Definition near (p q : point) (x y : float) : bool :=
  negb (skipped p q) && negb (norm p q =? 0) && (line_distance p q x y <? 5).

(** The loop ends at this edge. *)
Definition decisive (p q : point) (x y : float) : bool :=
  divides_by_zero p q || near p q x y.

(** A float that is not below zero: its sign bit is clear, or it is a zero
    or NaN. *)
Definition not_negative (f : spec_float) : Prop :=
  match f with
  | S754_infinity true | S754_finite true _ _ => False
  | _ => True
  end.

End Binary64.

(** * Properties *)

(** ** Numbers *)

(** One step of the [result] monad, leaving the arithmetic untouched. *)
Ltac run := cbv [mbind result_bind mret result_ret]; cbv beta iota zeta.

Lemma py_div_Ok (x y : R) : y <> 0 -> py_div x y = Ok (x / y).
Proof. intros Hy. unfold py_div. destruct (Req_dec_T y 0); [contradiction | reflexivity]. Qed.

Lemma py_div_zero (x : R) : py_div x 0 = Raise ZeroDivisionError.
Proof. unfold py_div. destruct (Req_dec_T 0 0); [reflexivity | contradiction]. Qed.

Lemma math_sqrt_Ok (x : R) : 0 <= x -> math_sqrt x = Ok (sqrt x).
Proof. intros Hx. unfold math_sqrt. destruct (Rlt_dec x 0); [lra | reflexivity]. Qed.

Lemma sum_squares_nonneg (a b : R) : 0 <= a ^ 2 + b ^ 2.
Proof. nra. Qed.

Lemma sum_products_nonneg (a b : R) : 0 <= a * a + b * b.
Proof. nra. Qed.

Lemma math_sqrt_dist (a b : R) : math_sqrt (a ^ 2 + b ^ 2) = Ok (sqrt (a ^ 2 + b ^ 2)).
Proof. apply math_sqrt_Ok, sum_squares_nonneg. Qed.

Lemma Rleb_true (x y : R) : x <= y -> Rleb x y = true.
Proof. intros H. unfold Rleb. destruct (Rle_dec x y); [reflexivity | contradiction]. Qed.

Lemma Rleb_false (x y : R) : y < x -> Rleb x y = false.
Proof. intros H. unfold Rleb. destruct (Rle_dec x y); [lra | reflexivity]. Qed.

Lemma Rmin_left (x y : R) : x <= y -> Rmin x y = x.
Proof. intros H. unfold Rmin. destruct (Rle_dec x y); [reflexivity | contradiction]. Qed.

Lemma Rmin_right (x y : R) : y <= x -> Rmin x y = y.
Proof. intros H. unfold Rmin. destruct (Rle_dec x y); [lra | reflexivity]. Qed.

Lemma Rmax_left (x y : R) : y <= x -> Rmax x y = x.
Proof. intros H. unfold Rmax. destruct (Rle_dec x y); [lra | reflexivity]. Qed.

Lemma Rmax_right (x y : R) : x <= y -> Rmax x y = y.
Proof. intros H. unfold Rmax. destruct (Rle_dec x y); [reflexivity | contradiction]. Qed.

(** ** C10: the empty polygon *)

(** C10.  On a [Polygon] with no points, [scale] and [rotate] raise
    [ZeroDivisionError] when the pivot is omitted (either coordinate is
    [None]) and return normally, leaving the empty polygon, when both
    coordinates are passed.  Such a polygon is a reachable state, with any
    style: [Polygon.__init__] builds it from the empty list. *)
Theorem C10_empty_polygon_default_pivot_raises :
  forall (st : Style) (factor angle : R) (center_x center_y : option R),
    reachable (Polygon st []) /\
    scale (Polygon st []) factor center_x center_y =
      (if pivot_given center_x center_y then Ok (Polygon st [])
       else Raise ZeroDivisionError) /\
    rotate (Polygon st []) angle center_x center_y =
      (if pivot_given center_x center_y then Ok (Polygon st [])
       else Raise ZeroDivisionError).
Proof.
  intros st factor angle center_x center_y.
  split.
  { apply (reach_style (Polygon.__init__ []) st), reach_new, new_Polygon. }
  assert (Hc : centroid [] = Raise ZeroDivisionError).
  { unfold centroid, py_len. simpl. rewrite py_div_zero. reflexivity. }
  unfold scale, rotate, Polygon.scale, Polygon.rotate, pivot_or, pivot_given.
  destruct center_x as [cx |], center_y as [cy |]; simpl; rewrite ?Hc; auto.
Qed.

(** ** C8: hit-testing of degenerate geometry *)

Section Binary64_arithmetic.
Local Open Scope float_scope.

(** Rounding keeps a clear sign bit. *)
Lemma binary_round_aux_not_negative (m e : Z) (l : location) :
  Binary64.not_negative (binary_round_aux prec emax false m e l).
Proof.
  unfold binary_round_aux.
  destruct (shr_fexp prec emax m e l) as [mrs' e'].
  destruct (shr_fexp prec emax _ e' loc_Exact) as [mrs'' e''].
  destruct (shr_m mrs''); [exact I | | exact I].
  destruct (Z.leb e'' _); exact I.
Qed.

Lemma binary_round_not_negative (m : positive) (e : Z) :
  Binary64.not_negative (binary_round prec emax false m e).
Proof.
  unfold binary_round. destruct (shl_align _ _ _) as [mz ez].
  apply binary_round_aux_not_negative.
Qed.

Lemma SFmul_square_not_negative (p : spec_float) :
  Binary64.not_negative (SF64mul p p).
Proof.
  destruct p as [s | s | | s m e]; cbn; try exact I.
  - destruct s; exact I.
  - destruct s; cbn; apply binary_round_aux_not_negative.
Qed.

Lemma SFadd_not_negative (p q : spec_float) :
  Binary64.not_negative p -> Binary64.not_negative q ->
  Binary64.not_negative (SF64add p q).
Proof.
  destruct p as [s | s | | s m e], q as [s' | s' | | s' m' e'];
    try destruct s; try destruct s'; cbn [Binary64.not_negative]; intros Hp Hq;
    try contradiction; try exact I.
  unfold SF64add, SFadd. cbn [cond_Zopp]. cbv zeta.
  cbn [Z.add]. unfold binary_normalize. apply binary_round_not_negative.
Qed.

Lemma not_negative_ltb (f : spec_float) :
  Binary64.not_negative f -> SFltb f (S754_zero false) = false.
Proof. destruct f as [s | s | | s m e]; try destruct s; cbn; tauto. Qed.

(** A rounded sum of two rounded squares is never below zero: it is
    positive, a zero, [inf] or NaN. *)
Lemma sum_squares_not_negative (a b : float) : (a * a + b * b <? 0) = false.
Proof.
  rewrite ltb_spec, add_spec, !mul_spec.
  apply not_negative_ltb, SFadd_not_negative; apply SFmul_square_not_negative.
Qed.

Lemma is_finite_spec (a : float) :
  is_finite a = true ->
  match Prim2SF a with
  | S754_zero _ | S754_finite _ _ _ => True
  | _ => False
  end.
Proof.
  unfold is_finite, is_nan, is_infinity.
  rewrite !FloatAxioms.eqb_spec, abs_spec.
  destruct (Prim2SF a) as [s | s | | s m e]; cbn; try exact (fun _ => I).
  - destruct s; vm_compute; discriminate.
  - discriminate.
Qed.

(** A finite float minus itself is [0.0]. *)
Lemma sub_diag_finite (a : float) : is_finite a = true -> a - a = 0.
Proof.
  intros H. apply is_finite_spec in H.
  rewrite <- (SF2Prim_Prim2SF (a - a)), sub_spec.
  destruct (Prim2SF a) as [s | s | | s m e]; try contradiction.
  - destruct s; reflexivity.
  - unfold SF64sub, SFsub. cbv zeta. rewrite Z.sub_diag. reflexivity.
Qed.

(** [math.sqrt] of a sum of two squares does not raise. *)
Lemma math_sqrt_sum_squares (a b : float) :
  Binary64.math_sqrt (a * a + b * b) = Ok (PrimFloat.sqrt (a * a + b * b)).
Proof.
  unfold Binary64.math_sqrt. rewrite sum_squares_not_negative. reflexivity.
Qed.

(** C8, as documented, fails: the hit test of the zero-length line at the
    origin raises [OverflowError] at the query point (2^600, 0), about
    4e180, because [(x - self.x1)**2] is out of range. *)
Lemma C8_far_query_point_counterexample :
  Binary64.Line.contains_point 0 0 0 0 0x1p+600 0 = Raise OverflowError.
Proof. reflexivity. Qed.

(** C8, amended.  On degenerate geometry [contains_point] never divides by
    zero.  For a [Line] whose endpoints coincide, at finite coordinates, it
    falls back to the distance from the query point to the endpoint: it
    raises [OverflowError] when the square of a coordinate difference is
    out of range, and otherwise returns whether the float distance is less
    than 5.  For an [Ellipse] whose width or height is [<= 0] it returns
    [False], for every query point. *)
Theorem C8_degenerate_hit_tests_binary64 :
  forall (x1 y1 cx cy width height x y : float),
    is_finite x1 = true -> is_finite y1 = true ->
    (width <=? 0) || (height <=? 0) = true ->
    Binary64.Line.contains_point x1 y1 x1 y1 x y =
      (if Binary64.square_overflows (x - x1) || Binary64.square_overflows (y - y1)
       then Raise OverflowError
       else Ok (PrimFloat.sqrt ((x - x1) * (x - x1) + (y - y1) * (y - y1)) <? 5)) /\
    Binary64.Ellipse.contains_point cx cy width height x y = Ok false.
Proof.
  intros x1 y1 cx cy width height x y Hx Hy Hd. split.
  - unfold Binary64.Line.contains_point. cbv zeta.
    rewrite (sub_diag_finite x1 Hx), (sub_diag_finite y1 Hy).
    change (Binary64.math_sqrt (0 * 0 + 0 * 0)) with (@Ok float 0). run.
    change (0 =? 0) with true. cbv iota.
    unfold Binary64.py_pow2.
    destruct (Binary64.square_overflows (x - x1)); [reflexivity |].
    destruct (Binary64.square_overflows (y - y1)); [reflexivity |].
    run. rewrite math_sqrt_sum_squares. reflexivity.
  - unfold Binary64.Ellipse.contains_point. rewrite Hd. reflexivity.
Qed.

Lemma C8_degenerate_hit_tests_binary64_witness :
  Binary64.Line.contains_point 0 0 0 0 3 0 = Ok true /\
  Binary64.Ellipse.contains_point 1 2 0 7 1 2 = Ok false.
Proof.
  exact (C8_degenerate_hit_tests_binary64 0 0 1 2 0 7 3 0 eq_refl eq_refl eq_refl).
Defined.

(** The guard of [Ellipse.contains_point] is on the width, the division is
    by half of it: the smallest positive float passes the guard and its
    half is [0.0]. *)
Remark Ellipse_tiny_width_raises :
  Binary64.Ellipse.contains_point 0 0 0x1p-1074 1 0 0 = Raise ZeroDivisionError.
Proof. reflexivity. Qed.

End Binary64_arithmetic.

(** ** C7: shearing a circle *)

Lemma INR_num_points : INR num_points = 36.
Proof. unfold num_points. rewrite INR_IZR_INZ. reflexivity. Qed.

Lemma apply_op_Polygon (o : op) (st : Style) (pts : list point) (s' : Shape) :
  apply_op o (Polygon st pts) = Ok s' -> exists pts', s' = Polygon st pts'.
Proof.
  destruct o as [dx dy | f cx cy | a cx cy | sx sy]; simpl.
  - intros [= <-]. eexists; reflexivity.
  - unfold Polygon.scale. destruct (pivot_or cx cy (centroid pts)) as [[px py] | e]; simpl.
    + intros [= <-]. eexists; reflexivity.
    + discriminate.
  - unfold Polygon.rotate. destruct (pivot_or cx cy (centroid pts)) as [[px py] | e]; simpl.
    + intros [= <-]. eexists; reflexivity.
    + discriminate.
  - intros [= <-]. eexists; reflexivity.
Qed.

Lemma apply_ops_Polygon (os : list op) (st : Style) (pts : list point) :
  match apply_ops os (Polygon st pts) with
  | Ok s' => class_of s' = CPolygon
  | Raise _ => True
  end.
Proof.
  revert pts. induction os as [| o os IH]; intros pts; simpl; [reflexivity |].
  destruct (apply_op o (Polygon st pts)) as [s' | e] eqn:Ho; simpl; [| exact I].
  apply apply_op_Polygon in Ho as [pts' ->]. apply IH.
Qed.

(** C7.  [shear] on a [Circle] returns a [Polygon] with the circle's style
    whose points are the 36 boundary points at angles [2*pi*i/36], each
    sheared by [x' = x + shear_x*y], [y' = y + shear_y*x]; the object stays a
    [Polygon] under every later sequence of transforms, and the test
    [hasattr(shape, 'shear')] made before shearing answers [True] on it. *)
Theorem C7_circle_shear_tessellates :
  forall (st : Style) (cx cy r shear_x shear_y : R),
  exists pts : list point,
    shear (Circle st cx cy r) shear_x shear_y = Ok (Polygon st pts) /\
    length pts = 36%nat /\
    pts = map (fun i : nat =>
                 shear_point shear_x shear_y
                   (cx + r * cos (2 * PI * INR i / 36),
                    cy + r * sin (2 * PI * INR i / 36)))
              (seq 0 36) /\
    class_of (Polygon st pts) = CPolygon /\
    hasattr_shear (Polygon st pts) = true /\
    (forall os : list op,
        match apply_ops os (Polygon st pts) with
        | Ok s' => class_of s' = CPolygon /\ hasattr_shear s' = true
        | Raise _ => True
        end).
Proof.
  intros st cx cy r shear_x shear_y.
  exists (tessellate_shear cx cy r r shear_x shear_y).
  split; [reflexivity |].
  split; [unfold tessellate_shear; rewrite length_map, length_seq; reflexivity |].
  split.
  { unfold tessellate_shear. rewrite INR_num_points. reflexivity. }
  split; [reflexivity |].
  split; [reflexivity |].
  intros os. pose proof (apply_ops_Polygon os st (tessellate_shear cx cy r r shear_x shear_y)) as H.
  destruct (apply_ops os _) as [s' | e]; [| exact I].
  split; [exact H |]. unfold hasattr_shear. rewrite H. reflexivity.
Qed.

(** ** C9: the radius of a circle *)

(** C9, as documented, fails: scaling the unit circle by -1 leaves it with
    radius -1. *)
Lemma C9_negative_factor_counterexample :
  exists s' r',
    0 <= 1 /\
    apply_op (OScale (-1) None None) (Circle.__init__ 0 0 1) = Ok s' /\
    circle_radius s' = Some r' /\ ~ 0 <= r'.
Proof.
  exists (Circle Shape__init__ 0 0 (1 * (-1))), (1 * (-1)).
  repeat split; try reflexivity; lra.
Qed.

(** C9, amended.  On a [Circle] of radius [r >= 0], [translate] and [rotate]
    leave the radius [r] and [scale] by [factor] makes it [r * factor]:
    translate, rotate and scale by any factor [>= 0] return a circle of
    radius [>= 0].  ([shear] returns a [Polygon], which has no radius.) *)
Theorem C9_radius_nonneg_for_nonneg_factor :
  forall (st : Style) (cx cy r : R) (o : op),
    0 <= r -> factor_nonneg o ->
    exists s', apply_op o (Circle st cx cy r) = Ok s' /\
      match o with
      | OTranslate _ _ | ORotate _ _ _ =>
          circle_radius s' = Some r
      | OScale factor _ _ =>
          circle_radius s' = Some (r * factor) /\ 0 <= r * factor
      | OShear _ _ => class_of s' = CPolygon
      end.
Proof.
  intros st cx cy r o Hr Hf.
  destruct o as [dx dy | f px py | a px py | sx sy]; simpl in *.
  - eexists; split; reflexivity.
  - unfold Circle.scale. destruct px, py; eexists; (split; [reflexivity |]); simpl;
      (split; [reflexivity | nra]).
  - unfold Circle.rotate. destruct px, py; eexists; split; reflexivity.
  - eexists; split; reflexivity.
Qed.

Lemma C9_radius_nonneg_for_nonneg_factor_witness :
  exists s', apply_op (OScale 2 (Some 1) (Some 1)) (Circle Shape__init__ 0 0 3) = Ok s' /\
             (circle_radius s' = Some (3 * 2) /\ 0 <= 3 * 2).
Proof.
  apply (C9_radius_nonneg_for_nonneg_factor Shape__init__ 0 0 3 (OScale 2 (Some 1) (Some 1))).
  - lra.
  - simpl. lra.
Defined.

(** ** C5: the triangle factory *)

Lemma Triangle_init_Ok (x1 y1 x2 y2 : R) :
  Triangle.__init__ x1 y1 x2 y2 =
  Ok (Triangle Shape__init__ (midpoint_triangle_points x1 y1 x2 y2)).
Proof. unfold Triangle.__init__. rewrite math_sqrt_dist. reflexivity. Qed.

(** C5, as documented, fails: for the drag from (0,0) to (2,0) the triangle
    is not the one centred on the drag start (0,0). *)
Lemma C5_drag_start_center_counterexample :
  create_shape triangle 0 0 2 0 <>
  Ok (Some (Triangle Shape__init__ (documented_triangle_points 0 0 2 0))).
Proof.
  unfold create_shape. rewrite Triangle_init_Ok. run.
  unfold midpoint_triangle_points, documented_triangle_points.
  intros H. injection H as H _. lra.
Qed.

(** C5, amended.  For every pair of drag points the factory builds a
    triangle whose center is the midpoint of the two drag points and whose
    size is half their Euclidean distance: the top vertex is directly above
    the center at [(cx, cy - size)], the other two are at the offsets
    [(-size*0.866, size*0.5)] and [(size*0.866, size*0.5)] from it.  The
    two slanted sides have equal length (squared: [2.999956 * size^2]); the
    base has squared length [2.999824 * size^2], so the triangle is isosceles
    and equilateral up to the rounding of [sqrt 3 / 2] to 0.866. *)
Theorem C5_triangle_factory_midpoint :
  forall x1 y1 x2 y2 : R,
    let cx := (x1 + x2) / 2 in
    let cy := (y1 + y2) / 2 in
    let size := sqrt (dist2 (x2, y2) (x1, y1)) / 2 in
    let top := (cx, cy - size) in
    let left := (cx - size * 0.866, cy + size * 0.5) in
    let right := (cx + size * 0.866, cy + size * 0.5) in
    create_shape triangle x1 y1 x2 y2 =
      Ok (Some (Triangle Shape__init__ [top; left; right])) /\
    0 <= size /\
    dist2 top left = 2.999956 * size ^ 2 /\
    dist2 top right = 2.999956 * size ^ 2 /\
    dist2 left right = 2.999824 * size ^ 2.
Proof.
  intros x1 y1 x2 y2 cx cy size top left right.
  split.
  { unfold create_shape. rewrite Triangle_init_Ok. reflexivity. }
  split.
  { unfold size. pose proof (sqrt_pos (dist2 (x2, y2) (x1, y1))). lra. }
  subst top left right. unfold dist2. cbn [fst snd].
  clearbody size cx cy.
  split; [nra | split; nra].
Qed.

(** ** C6: the rectangle scenario *)

Lemma math_radians_90 : math_radians 90 = PI / 2.
Proof. unfold math_radians. field. Qed.

Lemma rotate_point_quarter_turn (cx cy x y : R) :
  rotate_point (cos (PI / 2)) (sin (PI / 2)) cx cy (x, y) =
  (cx - (y - cy), cy + (x - cx)).
Proof.
  unfold rotate_point. rewrite cos_PI2, sin_PI2. f_equal; ring.
Qed.

Lemma Rectangle_scenario_rotated :
  rotate (Rectangle Shape__init__ 15 15 55 55) (math_radians 90) (Some 30) (Some 30) =
  Ok (Rectangle Shape__init__ 5 15 45 55).
Proof.
  unfold rotate, Rectangle.rotate, pivot_or. run.
  rewrite math_radians_90. unfold Rectangle.corners.
  cbn [map]. rewrite !rotate_point_quarter_turn.
  unfold xs_of, ys_of, py_min, py_max. cbn [map fst snd fold_left]. run.
  replace (30 - (15 - 30)) with 45 by lra.
  replace (30 - (55 - 30)) with 5 by lra.
  replace (30 + (15 - 30)) with 15 by lra.
  replace (30 + (55 - 30)) with 55 by lra.
  rewrite (Rmin_left 45 45), (Rmin_right 45 5), (Rmin_left 5 5) by lra.
  rewrite (Rmin_left 15 55), (Rmin_left 15 55), (Rmin_left 15 15) by lra.
  rewrite (Rmax_left 45 45), (Rmax_left 45 5), (Rmax_left 45 5) by lra.
  rewrite (Rmax_right 15 55), (Rmax_left 55 55), (Rmax_left 55 15) by lra.
  reflexivity.
Qed.

Lemma Rectangle_scenario_created :
  Rectangle.__init__ 10 10 50 50 = Rectangle Shape__init__ 10 10 50 50.
Proof.
  unfold Rectangle.__init__.
  rewrite (Rmin_left 10 50), (Rmax_right 10 50) by lra. reflexivity.
Qed.

Lemma Rectangle_scenario_translated :
  translate (Rectangle Shape__init__ 10 10 50 50) 5 5 =
  Ok (Rectangle Shape__init__ 15 15 55 55).
Proof.
  unfold translate, Rectangle.translate.
  replace (10 + 5) with 15 by lra. replace (50 + 5) with 55 by lra. reflexivity.
Qed.

(** C6, as documented, fails: after the translation by (5,5) and the
    quarter turn about (30,30) the bounding box is not (10,10,50,50). *)
Lemma C6_rotated_bounds_counterexample :
  ~ (exists r1 r2,
        translate (Rectangle.__init__ 10 10 50 50) 5 5 = Ok r1 /\
        rotate r1 (math_radians 90) (Some 30) (Some 30) = Ok r2 /\
        get_bounds r2 = Ok (30 - 20, 30 - 20, 30 + 20, 30 + 20)).
Proof.
  intros (r1 & r2 & Ht & Hr & Hb).
  rewrite Rectangle_scenario_created, Rectangle_scenario_translated in Ht.
  injection Ht as <-. rewrite Rectangle_scenario_rotated in Hr.
  injection Hr as <-. simpl in Hb. injection Hb as H _ _ _. lra.
Qed.

(** C6, amended.  Creating a [Rectangle] from (10,10)-(50,50) gives the
    bounding box (10,10,50,50); [translate(5,5)] then gives (15,15,55,55),
    whose center is (35,35); rotating that by 90 degrees about the pivot
    (30,30) gives the bounding box (5,15,45,55), which is the axis-aligned
    bounding box of the four rotated corners (45,15), (45,55), (5,55) and
    (5,15). *)
Theorem C6_rectangle_scenario :
  let r0 := Rectangle.__init__ 10 10 50 50 in
  let r1 := Rectangle Shape__init__ 15 15 55 55 in
  let r2 := Rectangle Shape__init__ 5 15 45 55 in
  let rotated_corners :=
    map (rotation (math_radians 90) (30, 30)) (Rectangle.corners 15 15 55 55) in
  get_bounds r0 = Ok (10, 10, 50, 50) /\
  translate r0 5 5 = Ok r1 /\
  get_bounds r1 = Ok (15, 15, 55, 55) /\
  rotate r1 (math_radians 90) (Some 30) (Some 30) = Ok r2 /\
  get_bounds r2 = Ok (5, 15, 45, 55) /\
  rotated_corners = [(45, 15); (45, 55); (5, 55); (5, 15)] /\
  points_bounds rotated_corners = get_bounds r2.
Proof.
  cbv zeta. rewrite Rectangle_scenario_created.
  split; [reflexivity |].
  split; [apply Rectangle_scenario_translated |].
  split; [reflexivity |].
  split; [apply Rectangle_scenario_rotated |].
  split; [reflexivity |].
  assert (Hc : map (rotation (math_radians 90) (30, 30)) (Rectangle.corners 15 15 55 55)
               = [(45, 15); (45, 55); (5, 55); (5, 15)]).
  { unfold Rectangle.corners, rotation. cbn [map fst snd].
    rewrite math_radians_90, cos_PI2, sin_PI2.
    repeat (f_equal; try lra). }
  split; [exact Hc |].
  rewrite Hc. unfold points_bounds, xs_of, ys_of, py_min, py_max.
  cbn [map fst snd fold_left]. run.
  rewrite (Rmin_left 45 45), (Rmin_right 45 5), (Rmin_left 5 5) by lra.
  rewrite (Rmin_left 15 55), (Rmin_left 15 55), (Rmin_left 15 15) by lra.
  rewrite (Rmax_left 45 45), (Rmax_left 45 5), (Rmax_left 45 5) by lra.
  rewrite (Rmax_right 15 55), (Rmax_left 55 55), (Rmax_left 55 15) by lra.
  reflexivity.
Qed.

(** ** Rotation of a point *)

Create Rewrite HintDb trig.
#[local] Hint Rewrite cos_neg sin_neg cos_0 sin_0 cos_PI sin_PI : trig.

Lemma rotate_point_rotation (angle cx cy : R) (p : point) :
  rotate_point (cos angle) (sin angle) cx cy p = rotation angle (cx, cy) p.
Proof. destruct p as [x y]. reflexivity. Qed.

Lemma map_rotate_point (angle cx cy : R) (pts : list point) :
  map (rotate_point (cos angle) (sin angle) cx cy) pts =
  map (rotation angle (cx, cy)) pts.
Proof. apply map_ext. intros p. apply rotate_point_rotation. Qed.

Lemma rotation_zero (c p : point) : rotation 0 c p = p.
Proof.
  destruct c as [cx cy], p as [x y]. unfold rotation. cbn [fst snd].
  autorewrite with trig. f_equal; ring.
Qed.

Lemma rotation_pivot (angle : R) (c : point) : rotation angle c c = c.
Proof.
  destruct c as [cx cy]. unfold rotation. cbn [fst snd]. f_equal; ring.
Qed.

Lemma rotation_inverse (angle : R) (c p : point) :
  rotation (- angle) c (rotation angle c p) = p.
Proof.
  destruct c as [cx cy], p as [x y]. unfold rotation. cbn [fst snd].
  autorewrite with trig.
  pose proof (sin2_cos2 angle) as H. unfold Rsqr in H.
  set (C := cos angle) in *. set (S := sin angle) in *.
  f_equal.
  - replace (cx + (cx + (x - cx) * C - (y - cy) * S - cx) * C
             - (cy + (x - cx) * S + (y - cy) * C - cy) * - S)
      with (cx + (x - cx) * (S * S + C * C)) by ring.
    rewrite H. ring.
  - replace (cy + (cx + (x - cx) * C - (y - cy) * S - cx) * - S
             + (cy + (x - cx) * S + (y - cy) * C - cy) * C)
      with (cy + (y - cy) * (S * S + C * C)) by ring.
    rewrite H. ring.
Qed.

Lemma map_rotation_zero (c : point) (pts : list point) :
  map (rotation 0 c) pts = pts.
Proof.
  rewrite (map_ext _ (fun p => p) (rotation_zero c)). apply map_id.
Qed.

Lemma map_rotation_inverse (angle : R) (c : point) (pts : list point) :
  map (rotation (- angle) c) (map (rotation angle c) pts) = pts.
Proof.
  rewrite map_map.
  rewrite (map_ext _ (fun p => p) (rotation_inverse angle c)). apply map_id.
Qed.

(** ** Sums and centroids *)

Lemma fold_left_Rplus (xs : list R) (a : R) :
  fold_left Rplus xs a = a + fold_left Rplus xs 0.
Proof.
  revert a. induction xs as [| x xs IH]; intros a; cbn [fold_left].
  - ring.
  - rewrite (IH (a + x)), (IH (0 + x)). ring.
Qed.

Lemma py_sum_cons (x : R) (xs : list R) : py_sum (x :: xs) = x + py_sum xs.
Proof. unfold py_sum. cbn [fold_left]. rewrite fold_left_Rplus. ring. Qed.

Lemma py_len_xs (pts : list point) : py_len (xs_of pts) = py_len pts.
Proof. unfold py_len, xs_of. rewrite length_map. reflexivity. Qed.

Lemma py_len_ys (pts : list point) : py_len (ys_of pts) = py_len pts.
Proof. unfold py_len, ys_of. rewrite length_map. reflexivity. Qed.

Lemma py_len_map {A B : Type} (f : A -> B) (xs : list A) :
  py_len (map f xs) = py_len xs.
Proof. unfold py_len. rewrite length_map. reflexivity. Qed.

Lemma py_len_nonzero {A : Type} (xs : list A) : xs <> [] -> py_len xs <> 0.
Proof.
  destruct xs as [| x xs]; [congruence |]. intros _. unfold py_len.
  apply not_0_INR. discriminate.
Qed.

Lemma py_len_cons {A : Type} (x : A) (xs : list A) :
  py_len (x :: xs) = py_len xs + 1.
Proof. unfold py_len. cbn [length]. apply S_INR. Qed.

Lemma centroid_Ok (pts : list point) :
  pts <> [] ->
  centroid pts =
  Ok (py_sum (xs_of pts) / py_len pts, py_sum (ys_of pts) / py_len pts).
Proof.
  intros Hne. unfold centroid. rewrite py_len_xs, py_len_ys.
  rewrite !py_div_Ok by (apply py_len_nonzero; exact Hne). reflexivity.
Qed.

Lemma centroid_returns_iff (pts : list point) :
  returns (centroid pts) <-> pts <> [].
Proof.
  split.
  - intros [c Hc] ->. unfold centroid, py_len in Hc. cbn in Hc.
    rewrite py_div_zero in Hc. discriminate.
  - intros Hne. rewrite centroid_Ok by exact Hne. eexists; reflexivity.
Qed.

Lemma py_sum_xs_rotation (angle cx cy : R) (pts : list point) :
  py_sum (xs_of (map (rotation angle (cx, cy)) pts)) =
  py_len pts * cx + (py_sum (xs_of pts) - py_len pts * cx) * cos angle
  - (py_sum (ys_of pts) - py_len pts * cy) * sin angle.
Proof.
  induction pts as [| [x y] pts IH].
  - unfold py_sum, py_len. cbn. ring.
  - unfold xs_of, ys_of in *. cbn [map fst snd].
    rewrite !py_sum_cons, py_len_cons, IH. unfold rotation. cbn [fst snd]. ring.
Qed.

Lemma py_sum_ys_rotation (angle cx cy : R) (pts : list point) :
  py_sum (ys_of (map (rotation angle (cx, cy)) pts)) =
  py_len pts * cy + (py_sum (xs_of pts) - py_len pts * cx) * sin angle
  + (py_sum (ys_of pts) - py_len pts * cy) * cos angle.
Proof.
  induction pts as [| [x y] pts IH].
  - unfold py_sum, py_len. cbn. ring.
  - unfold xs_of, ys_of in *. cbn [map fst snd].
    rewrite !py_sum_cons, py_len_cons, IH. unfold rotation. cbn [fst snd]. ring.
Qed.

(** Rotating a point list about its centroid keeps the centroid. *)
Lemma centroid_rotation (angle : R) (pts : list point) (c : point) :
  centroid pts = Ok c -> centroid (map (rotation angle c) pts) = Ok c.
Proof.
  intros Hc.
  assert (Hne : pts <> []) by (apply centroid_returns_iff; eexists; exact Hc).
  rewrite centroid_Ok in Hc by exact Hne. injection Hc as <-.
  pose proof (py_len_nonzero pts Hne) as Hn.
  assert (Hne' : map (rotation angle
                        (py_sum (xs_of pts) / py_len pts, py_sum (ys_of pts) / py_len pts))
                     pts <> []).
  { destruct pts; [congruence | discriminate]. }
  rewrite centroid_Ok by exact Hne'.
  rewrite py_sum_xs_rotation, py_sum_ys_rotation, py_len_map.
  f_equal. f_equal; field; exact Hn.
Qed.

(** ** Regular polygons follow their center *)

Lemma generate_pentagon_points_translate (cx cy r dx dy : R) :
  map (translate_point dx dy) (Pentagon._generate_pentagon_points cx cy r) =
  Pentagon._generate_pentagon_points (cx + dx) (cy + dy) r.
Proof.
  unfold Pentagon._generate_pentagon_points. rewrite map_map.
  apply map_ext. intros i. unfold translate_point. f_equal; ring.
Qed.

Lemma generate_hexagon_points_translate (cx cy r dx dy : R) :
  map (translate_point dx dy) (Hexagon._generate_hexagon_points cx cy r) =
  Hexagon._generate_hexagon_points (cx + dx) (cy + dy) r.
Proof.
  unfold Hexagon._generate_hexagon_points. rewrite map_map.
  apply map_ext. intros i. unfold translate_point. f_equal; ring.
Qed.

Lemma generate_pentagon_points_moved (cx cy cx' cy' r : R) :
  Pentagon._generate_pentagon_points cx' cy' r =
  map (translate_point (cx' - cx) (cy' - cy))
      (Pentagon._generate_pentagon_points cx cy r).
Proof.
  rewrite generate_pentagon_points_translate. f_equal; ring.
Qed.

Lemma generate_hexagon_points_moved (cx cy cx' cy' r : R) :
  Hexagon._generate_hexagon_points cx' cy' r =
  map (translate_point (cx' - cx) (cy' - cy))
      (Hexagon._generate_hexagon_points cx cy r).
Proof.
  rewrite generate_hexagon_points_translate. f_equal; ring.
Qed.

(** ** C1: what rotate does to point lists *)

Lemma pivot_or_cases (center_x center_y : option R) (d : result point) :
  (exists px py, center_x = Some px /\ center_y = Some py /\
                 pivot_or center_x center_y d = Ok (px, py)) \/
  (pivot_given center_x center_y = false /\ pivot_or center_x center_y d = d).
Proof.
  destruct center_x as [px |], center_y as [py |]; cbn; eauto 6.
Qed.

(** C1, as documented, fails: rotating the unit hexagon centred on the
    origin by a half turn about its own center leaves its first vertex at
    (1,0) instead of moving it to (-1,0). *)
Lemma C1_hexagon_points_not_rotated_counterexample :
  ~ rotates_every_point (Hexagon.__init__ 0 0 1) PI None None.
Proof.
  intros H.
  destruct (H (0, 0) (Hexagon._generate_hexagon_points 0 0 1) eq_refl eq_refl)
    as (s' & Hrot & Hpts).
  unfold Hexagon.__init__, rotate, Hexagon.rotate in Hrot.
  cbv beta iota zeta in Hrot. injection Hrot as <-. cbn [points_of] in Hpts.
  unfold Hexagon._generate_hexagon_points in Hpts. cbn [seq map] in Hpts.
  injection Hpts as Hx _. clear - Hx.
  unfold rotation in Hx. cbn [fst snd INR] in Hx.
  replace (0 * 2 * PI / 6) with 0 in Hx by lra.
  autorewrite with trig in Hx. lra.
Qed.

(** C1, amended.  For [Triangle] and [Polygon], for every angle and every
    pivot (passed, or the centroid of the points when omitted and the list
    is not empty), [rotate] maps each defining point [p] to
    [pivot + R(angle)(p - pivot)].  For [Pentagon] and [Hexagon], [rotate]
    maps only the center that way (the default pivot is the center itself,
    which stays) and regenerates the points from the new center and the
    radius: they are the vertices generated from the old center and radius,
    translated with the center, not rotated about the pivot. *)
Theorem C1_rotate_point_lists :
  forall (s : Shape) (angle : R) (center_x center_y : option R) (pivot : point),
    pivot_of s center_x center_y = Ok pivot ->
    match s with
    | Triangle st pts =>
        rotate s angle center_x center_y =
        Ok (Triangle st (map (rotation angle pivot) pts))
    | Polygon st pts =>
        rotate s angle center_x center_y =
        Ok (Polygon st (map (rotation angle pivot) pts))
    | Pentagon st cx cy r pts =>
        let c' := rotation angle pivot (cx, cy) in
        rotate s angle center_x center_y =
        Ok (Pentagon st (fst c') (snd c') r
              (Pentagon._generate_pentagon_points (fst c') (snd c') r)) /\
        Pentagon._generate_pentagon_points (fst c') (snd c') r =
        map (translate_point (fst c' - cx) (snd c' - cy))
            (Pentagon._generate_pentagon_points cx cy r)
    | Hexagon st cx cy r pts =>
        let c' := rotation angle pivot (cx, cy) in
        rotate s angle center_x center_y =
        Ok (Hexagon st (fst c') (snd c') r
              (Hexagon._generate_hexagon_points (fst c') (snd c') r)) /\
        Hexagon._generate_hexagon_points (fst c') (snd c') r =
        map (translate_point (fst c' - cx) (snd c' - cy))
            (Hexagon._generate_hexagon_points cx cy r)
    | _ => True
    end.
Proof.
  intros s angle center_x center_y [px py] Hp.
  destruct s as [| | | | st pts | st cx cy r pts | st cx cy r pts | st pts];
    try exact I; unfold pivot_of in Hp.
  - unfold rotate, Triangle.rotate. rewrite Hp. run.
    rewrite map_rotate_point. reflexivity.
  - cbv zeta. split; [| apply generate_pentagon_points_moved].
    unfold rotate, Pentagon.rotate.
    destruct (pivot_or_cases center_x center_y (Ok (cx, cy)))
      as [(qx & qy & -> & -> & Hq) | [Hg Hq]]; rewrite Hq in Hp; injection Hp as <- <-.
    + reflexivity.
    + rewrite rotation_pivot. destruct center_x, center_y; try discriminate; reflexivity.
  - cbv zeta. split; [| apply generate_hexagon_points_moved].
    unfold rotate, Hexagon.rotate.
    destruct (pivot_or_cases center_x center_y (Ok (cx, cy)))
      as [(qx & qy & -> & -> & Hq) | [Hg Hq]]; rewrite Hq in Hp; injection Hp as <- <-.
    + reflexivity.
    + rewrite rotation_pivot. destruct center_x, center_y; try discriminate; reflexivity.
  - unfold rotate, Polygon.rotate. rewrite Hp. run.
    rewrite map_rotate_point. reflexivity.
Qed.

Lemma C1_rotate_point_lists_witness :
  rotate (Polygon Shape__init__ [(1, 0); (0, 1); (3, 2)]) (PI / 2) (Some 0) (Some 0) =
  Ok (Polygon Shape__init__
        (map (rotation (PI / 2) (0, 0)) [(1, 0); (0, 1); (3, 2)])).
Proof.
  apply (C1_rotate_point_lists (Polygon Shape__init__ [(1, 0); (0, 1); (3, 2)])
           (PI / 2) (Some 0) (Some 0) (0, 0)).
  reflexivity.
Defined.

(** ** C2: scaling by 1 *)

Lemma scale_point_one (cx cy : R) (p : point) : scale_point 1 cx cy p = p.
Proof. destruct p as [x y]. unfold scale_point. f_equal; ring. Qed.

Lemma map_scale_point_one (cx cy : R) (pts : list point) :
  map (scale_point 1 cx cy) pts = pts.
Proof.
  rewrite (map_ext _ (fun p => p) (scale_point_one cx cy)). apply map_id.
Qed.

(** With a pivot passed or a non-empty list, the pivot of a point list is
    computed. *)
Lemma pivot_or_centroid_returns (center_x center_y : option R) (pts : list point) :
  pivot_given center_x center_y = true \/ pts <> [] ->
  exists c, pivot_or center_x center_y (centroid pts) = Ok c.
Proof.
  intros Hp.
  destruct (pivot_or_cases center_x center_y (centroid pts))
    as [(px & py & _ & _ & Hq) | [Hg Hq]]; [eauto |].
  destruct Hp as [Hp | Hne]; [congruence |].
  rewrite Hq, centroid_Ok by exact Hne. eauto.
Qed.

(** The sheared unit hexagon: a reachable state that is not in sync. *)
Lemma sheared_hexagon_reachable :
  reachable (Hexagon.shear Shape__init__ 0 0 1
               (Hexagon._generate_hexagon_points 0 0 1) 0 1).
Proof.
  apply (reach_op (Hexagon.__init__ 0 0 1) (OShear 0 1)).
  - apply reach_new, new_Hexagon.
  - reflexivity.
Qed.

(** C2, as documented, fails: the unit hexagon sheared by (0,1) is a
    reachable state, and scaling it by 1.0 about its default pivot replaces
    its sheared points by the regenerated ones. *)
Lemma C2_sheared_hexagon_counterexample :
  exists s : Shape, reachable s /\ scale s 1 None None <> Ok s.
Proof.
  eexists. split; [exact sheared_hexagon_reachable |].
  unfold Hexagon.shear, scale, Hexagon.scale. cbv beta iota zeta.
  unfold Hexagon._generate_hexagon_points. cbn [seq map].
  intros H. injection H as _ _ Hy. clear - Hy.
  unfold shear_point in Hy. cbn [INR] in Hy.
  replace (0 * 2 * PI / 6) with 0 in Hy by lra.
  autorewrite with trig in Hy. lra.
Qed.

(** C2, amended.  For every variant and every pivot, [scale] with factor
    1.0 returns unless the shape is a [Triangle] or [Polygon] with no points
    and the pivot is omitted, and then leaves every attribute of the shape
    unchanged, provided the [points] of a [Pentagon] or [Hexagon] are the
    ones generated from its center and radius (they are, unless it was
    sheared since they were last generated). *)
Theorem C2_scale_one_identity :
  forall (s : Shape) (center_x center_y : option R),
    in_sync s -> has_pivot s center_x center_y ->
    scale s 1 center_x center_y = Ok s.
Proof.
  intros s center_x center_y Hsync Hpiv.
  destruct s as [st x1 y1 x2 y2 | st cx cy r | st x1 y1 x2 y2 | st cx cy w h
                | st pts | st cx cy r pts | st cx cy r pts | st pts];
    cbn [scale in_sync has_pivot] in *.
  - unfold Line.scale.
    destruct (pivot_or center_x center_y _) as [[px py] | e] eqn:Hq.
    + run. do 2 f_equal; ring.
    + destruct center_x, center_y; discriminate.
  - unfold Circle.scale. destruct center_x, center_y; do 2 f_equal; ring.
  - unfold Rectangle.scale.
    destruct (pivot_or center_x center_y _) as [[px py] | e] eqn:Hq.
    + run. do 2 f_equal; ring.
    + destruct center_x, center_y; discriminate.
  - unfold Ellipse.scale. destruct center_x, center_y; do 2 f_equal; ring.
  - unfold Triangle.scale.
    destruct (pivot_or_centroid_returns _ _ _ Hpiv) as [[px py] ->]. run.
    rewrite map_scale_point_one. reflexivity.
  - unfold Pentagon.scale. subst pts.
    destruct center_x as [px |], center_y as [py |]; cbv beta iota zeta;
      rewrite ?Rmult_1_r;
      try replace (px + (cx - px)) with cx by ring;
      try replace (py + (cy - py)) with cy by ring; reflexivity.
  - unfold Hexagon.scale. subst pts.
    destruct center_x as [px |], center_y as [py |]; cbv beta iota zeta;
      rewrite ?Rmult_1_r;
      try replace (px + (cx - px)) with cx by ring;
      try replace (py + (cy - py)) with cy by ring; reflexivity.
  - unfold Polygon.scale.
    destruct (pivot_or_centroid_returns _ _ _ Hpiv) as [[px py] ->]. run.
    rewrite map_scale_point_one. reflexivity.
Qed.

Lemma C2_scale_one_identity_witness :
  scale (Pentagon.__init__ 3 4 5) 1 (Some 1) (Some 2) = Ok (Pentagon.__init__ 3 4 5) /\
  scale (Polygon Shape__init__ [(0, 0); (4, 0); (0, 2)]) 1 None None =
  Ok (Polygon Shape__init__ [(0, 0); (4, 0); (0, 2)]).
Proof.
  split.
  - apply (C2_scale_one_identity (Pentagon.__init__ 3 4 5) (Some 1) (Some 2)).
    + reflexivity.
    + exact I.
  - apply (C2_scale_one_identity (Polygon Shape__init__ [(0, 0); (4, 0); (0, 2)]) None None).
    + exact I.
    + right. discriminate.
Defined.

(** ** C3: rotating by 0, and there and back *)

Lemma rotate_zero_x (px py x y : R) :
  px + (x - px) * cos 0 - (y - py) * sin 0 = x.
Proof. exact (f_equal fst (rotation_zero (px, py) (x, y))). Qed.

Lemma rotate_zero_y (px py x y : R) :
  py + (x - px) * sin 0 + (y - py) * cos 0 = y.
Proof. exact (f_equal snd (rotation_zero (px, py) (x, y))). Qed.

Lemma rotate_back_x (angle px py x y : R) :
  px + (px + (x - px) * cos angle - (y - py) * sin angle - px) * cos (- angle)
  - (py + (x - px) * sin angle + (y - py) * cos angle - py) * sin (- angle) = x.
Proof. exact (f_equal fst (rotation_inverse angle (px, py) (x, y))). Qed.

Lemma rotate_back_y (angle px py x y : R) :
  py + (px + (x - px) * cos angle - (y - py) * sin angle - px) * sin (- angle)
  + (py + (x - px) * sin angle + (y - py) * cos angle - py) * cos (- angle) = y.
Proof. exact (f_equal snd (rotation_inverse angle (px, py) (x, y))). Qed.

(** Rotating the endpoints of a segment about its midpoint keeps the
    midpoint. *)
Lemma Line_default_center_rotated (angle x1 y1 x2 y2 : R) :
  Line.default_center
    ((x1 + x2) / 2 + (x1 - (x1 + x2) / 2) * cos angle - (y1 - (y1 + y2) / 2) * sin angle)
    ((y1 + y2) / 2 + (x1 - (x1 + x2) / 2) * sin angle + (y1 - (y1 + y2) / 2) * cos angle)
    ((x1 + x2) / 2 + (x2 - (x1 + x2) / 2) * cos angle - (y2 - (y1 + y2) / 2) * sin angle)
    ((y1 + y2) / 2 + (x2 - (x1 + x2) / 2) * sin angle + (y2 - (y1 + y2) / 2) * cos angle)
  = Line.default_center x1 y1 x2 y2.
Proof. unfold Line.default_center. f_equal; field. Qed.

Lemma Line_rotate_inverse (st : Style) (x1 y1 x2 y2 angle : R)
    (center_x center_y : option R) :
  rotate (Line st x1 y1 x2 y2) 0 center_x center_y = Ok (Line st x1 y1 x2 y2) /\
  exists s', rotate (Line st x1 y1 x2 y2) angle center_x center_y = Ok s' /\
             rotate s' (- angle) center_x center_y = Ok (Line st x1 y1 x2 y2).
Proof.
  cbn [rotate]. unfold Line.rotate.
  destruct center_x as [px |], center_y as [py |]; cbn [pivot_or].
  1: { run. rewrite !rotate_zero_x, !rotate_zero_y. split; [reflexivity |].
       eexists; split; [reflexivity |]. cbn [rotate]. unfold Line.rotate, pivot_or. run.
       rewrite !rotate_back_x, !rotate_back_y. reflexivity. }
  all: unfold Line.default_center at 1 2; run;
    rewrite !rotate_zero_x, !rotate_zero_y; (split; [reflexivity |]);
    (eexists; split; [reflexivity |]); cbn [rotate]; unfold Line.rotate; cbn [pivot_or];
    rewrite Line_default_center_rotated; unfold Line.default_center; run;
    rewrite !rotate_back_x, !rotate_back_y; reflexivity.
Qed.

(** The pivot of a point list is the same before and after the rotation
    about it. *)
Lemma pivot_or_centroid_rotation (angle : R) (center_x center_y : option R)
    (pts : list point) (c : point) :
  pivot_or center_x center_y (centroid pts) = Ok c ->
  pivot_or center_x center_y (centroid (map (rotation angle c) pts)) = Ok c.
Proof.
  destruct center_x as [px |], center_y as [py |]; cbn [pivot_or];
    try (apply centroid_rotation). intros H; exact H.
Qed.

Lemma points_rotate_inverse (angle : R) (center_x center_y : option R)
    (pts : list point) :
  pivot_given center_x center_y = true \/ pts <> [] ->
  exists c,
    pivot_or center_x center_y (centroid pts) = Ok c /\
    map (rotate_point (cos 0) (sin 0) (fst c) (snd c)) pts = pts /\
    pivot_or center_x center_y
      (centroid (map (rotate_point (cos angle) (sin angle) (fst c) (snd c)) pts)) = Ok c /\
    map (rotate_point (cos (- angle)) (sin (- angle)) (fst c) (snd c))
      (map (rotate_point (cos angle) (sin angle) (fst c) (snd c)) pts) = pts.
Proof.
  intros Hp. destruct (pivot_or_centroid_returns _ _ _ Hp) as [[px py] Hc].
  exists (px, py). cbn [fst snd]. rewrite !map_rotate_point.
  split; [exact Hc |].
  split; [apply map_rotation_zero |].
  split; [apply pivot_or_centroid_rotation; exact Hc |].
  apply map_rotation_inverse.
Qed.

(** C3, as documented, fails: on the unit hexagon sheared by (0,1), a
    reachable state, rotating by 0 about the default pivot replaces the
    sheared points by the regenerated ones. *)
Lemma C3_sheared_hexagon_counterexample :
  exists s : Shape, reachable s /\ rotate s 0 None None <> Ok s.
Proof.
  eexists. split; [exact sheared_hexagon_reachable |].
  unfold Hexagon.shear, rotate, Hexagon.rotate. cbv beta iota zeta.
  unfold Hexagon._generate_hexagon_points. cbn [seq map].
  intros H. injection H as _ Hy. clear - Hy.
  unfold shear_point in Hy. cbn [INR] in Hy.
  replace (0 * 2 * PI / 6) with 0 in Hy by lra.
  autorewrite with trig in Hy. lra.
Qed.

(** C3, amended.  For every variant but [Rectangle] (so for [Line],
    [Triangle], [Pentagon], [Hexagon] and [Polygon]) and every pivot,
    [rotate] by 0 returns the shape unchanged, and [rotate] by [angle]
    followed by [rotate] by [- angle] with the same pivot arguments restores
    every attribute, provided the pivot can be computed (it is passed, or
    the point list of a [Triangle] or [Polygon] is not empty) and the
    [points] of a [Pentagon] or [Hexagon] are the ones generated from its
    center and radius (they are, unless it was sheared since they were last
    generated). *)
Theorem C3_rotate_zero_and_back :
  forall (s : Shape) (angle : R) (center_x center_y : option R),
    is_Rectangle s = false -> in_sync s -> has_pivot s center_x center_y ->
    rotate s 0 center_x center_y = Ok s /\
    exists s', rotate s angle center_x center_y = Ok s' /\
               rotate s' (- angle) center_x center_y = Ok s.
Proof.
  intros s angle center_x center_y Hrect Hsync Hpiv.
  destruct s as [st x1 y1 x2 y2 | st cx cy r | st x1 y1 x2 y2 | st cx cy w h
                | st pts | st cx cy r pts | st cx cy r pts | st pts];
    cbn [in_sync has_pivot is_Rectangle] in *; try discriminate.
  - apply Line_rotate_inverse.
  - cbn [rotate]. unfold Circle.rotate.
    destruct center_x as [px |], center_y as [py |];
      try (split; [reflexivity | eexists; split; reflexivity]).
    cbv zeta. rewrite rotate_zero_x, rotate_zero_y. split; [reflexivity |].
    eexists; split; [reflexivity |]. cbn [rotate]. unfold Circle.rotate. cbv zeta.
    rewrite rotate_back_x, rotate_back_y. reflexivity.
  - cbn [rotate]. unfold Ellipse.rotate.
    destruct center_x as [px |], center_y as [py |];
      try (split; [reflexivity | eexists; split; reflexivity]).
    cbv zeta. rewrite rotate_zero_x, rotate_zero_y. split; [reflexivity |].
    eexists; split; [reflexivity |]. cbn [rotate]. unfold Ellipse.rotate. cbv zeta.
    rewrite rotate_back_x, rotate_back_y. reflexivity.
  - cbn [rotate]. unfold Triangle.rotate.
    destruct (points_rotate_inverse angle _ _ _ Hpiv)
      as ([px py] & Hc & H0 & Hc' & Hback). cbn [fst snd] in *.
    rewrite Hc. run. rewrite H0. split; [reflexivity |].
    eexists; split; [reflexivity |]. cbn [rotate]. unfold Triangle.rotate.
    rewrite Hc'. run. rewrite Hback. reflexivity.
  - cbn [rotate]. unfold Pentagon.rotate. subst pts.
    destruct center_x as [px |], center_y as [py |];
      try (split; [reflexivity | eexists; split; reflexivity]).
    cbv beta iota zeta. rewrite rotate_zero_x, rotate_zero_y. split; [reflexivity |].
    eexists; split; [reflexivity |]. cbn [rotate]. unfold Pentagon.rotate.
    cbv beta iota zeta. rewrite rotate_back_x, rotate_back_y. reflexivity.
  - cbn [rotate]. unfold Hexagon.rotate. subst pts.
    destruct center_x as [px |], center_y as [py |];
      try (split; [reflexivity | eexists; split; reflexivity]).
    cbv beta iota zeta. rewrite rotate_zero_x, rotate_zero_y. split; [reflexivity |].
    eexists; split; [reflexivity |]. cbn [rotate]. unfold Hexagon.rotate.
    cbv beta iota zeta. rewrite rotate_back_x, rotate_back_y. reflexivity.
  - cbn [rotate]. unfold Polygon.rotate.
    destruct (points_rotate_inverse angle _ _ _ Hpiv)
      as ([px py] & Hc & H0 & Hc' & Hback). cbn [fst snd] in *.
    rewrite Hc. run. rewrite H0. split; [reflexivity |].
    eexists; split; [reflexivity |]. cbn [rotate]. unfold Polygon.rotate.
    rewrite Hc'. run. rewrite Hback. reflexivity.
Qed.

Lemma C3_rotate_zero_and_back_witness :
  rotate (Triangle Shape__init__ [(0, 0); (4, 0); (0, 2)]) 0 None None =
    Ok (Triangle Shape__init__ [(0, 0); (4, 0); (0, 2)]) /\
  exists s',
    rotate (Triangle Shape__init__ [(0, 0); (4, 0); (0, 2)]) (PI / 3) None None = Ok s' /\
    rotate s' (- (PI / 3)) None None = Ok (Triangle Shape__init__ [(0, 0); (4, 0); (0, 2)]).
Proof.
  apply (C3_rotate_zero_and_back (Triangle Shape__init__ [(0, 0); (4, 0); (0, 2)])
           (PI / 3) None None).
  - reflexivity.
  - exact I.
  - right. discriminate.
Defined.

(** ** Reachable states *)

Lemma constructed_in_sync (s : Shape) : constructed s -> in_sync s.
Proof.
  intros Hc. destruct Hc as [ | | | | x1 y1 x2 y2 t H | | | ];
    cbn; try exact I; try reflexivity.
  rewrite Triangle_init_Ok in H. injection H as <-. exact I.
Qed.

Lemma set_style_in_sync (st : Style) (s : Shape) : in_sync s -> in_sync (set_style st s).
Proof. destruct s; cbn; auto. Qed.

(** [translate], [scale] and [rotate] keep a regular polygon in sync; only
    [shear] can break it. *)
Lemma apply_op_in_sync (o : op) (s s' : Shape) :
  is_shear o = false -> in_sync s -> apply_op o s = Ok s' -> in_sync s'.
Proof.
  intros Ho Hs H.
  destruct o as [dx dy | f cx cy | a cx cy | sx sy]; [| | | discriminate];
    destruct s as [st x1 y1 x2 y2 | st px py r | st x1 y1 x2 y2 | st px py w h
                  | st pts | st px py r pts | st px py r pts | st pts];
    cbn [apply_op translate scale rotate in_sync] in *.
  all: try (injection H as <-;
            cbv [in_sync Line.translate Circle.translate Rectangle.translate
                 Ellipse.translate Triangle.translate Pentagon.translate
                 Hexagon.translate Polygon.translate]; try exact I).
  - subst pts. apply generate_pentagon_points_translate.
  - subst pts. apply generate_hexagon_points_translate.
  - unfold Line.scale in H. destruct (pivot_or _ _ _) as [[qx qy] |]; [| discriminate].
    injection H as <-. exact I.
  - unfold Circle.scale in H. destruct cx, cy; injection H as <-; exact I.
  - unfold Rectangle.scale in H. destruct (pivot_or _ _ _) as [[qx qy] |]; [| discriminate].
    injection H as <-. exact I.
  - unfold Ellipse.scale in H. destruct cx, cy; injection H as <-; exact I.
  - unfold Triangle.scale in H. destruct (pivot_or _ _ _) as [[qx qy] |]; [| discriminate].
    injection H as <-. exact I.
  - unfold Pentagon.scale in H. destruct cx, cy; injection H as <-; reflexivity.
  - unfold Hexagon.scale in H. destruct cx, cy; injection H as <-; reflexivity.
  - unfold Polygon.scale in H. destruct (pivot_or _ _ _) as [[qx qy] |]; [| discriminate].
    injection H as <-. exact I.
  - unfold Line.rotate in H. destruct (pivot_or _ _ _) as [[qx qy] |]; [| discriminate].
    injection H as <-. exact I.
  - unfold Circle.rotate in H. destruct cx, cy; injection H as <-; exact I.
  - unfold Rectangle.rotate in H. destruct (pivot_or _ _ _) as [[qx qy] |]; [| discriminate].
    cbn in H. injection H as <-. exact I.
  - unfold Ellipse.rotate in H. destruct cx, cy; injection H as <-; exact I.
  - unfold Triangle.rotate in H. destruct (pivot_or _ _ _) as [[qx qy] |]; [| discriminate].
    injection H as <-. exact I.
  - unfold Pentagon.rotate in H. destruct cx, cy; injection H as <-; reflexivity.
  - unfold Hexagon.rotate in H. destruct cx, cy; injection H as <-; reflexivity.
  - unfold Polygon.rotate in H. destruct (pivot_or _ _ _) as [[qx qy] |]; [| discriminate].
    injection H as <-. exact I.
Qed.

(** A state reached from a constructor without [shear] is in sync. *)
Lemma apply_ops_in_sync (os : list op) (s s' : Shape) :
  forallb (fun o => negb (is_shear o)) os = true ->
  in_sync s -> apply_ops os s = Ok s' -> in_sync s'.
Proof.
  revert s. induction os as [| o os IH]; intros s Hos Hs H; cbn in *.
  - injection H as <-. exact Hs.
  - apply andb_prop in Hos as [Ho Hos].
    destruct (apply_op o s) as [s1 |] eqn:E; [| discriminate]. cbn in H.
    apply (IH s1 Hos); [| exact H].
    apply (apply_op_in_sync o s s1); [| exact Hs | exact E].
    destruct (is_shear o); [discriminate | reflexivity].
Qed.

Ltac run_in H := cbv [mbind result_bind mret result_ret] in H; cbv beta iota zeta in H.

(** From [m self args = Ok s'] to the value of [s'], for the transforms. *)
Ltac invert_transform H :=
  cbn [apply_op translate scale rotate shear] in H;
  unfold Line.scale, Line.rotate, Circle.scale, Circle.rotate, Rectangle.scale,
    Rectangle.rotate, Ellipse.scale, Ellipse.rotate, Triangle.scale,
    Triangle.rotate, Pentagon.scale, Pentagon.rotate, Hexagon.scale,
    Hexagon.rotate, Polygon.scale, Polygon.rotate in H;
  repeat match type of H with
    | context [pivot_or ?a ?b ?d] => destruct (pivot_or a b d) as [[? ?] | ?]
    | context [match ?c with Some _ => _ | None => _ end] => destruct c
    end;
  cbn [map xs_of ys_of py_min py_max Rectangle.corners] in H; run_in H;
  try discriminate; injection H as <-.

Lemma length_generate_pentagon_points (cx cy r : R) :
  length (Pentagon._generate_pentagon_points cx cy r) = 5%nat.
Proof. unfold Pentagon._generate_pentagon_points. rewrite length_map. reflexivity. Qed.

Lemma length_generate_hexagon_points (cx cy r : R) :
  length (Hexagon._generate_hexagon_points cx cy r) = 6%nat.
Proof. unfold Hexagon._generate_hexagon_points. rewrite length_map. reflexivity. Qed.

Lemma apply_op_points_invariant (o : op) (s s' : Shape) :
  points_invariant s -> apply_op o s = Ok s' -> points_invariant s'.
Proof.
  intros Hs H.
  destruct o as [dx dy | f cx cy | a cx cy | sx sy];
    destruct s as [st x1 y1 x2 y2 | st px py r | st x1 y1 x2 y2 | st px py w h
                  | st pts | st px py r pts | st px py r pts | st pts];
    invert_transform H;
    cbv [points_invariant Line.translate Circle.translate Rectangle.translate
         Ellipse.translate Triangle.translate Pentagon.translate
         Hexagon.translate Polygon.translate Line.shear Circle.shear
         Rectangle.shear Ellipse.shear Triangle.shear Pentagon.shear
         Hexagon.shear Polygon.shear] in *;
    rewrite ?length_map, ?length_generate_pentagon_points,
      ?length_generate_hexagon_points; auto.
Qed.

Lemma reachable_points_invariant (s : Shape) : reachable s -> points_invariant s.
Proof.
  induction 1 as [s Hc | s st _ IH | s o s' _ IH Ho].
  - destruct Hc as [ | | | | x1 y1 x2 y2 t H | | | ];
      cbn [points_invariant Line.__init__ Circle.__init__ Rectangle.__init__
           Ellipse.__init__ Pentagon.__init__ Hexagon.__init__ Polygon.__init__];
      try exact I.
    + rewrite Triangle_init_Ok in H. injection H as <-. reflexivity.
    + apply length_generate_pentagon_points.
    + apply length_generate_hexagon_points.
  - destruct s; exact IH.
  - exact (apply_op_points_invariant o s s' IH Ho).
Qed.

(** In a reachable state the default pivot can always be computed, except
    for a polygon without points. *)
Lemma reachable_has_pivot (s : Shape) (center_x center_y : option R) :
  reachable s -> (forall st, s <> Polygon st []) -> has_pivot s center_x center_y.
Proof.
  intros Hr Hne. apply reachable_points_invariant in Hr.
  destruct s as [| | | | st pts | | | st pts]; cbn in *; try exact I.
  - right. intros ->. discriminate.
  - right. intros ->. exact (Hne st eq_refl).
Qed.

(** ** C4: copy *)

(** What [copy] returns, class by class. *)
Lemma copy_returns (s : Shape) :
  exists c : Shape,
    copy s = Ok c /\
    class_of c = class_of s /\
    selected (style c) = false /\
    line_color (style c) = line_color (style s) /\
    line_width (style c) = line_width (style s) /\
    line_style (style c) = line_style (style s) /\
    (class_of s <> CLine -> fill_color (style c) = fill_color (style s)) /\
    (in_sync s -> normalized s -> geometry c = geometry s).
Proof.
  destruct s as [st x1 y1 x2 y2 | st cx cy r | st x1 y1 x2 y2 | st cx cy w h
                | st pts | st cx cy r pts | st cx cy r pts | st pts];
    cbn [copy]; unfold Line.copy, Circle.copy, Rectangle.copy, Ellipse.copy,
      Triangle.copy, Pentagon.copy, Hexagon.copy, Polygon.copy;
    rewrite ?Triangle_init_Ok; run;
    (eexists; split; [reflexivity |]);
    do 5 (split; [reflexivity |]);
    (split; [cbn [class_of]; first [intros _; reflexivity | congruence] |]);
    intros Hsync Hnorm; cbn [in_sync normalized] in Hsync, Hnorm; try reflexivity.
  - destruct Hnorm as [Hx Hy]. unfold Rectangle.__init__, geometry. cbn [set_style].
    rewrite (Rmin_left x1 x2), (Rmin_left y1 y2), (Rmax_right x1 x2), (Rmax_right y1 y2)
      by assumption.
    reflexivity.
  - subst pts. reflexivity.
  - subst pts. reflexivity.
Qed.

(** The geometry of a copy is what the constructor makes of the attributes
    [copy] passes to it: the corners of a [Rectangle] in min/max order, the
    center and radius of a [Pentagon] or [Hexagon] with the points
    generated from them, and the attributes themselves for the other
    classes. *)
Lemma copy_geometry (s c : Shape) :
  copy s = Ok c ->
  geometry c =
  match s with
  | Rectangle _ x1 y1 x2 y2 =>
      Rectangle Shape__init__ (Rmin x1 x2) (Rmin y1 y2) (Rmax x1 x2) (Rmax y1 y2)
  | Pentagon _ cx cy r _ =>
      Pentagon Shape__init__ cx cy r (Pentagon._generate_pentagon_points cx cy r)
  | Hexagon _ cx cy r _ =>
      Hexagon Shape__init__ cx cy r (Hexagon._generate_hexagon_points cx cy r)
  | _ => geometry s
  end.
Proof.
  destruct s as [st x1 y1 x2 y2 | st cx cy r | st x1 y1 x2 y2 | st cx cy w h
                | st pts | st cx cy r pts | st cx cy r pts | st pts];
    cbn [copy]; unfold Line.copy, Circle.copy, Rectangle.copy, Ellipse.copy,
      Triangle.copy, Pentagon.copy, Hexagon.copy, Polygon.copy;
    rewrite ?Triangle_init_Ok; run;
    intros [= <-]; reflexivity.
Qed.

(** ** The heap *)

Lemma map_points_ext {P Q : Type} (f g : P -> option Q) (o : ShapeOf P)
    (s : ShapeOf Q) :
  map_points f o = Some s ->
  (forall p q, points_of o = Some p -> f p = Some q -> g p = Some q) ->
  map_points g o = Some s.
Proof.
  intros H Hfg.
  destruct o as [| | | | st p | st cx cy r p | st cx cy r p | st p];
    cbn [map_points points_of] in *; try exact H.
  all: destruct (f p) as [q |] eqn:E; [| discriminate];
    rewrite (Hfg p q eq_refl E); exact H.
Qed.

(** The value of an object depends only on its own cell and on the list
    its [points] refers to. *)
Lemma load_frame (h1 h2 : Heap) (b : loc) (s : Shape) :
  load h1 b = Some s ->
  objs h2 !! b = objs h1 !! b ->
  (forall o l pts, objs h1 !! b = Some o -> points_of o = Some l ->
                   lists h1 !! l = Some pts -> lists h2 !! l = Some pts) ->
  load h2 b = Some s.
Proof.
  unfold load. intros H Hobj Hlists. rewrite Hobj.
  destruct (objs h1 !! b) as [o |] eqn:Ho; [| discriminate].
  cbn in *. apply (map_points_ext _ _ _ _ H).
  intros p q Hp Hq. exact (Hlists o p q eq_refl Hp Hq).
Qed.

Lemma points_of_retarget {P Q : Type} (q : Q) (s : ShapeOf P) (l : Q) :
  points_of (retarget q s) = Some l -> l = q.
Proof. destruct s; cbn; congruence. Qed.

Lemma map_points_retarget (ls : list (list point)) (s : Shape) :
  map_points (fun l : loc => alloc_points ls s !! l) (retarget (length ls) s) = Some s.
Proof.
  destruct s as [| | | | st p | st cx cy r p | st cx cy r p | st p];
    cbn [map_points retarget alloc_points points_of]; try reflexivity.
  all: rewrite (list_lookup_middle ls [] p (length ls) eq_refl); reflexivity.
Qed.

Lemma lookup_alloc_points (ls : list (list point)) (s : Shape) (l : loc)
    (pts : list point) :
  ls !! l = Some pts -> alloc_points ls s !! l = Some pts.
Proof.
  intros H. unfold alloc_points. destruct (points_of s); [| exact H].
  apply lookup_app_l_Some. exact H.
Qed.

Lemma load_store_obj (h : Heap) (a : loc) (s : Shape) :
  (a < length (objs h))%nat -> load (store_obj h a s) a = Some s.
Proof.
  intros Ha. unfold load, store_obj. cbn [objs lists].
  rewrite list_lookup_insert_eq by exact Ha. cbn. apply map_points_retarget.
Qed.

Lemma load_alloc_obj (h : Heap) (s : Shape) :
  load (fst (alloc_obj h s)) (snd (alloc_obj h s)) = Some s.
Proof.
  unfold load, alloc_obj. cbn [fst snd objs lists].
  rewrite (list_lookup_middle (objs h) [] _ (length (objs h)) eq_refl). cbn.
  apply map_points_retarget.
Qed.

Lemma load_alloc_obj_old (h : Heap) (s c : Shape) (a : loc) :
  load h a = Some s -> load (fst (alloc_obj h c)) a = Some s.
Proof.
  intros H. apply (load_frame h); [exact H | |].
  - unfold load in H. destruct (objs h !! a) as [o |] eqn:Ho; [| discriminate].
    cbn [alloc_obj fst objs]. apply lookup_app_l_Some. exact Ho.
  - intros o l pts _ _ Hl. cbn [alloc_obj fst lists].
    apply lookup_alloc_points. exact Hl.
Qed.

(** A mutation of the object at [a] does not change the value of the object
    at another address [b], as long as the two do not refer to the same
    list. *)
Lemma mutate_frame (m : mutation) (h h' : Heap) (a b : loc) (s : Shape) :
  mutate m h a = Some (Ok h') ->
  a <> b ->
  (forall oa ob l, objs h !! a = Some oa -> objs h !! b = Some ob ->
                   points_of oa = Some l -> points_of ob <> Some l) ->
  load h b = Some s ->
  load h' b = Some s.
Proof.
  intros Hm Hab Hsep Hb.
  apply (load_frame h); [exact Hb | |].
  - destruct m as [o | f | pts | i p | p]; cbn [mutate] in Hm.
    + destruct (load h a) as [sa |]; [| discriminate]. cbn in Hm.
      destruct (apply_op o sa); [| discriminate]. injection Hm as <-.
      cbn [store_obj objs]. apply list_lookup_insert_ne. exact Hab.
    + destruct (objs h !! a) as [oa |]; [| discriminate]. cbn in Hm.
      injection Hm as <-. cbn [objs]. apply list_lookup_insert_ne. exact Hab.
    + destruct (objs h !! a) as [oa |]; [| discriminate]. cbn in Hm.
      injection Hm as <-. cbn [objs]. apply list_lookup_insert_ne. exact Hab.
    + destruct (objs h !! a) as [oa |]; [| discriminate]. cbn in Hm.
      destruct (points_of oa) as [l |]; [| discriminate].
      destruct (lists h !! l) as [pts |]; [| discriminate]. cbn in Hm.
      destruct (decide (i < length pts)%nat); [| discriminate].
      injection Hm as <-. reflexivity.
    + destruct (objs h !! a) as [oa |]; [| discriminate]. cbn in Hm.
      destruct (points_of oa) as [l |]; [| discriminate].
      destruct (lists h !! l) as [pts |]; [| discriminate]. cbn in Hm.
      injection Hm as <-. reflexivity.
  - intros ob lb ptsb Hob Hpb Hlb.
    destruct m as [o | f | pts | i p | p]; cbn [mutate] in Hm.
    + destruct (load h a) as [sa |]; [| discriminate]. cbn in Hm.
      destruct (apply_op o sa) as [sa' |]; [| discriminate]. injection Hm as <-.
      cbn [store_obj lists]. apply lookup_alloc_points. exact Hlb.
    + destruct (objs h !! a) as [oa |]; [| discriminate]. cbn in Hm.
      injection Hm as <-. exact Hlb.
    + destruct (objs h !! a) as [oa |]; [| discriminate]. cbn in Hm.
      injection Hm as <-. cbn [lists]. apply lookup_app_l_Some. exact Hlb.
    + destruct (objs h !! a) as [oa |] eqn:Hoa; [| discriminate]. cbn in Hm.
      destruct (points_of oa) as [l |] eqn:Hpa; [| discriminate].
      destruct (lists h !! l) as [pts |]; [| discriminate]. cbn in Hm.
      destruct (decide (i < length pts)%nat); [| discriminate].
      injection Hm as <-. cbn [lists].
      rewrite list_lookup_insert_ne; [exact Hlb |].
      intros ->. exact (Hsep oa ob lb eq_refl Hob Hpa Hpb).
    + destruct (objs h !! a) as [oa |] eqn:Hoa; [| discriminate]. cbn in Hm.
      destruct (points_of oa) as [l |] eqn:Hpa; [| discriminate].
      destruct (lists h !! l) as [pts |]; [| discriminate]. cbn in Hm.
      injection Hm as <-. cbn [lists].
      rewrite list_lookup_insert_ne; [exact Hlb |].
      intros ->. exact (Hsep oa ob lb eq_refl Hob Hpa Hpb).
Qed.

Lemma load_points_valid (h : Heap) (a : loc) (s : Shape) (o : Obj) (l : loc) :
  load h a = Some s -> objs h !! a = Some o -> points_of o = Some l ->
  (l < length (lists h))%nat.
Proof.
  unfold load. intros H Ho Hl. rewrite Ho in H. cbn in H.
  destruct o as [| | | | st p | st cx cy r p | st cx cy r p | st p];
    cbn [points_of map_points] in *; try discriminate.
  all: injection Hl as ->; destruct (lists h !! l) as [pts |] eqn:E; [| discriminate];
    exact (lookup_lt_Some _ _ _ E).
Qed.

Lemma load_valid (h : Heap) (a : loc) (s : Shape) :
  load h a = Some s -> (a < length (objs h))%nat.
Proof.
  unfold load. intros H. destruct (objs h !! a) as [o |] eqn:E; [| discriminate].
  exact (lookup_lt_Some _ _ _ E).
Qed.

(** The copy and the original do not share a list. *)
Lemma alloc_obj_separate (h : Heap) (a : loc) (s c : Shape) (oa oc : Obj) (l : loc) :
  load h a = Some s ->
  objs (fst (alloc_obj h c)) !! a = Some oa ->
  objs (fst (alloc_obj h c)) !! snd (alloc_obj h c) = Some oc ->
  points_of oa = Some l -> points_of oc <> Some l.
Proof.
  intros Hs Hoa Hoc Hl Hl'.
  pose proof (load_valid h a s Hs) as Ha.
  cbn [alloc_obj fst snd objs] in Hoa, Hoc.
  rewrite lookup_app_l in Hoa by exact Ha.
  rewrite (list_lookup_middle (objs h) [] _ (length (objs h)) eq_refl) in Hoc.
  injection Hoc as <-. apply points_of_retarget in Hl'. subst l.
  pose proof (load_points_valid h a s oa _ Hs Hoa Hl). lia.
Qed.

(** C4, as documented, fails: the copy of the unit hexagon sheared by
    (0,1), a reachable state, does not have the geometry of the original;
    its points are the regenerated ones. *)
Lemma C4_sheared_hexagon_copy_counterexample :
  exists s c : Shape, reachable s /\ copy s = Ok c /\ geometry c <> geometry s.
Proof.
  eexists. eexists. split; [exact sheared_hexagon_reachable |].
  split; [reflexivity |].
  unfold Hexagon.shear, Hexagon.__init__, geometry. cbn [set_style style].
  unfold Hexagon._generate_hexagon_points. cbn [seq map].
  intros H. injection H as _ Hy. clear - Hy.
  unfold shear_point in Hy. cbn [INR] in Hy.
  replace (0 * 2 * PI / 6) with 0 in Hy by lra.
  autorewrite with trig in Hy. lra.
Qed.

(** C4, amended.  For every shape object, [copy()] returns normally a new
    object of the same class, at an address not in use before.  Its stroke
    color, stroke width and dash style equal the original's, and so does
    its fill color for every class but [Line].  Its geometry is the
    original's for [Line], [Circle], [Ellipse], [Triangle] and [Polygon];
    a [Rectangle] copy has the corners re-ordered to
    (min x1 x2, min y1 y2, max x1 x2, max y1 y2); a [Pentagon] or [Hexagon]
    copy has the center and radius of the original and the points
    generated from them.  So the geometry equals the original's when the
    corners of a [Rectangle] are in constructor order and the points of a
    [Pentagon] or [Hexagon] are the ones generated from its center and
    radius.  The clone is value-independent:
    the original keeps its value when the copy is made, and whatever
    mutation (transform call, attribute assignment, assignment to [points],
    in-place update of the [points] list) is then applied to the one leaves
    the value of the other unchanged. *)
Theorem C4_copy_independent_clone :
  forall (h : Heap) (a : loc) (s : Shape),
    load h a = Some s ->
    exists (c : Shape) (h' : Heap) (a' : loc),
      copy s = Ok c /\
      heap_copy h a = Some (Ok (h', a')) /\
      objs h !! a' = None /\ a' <> a /\
      load h' a' = Some c /\ load h' a = Some s /\
      class_of c = class_of s /\
      line_color (style c) = line_color (style s) /\
      line_width (style c) = line_width (style s) /\
      line_style (style c) = line_style (style s) /\
      (class_of s <> CLine -> fill_color (style c) = fill_color (style s)) /\
      (in_sync s -> normalized s -> geometry c = geometry s) /\
      geometry c =
        match s with
        | Rectangle _ x1 y1 x2 y2 =>
            Rectangle Shape__init__
              (Rmin x1 x2) (Rmin y1 y2) (Rmax x1 x2) (Rmax y1 y2)
        | Pentagon _ cx cy r _ =>
            Pentagon Shape__init__ cx cy r
              (Pentagon._generate_pentagon_points cx cy r)
        | Hexagon _ cx cy r _ =>
            Hexagon Shape__init__ cx cy r
              (Hexagon._generate_hexagon_points cx cy r)
        | _ => geometry s
        end /\
      (forall m h'', mutate m h' a' = Some (Ok h'') -> load h'' a = Some s) /\
      (forall m h'', mutate m h' a = Some (Ok h'') -> load h'' a' = Some c).
Proof.
  intros h a s Hs.
  destruct (copy_returns s) as (c & Hc & Hclass & _ & Hlc & Hlw & Hls & Hfc & Hgeo).
  pose proof (copy_geometry s c Hc) as Hgeo'.
  pose proof (load_valid h a s Hs) as Ha.
  pose proof (load_alloc_obj h c) as Hnew.
  pose proof (load_alloc_obj_old h s c a Hs) as Hold.
  exists c, (fst (alloc_obj h c)), (snd (alloc_obj h c)).
  split; [exact Hc |].
  split; [unfold heap_copy; rewrite Hs; cbn; rewrite Hc; reflexivity |].
  split; [apply lookup_ge_None_2; cbn; lia |].
  split; [cbn; lia |].
  do 9 (split; [assumption |]).
  split.
  - intros m h'' Hm.
    apply (mutate_frame m (fst (alloc_obj h c)) h'' (snd (alloc_obj h c)) a s Hm);
      [cbn; lia | | exact Hold].
    intros oc oa l Hoc Hoa Hl Hl'.
    exact (alloc_obj_separate h a s c oa oc l Hs Hoa Hoc Hl' Hl).
  - intros m h'' Hm.
    apply (mutate_frame m (fst (alloc_obj h c)) h'' a (snd (alloc_obj h c)) c Hm);
      [cbn; lia | | exact Hnew].
    intros oa oc l Hoa Hoc Hl.
    exact (alloc_obj_separate h a s c oa oc l Hs Hoa Hoc Hl).
Qed.

Lemma C4_copy_independent_clone_witness :
  let h := {| objs := [Triangle Shape__init__ 0%nat];
              lists := [[(0, 0); (4, 0); (0, 2)]] |} in
  let s := Triangle Shape__init__ [(0, 0); (4, 0); (0, 2)] in
  load h 0 = Some s /\
  exists (c : Shape) (h' : Heap) (a' : loc),
    copy s = Ok c /\ heap_copy h 0 = Some (Ok (h', a')) /\
    load h' a' = Some c /\ load h' 0 = Some s /\
    (forall m h'', mutate m h' a' = Some (Ok h'') -> load h'' 0 = Some s).
Proof.
  intros h s. split; [reflexivity |].
  destruct (C4_copy_independent_clone h 0%nat s eq_refl)
    as (c & h' & a' & Hc & Hh & _ & _ & Hnew & Hold & _ & _ & _ & _ & _ & _ & _ & Hind & _).
  exists c, h', a'. auto.
Defined.

(** [Line.copy] assigns the stroke attributes only: the fill color of the
    copy is the one [Shape.__init__] sets. *)
Remark Line_copy_fill_color (st : Style) (x1 y1 x2 y2 : R) :
  exists c, copy (Line st x1 y1 x2 y2) = Ok c /\ fill_color (style c) = "".
Proof. eexists. split; reflexivity. Qed.


(** * Further properties of the shape model *)

(** ** Translation *)

Lemma translate_point_compose (dx dy dx' dy' : R) (p : point) :
  translate_point dx' dy' (translate_point dx dy p) =
  translate_point (dx + dx') (dy + dy') p.
Proof. destruct p as [x y]. unfold translate_point. f_equal; ring. Qed.

Lemma translate_point_zero (p : point) : translate_point 0 0 p = p.
Proof. destruct p as [x y]. unfold translate_point. f_equal; ring. Qed.

Lemma map_translate_point_compose (dx dy dx' dy' : R) (pts : list point) :
  map (translate_point dx' dy') (map (translate_point dx dy) pts) =
  map (translate_point (dx + dx') (dy + dy')) pts.
Proof.
  rewrite map_map. apply map_ext. intros p. apply translate_point_compose.
Qed.

Lemma map_translate_point_back (dx dy : R) (pts : list point) :
  map (translate_point (- dx) (- dy)) (map (translate_point dx dy) pts) = pts.
Proof.
  rewrite map_translate_point_compose.
  rewrite (map_ext _ (fun p => p)); [apply map_id |].
  intros p. replace (dx + - dx) with 0 by ring. replace (dy + - dy) with 0 by ring.
  apply translate_point_zero.
Qed.

(** X1.  Translations add up, and translating back restores every attribute:
    for every shape, [translate(dx, dy)] followed by [translate(dx', dy')]
    is [translate(dx + dx', dy + dy')], and followed by
    [translate(-dx, -dy)] gives back the shape. *)
Theorem translate_adds_up_and_undoes :
  forall (s : Shape) (dx dy dx' dy' : R),
  exists s1 : Shape,
    translate s dx dy = Ok s1 /\
    translate s1 dx' dy' = translate s (dx + dx') (dy + dy') /\
    translate s1 (- dx) (- dy) = Ok s.
Proof.
  intros s dx dy dx' dy'.
  destruct s as [st x1 y1 x2 y2 | st cx cy r | st x1 y1 x2 y2 | st cx cy w h
                | st pts | st cx cy r pts | st cx cy r pts | st pts];
    cbn [translate];
    unfold Line.translate, Circle.translate, Rectangle.translate, Ellipse.translate,
      Triangle.translate, Pentagon.translate, Hexagon.translate, Polygon.translate;
    eexists; (split; [reflexivity |]); split; cbn [translate];
    unfold Line.translate, Circle.translate, Rectangle.translate, Ellipse.translate,
      Triangle.translate, Pentagon.translate, Hexagon.translate, Polygon.translate;
    rewrite ?map_translate_point_back, ?map_translate_point_compose;
    first [reflexivity | do 2 f_equal; ring].
Qed.

(** ** Minimum and maximum of a list *)

Lemma fold_left_Rmin_le (t : list R) (x : R) :
  fold_left Rmin t x <= x /\ Forall (fun v => fold_left Rmin t x <= v) t.
Proof.
  revert x. induction t as [| v t IH]; intros x; cbn [fold_left].
  - split; [lra | constructor].
  - destruct (IH (Rmin x v)) as [H1 H2].
    pose proof (Rmin_l x v). pose proof (Rmin_r x v).
    split; [lra |]. constructor; [lra | exact H2].
Qed.

Lemma fold_left_Rmin_In (t : list R) (x : R) : In (fold_left Rmin t x) (x :: t).
Proof.
  revert x. induction t as [| v t IH]; intros x; cbn [fold_left].
  - left; reflexivity.
  - destruct (IH (Rmin x v)) as [H | H].
    + rewrite <- H. unfold Rmin. destruct (Rle_dec x v); [left | right; left]; reflexivity.
    + right; right; exact H.
Qed.

Lemma fold_left_Rmax_ge (t : list R) (x : R) :
  x <= fold_left Rmax t x /\ Forall (fun v => v <= fold_left Rmax t x) t.
Proof.
  revert x. induction t as [| v t IH]; intros x; cbn [fold_left].
  - split; [lra | constructor].
  - destruct (IH (Rmax x v)) as [H1 H2].
    pose proof (Rmax_l x v). pose proof (Rmax_r x v).
    split; [lra |]. constructor; [lra | exact H2].
Qed.

Lemma fold_left_Rmax_In (t : list R) (x : R) : In (fold_left Rmax t x) (x :: t).
Proof.
  revert x. induction t as [| v t IH]; intros x; cbn [fold_left].
  - left; reflexivity.
  - destruct (IH (Rmax x v)) as [H | H].
    + rewrite <- H. unfold Rmax. destruct (Rle_dec x v); [right; left | left]; reflexivity.
    + right; right; exact H.
Qed.

(** [min(xs)] is the least element of [xs], [max(xs)] the greatest. *)
Lemma py_min_spec (xs : list R) (m : R) :
  py_min xs = Ok m <-> (In m xs /\ Forall (fun v => m <= v) xs).
Proof.
  split.
  - destruct xs as [| x t]; [discriminate |]. cbn [py_min]. intros [= <-].
    destruct (fold_left_Rmin_le t x) as [H1 H2].
    split; [apply fold_left_Rmin_In |]. constructor; assumption.
  - intros [Hin Hle]. destruct xs as [| x t]; [destruct Hin |]. cbn [py_min].
    f_equal. destruct (fold_left_Rmin_le t x) as [H1 H2].
    pose proof (fold_left_Rmin_In t x) as H3.
    assert (Hall : Forall (fun v => fold_left Rmin t x <= v) (x :: t))
      by (constructor; assumption).
    rewrite List.Forall_forall in Hle, Hall.
    specialize (Hle _ H3). specialize (Hall _ Hin). lra.
Qed.

Lemma py_max_spec (xs : list R) (m : R) :
  py_max xs = Ok m <-> (In m xs /\ Forall (fun v => v <= m) xs).
Proof.
  split.
  - destruct xs as [| x t]; [discriminate |]. cbn [py_max]. intros [= <-].
    destruct (fold_left_Rmax_ge t x) as [H1 H2].
    split; [apply fold_left_Rmax_In |]. constructor; assumption.
  - intros [Hin Hle]. destruct xs as [| x t]; [destruct Hin |]. cbn [py_max].
    f_equal. destruct (fold_left_Rmax_ge t x) as [H1 H2].
    pose proof (fold_left_Rmax_In t x) as H3.
    assert (Hall : Forall (fun v => v <= fold_left Rmax t x) (x :: t))
      by (constructor; assumption).
    rewrite List.Forall_forall in Hle, Hall.
    specialize (Hle _ H3). specialize (Hall _ Hin). lra.
Qed.

Lemma py_min_returns (xs : list R) : xs <> [] -> exists m, py_min xs = Ok m.
Proof. destruct xs; [congruence | eexists; reflexivity]. Qed.

Lemma py_max_returns (xs : list R) : xs <> [] -> exists m, py_max xs = Ok m.
Proof. destruct xs; [congruence | eexists; reflexivity]. Qed.

Lemma py_min_le_py_max (xs : list R) (lo hi : R) :
  py_min xs = Ok lo -> py_max xs = Ok hi -> lo <= hi.
Proof.
  intros Hlo Hhi. apply py_min_spec in Hlo as [Hin _].
  apply py_max_spec in Hhi as [_ Hle]. rewrite List.Forall_forall in Hle. auto.
Qed.

Lemma py_min_shift (d : R) (xs : list R) (m : R) :
  py_min xs = Ok m -> py_min (map (fun v => v + d) xs) = Ok (m + d).
Proof.
  intros H. apply py_min_spec in H as [Hin Hle]. apply py_min_spec. split.
  - apply (in_map (fun v => v + d)) in Hin. exact Hin.
  - rewrite List.Forall_forall in *. intros v Hv. apply in_map_iff in Hv as (u & <- & Hu).
    specialize (Hle u Hu). lra.
Qed.

Lemma py_max_shift (d : R) (xs : list R) (m : R) :
  py_max xs = Ok m -> py_max (map (fun v => v + d) xs) = Ok (m + d).
Proof.
  intros H. apply py_max_spec in H as [Hin Hle]. apply py_max_spec. split.
  - apply (in_map (fun v => v + d)) in Hin. exact Hin.
  - rewrite List.Forall_forall in *. intros v Hv. apply in_map_iff in Hv as (u & <- & Hu).
    specialize (Hle u Hu). lra.
Qed.

(** ** Bounds *)

Lemma box_eq (a b c d a' b' c' d' : R) :
  a = a' -> b = b' -> c = c' -> d = d' ->
  @Ok (R * R * R * R) (a, b, c, d) = Ok (a', b', c', d').
Proof. intros -> -> -> ->. reflexivity. Qed.

Lemma Rmin_shift (a b d : R) : Rmin (a + d) (b + d) = Rmin a b + d.
Proof. unfold Rmin. destruct (Rle_dec a b), (Rle_dec (a + d) (b + d)); lra. Qed.

Lemma Rmax_shift (a b d : R) : Rmax (a + d) (b + d) = Rmax a b + d.
Proof. unfold Rmax. destruct (Rle_dec a b), (Rle_dec (a + d) (b + d)); lra. Qed.

Lemma xs_of_translate (dx dy : R) (pts : list point) :
  xs_of (map (translate_point dx dy) pts) = map (fun v => v + dx) (xs_of pts).
Proof.
  unfold xs_of. rewrite !map_map. apply map_ext. intros [x y]. reflexivity.
Qed.

Lemma ys_of_translate (dx dy : R) (pts : list point) :
  ys_of (map (translate_point dx dy) pts) = map (fun v => v + dy) (ys_of pts).
Proof.
  unfold ys_of. rewrite !map_map. apply map_ext. intros [x y]. reflexivity.
Qed.

(** [points_bounds] as a result, opened. *)
Lemma points_bounds_Ok (pts : list point) (a b c d : R) :
  points_bounds pts = Ok (a, b, c, d) <->
  (py_min (xs_of pts) = Ok a /\ py_min (ys_of pts) = Ok b /\
   py_max (xs_of pts) = Ok c /\ py_max (ys_of pts) = Ok d).
Proof.
  unfold points_bounds. split.
  - destruct (py_min (xs_of pts)) as [a' |]; [| discriminate].
    destruct (py_min (ys_of pts)) as [b' |]; [| discriminate].
    destruct (py_max (xs_of pts)) as [c' |]; [| discriminate].
    destruct (py_max (ys_of pts)) as [d' |]; [| discriminate].
    intros [= -> -> -> ->]. auto.
  - intros (-> & -> & -> & ->). reflexivity.
Qed.

Lemma points_bounds_returns (pts : list point) :
  pts <> [] -> exists b, points_bounds pts = Ok b.
Proof.
  intros Hne.
  assert (Hx : xs_of pts <> []) by (destruct pts; [congruence | discriminate]).
  assert (Hy : ys_of pts <> []) by (destruct pts; [congruence | discriminate]).
  destruct (py_min_returns _ Hx) as [a Ha], (py_min_returns _ Hy) as [b Hb],
    (py_max_returns _ Hx) as [c Hc], (py_max_returns _ Hy) as [d Hd].
  exists (a, b, c, d). apply points_bounds_Ok. auto.
Qed.

Lemma points_bounds_translate (dx dy : R) (pts : list point) (b : R * R * R * R) :
  points_bounds pts = Ok b ->
  points_bounds (map (translate_point dx dy) pts) = Ok (shift_box dx dy b).
Proof.
  destruct b as [[[a b] c] d]. intros H. apply points_bounds_Ok in H as (Ha & Hb & Hc & Hd).
  cbn [shift_box]. apply points_bounds_Ok.
  rewrite xs_of_translate, ys_of_translate.
  auto using py_min_shift, py_max_shift.
Qed.

(** X2.  Translating a shape translates its bounds, except that the bounds of a
    polygon without points are (0,0,0,0) before and after. *)
Theorem translate_shifts_bounds :
  forall (s : Shape) (dx dy : R) (b : R * R * R * R),
    get_bounds s = Ok b ->
    exists s', translate s dx dy = Ok s' /\
      get_bounds s' =
      Ok (match s with
          | Polygon _ [] => (0, 0, 0, 0)
          | _ => shift_box dx dy b
          end).
Proof.
  intros s dx dy b Hb.
  destruct s as [st x1 y1 x2 y2 | st cx cy r | st x1 y1 x2 y2 | st cx cy w h
                | st pts | st cx cy r pts | st cx cy r pts | st pts];
    cbn [translate get_bounds] in *;
    unfold Line.translate, Circle.translate, Rectangle.translate, Ellipse.translate,
      Triangle.translate, Pentagon.translate, Hexagon.translate, Polygon.translate;
    eexists; (split; [reflexivity |]); cbn [get_bounds].
  - injection Hb as <-. unfold Line.get_bounds, shift_box.
    rewrite !Rmin_shift, !Rmax_shift. reflexivity.
  - injection Hb as <-. unfold Circle.get_bounds, shift_box. apply box_eq; ring.
  - injection Hb as <-. reflexivity.
  - injection Hb as <-. unfold Ellipse.get_bounds, shift_box. apply box_eq; ring.
  - unfold Triangle.get_bounds in *. apply points_bounds_translate. exact Hb.
  - injection Hb as <-. unfold Pentagon.get_bounds, shift_box. apply box_eq; ring.
  - injection Hb as <-. unfold Hexagon.get_bounds, shift_box. apply box_eq; ring.
  - unfold Polygon.get_bounds in *. destruct pts as [| p pts]; [reflexivity |].
    cbn [map]. apply (points_bounds_translate dx dy (p :: pts)). exact Hb.
Qed.

Lemma translate_shifts_bounds_witness :
  exists s', translate (Circle Shape__init__ 1 2 3) 10 20 = Ok s' /\
             get_bounds s' = Ok (shift_box 10 20 (1 - 3, 2 - 3, 1 + 3, 2 + 3)).
Proof.
  apply (translate_shifts_bounds (Circle Shape__init__ 1 2 3) 10 20
           (1 - 3, 2 - 3, 1 + 3, 2 + 3)).
  reflexivity.
Defined.

(** ** Scaling there and back *)

Lemma scale_point_compose (f g cx cy : R) (p : point) :
  scale_point g cx cy (scale_point f cx cy p) = scale_point (f * g) cx cy p.
Proof. destruct p as [x y]. unfold scale_point. f_equal; ring. Qed.

Lemma map_scale_point_compose (f g cx cy : R) (pts : list point) :
  map (scale_point g cx cy) (map (scale_point f cx cy) pts) =
  map (scale_point (f * g) cx cy) pts.
Proof. rewrite map_map. apply map_ext. intros p. apply scale_point_compose. Qed.

Lemma map_scale_point_back (f cx cy : R) (pts : list point) :
  f <> 0 ->
  map (scale_point (/ f) cx cy) (map (scale_point f cx cy) pts) = pts.
Proof.
  intros Hf. rewrite map_scale_point_compose.
  replace (f * / f) with 1 by (field; exact Hf). apply map_scale_point_one.
Qed.

Lemma scale_coordinate_back (f c x : R) :
  f <> 0 -> c + (c + (x - c) * f - c) * / f = x.
Proof. intros Hf. field. exact Hf. Qed.

(** X3.  Scaling by a non-zero factor about a passed pivot is undone by scaling
    by the inverse factor about the same pivot, for every shape whose
    [points], if it is a [Pentagon] or [Hexagon], are generated from its
    center and radius.  A negative factor is undone as well. *)
Theorem scale_then_inverse_restores :
  forall (s : Shape) (factor px py : R),
    factor <> 0 -> in_sync s ->
    exists s1 : Shape,
      scale s factor (Some px) (Some py) = Ok s1 /\
      scale s1 (/ factor) (Some px) (Some py) = Ok s.
Proof.
  intros s f px py Hf Hsync.
  destruct s as [st x1 y1 x2 y2 | st cx cy r | st x1 y1 x2 y2 | st cx cy w h
                | st pts | st cx cy r pts | st cx cy r pts | st pts];
    cbn [scale in_sync] in *;
    unfold Line.scale, Circle.scale, Rectangle.scale, Ellipse.scale, Triangle.scale,
      Pentagon.scale, Hexagon.scale, Polygon.scale; cbn [pivot_or]; run;
    (eexists; split; [reflexivity |]); cbn [scale];
    unfold Line.scale, Circle.scale, Rectangle.scale, Ellipse.scale, Triangle.scale,
      Pentagon.scale, Hexagon.scale, Polygon.scale; cbn [pivot_or]; run;
    rewrite ?scale_coordinate_back, ?map_scale_point_back by exact Hf;
    try reflexivity.
  - replace (r * f * / f) with r by (field; exact Hf). reflexivity.
  - replace (w * f * / f) with w by (field; exact Hf).
    replace (h * f * / f) with h by (field; exact Hf). reflexivity.
  - replace (r * f * / f) with r by (field; exact Hf). subst pts. reflexivity.
  - replace (r * f * / f) with r by (field; exact Hf). subst pts. reflexivity.
Qed.

Lemma scale_then_inverse_restores_witness :
  exists s1 : Shape,
    scale (Rectangle Shape__init__ 0 0 4 2) (- 2) (Some 1) (Some 1) = Ok s1 /\
    scale s1 (/ - 2) (Some 1) (Some 1) = Ok (Rectangle Shape__init__ 0 0 4 2).
Proof.
  apply (scale_then_inverse_restores (Rectangle Shape__init__ 0 0 4 2) (- 2) 1 1).
  - lra.
  - exact I.
Defined.

(** ** Shearing along one axis *)

Lemma shear_point_x_back (k : R) (p : point) :
  shear_point (- k) 0 (shear_point k 0 p) = p.
Proof. destruct p as [x y]. unfold shear_point. f_equal; ring. Qed.

Lemma shear_point_y_back (k : R) (p : point) :
  shear_point 0 (- k) (shear_point 0 k p) = p.
Proof. destruct p as [x y]. unfold shear_point. f_equal; ring. Qed.

Lemma map_shear_point_x_back (k : R) (pts : list point) :
  map (shear_point (- k) 0) (map (shear_point k 0) pts) = pts.
Proof.
  rewrite map_map, (map_ext _ (fun p => p) (shear_point_x_back k)). apply map_id.
Qed.

Lemma map_shear_point_y_back (k : R) (pts : list point) :
  map (shear_point 0 (- k)) (map (shear_point 0 k) pts) = pts.
Proof.
  rewrite map_map, (map_ext _ (fun p => p) (shear_point_y_back k)). apply map_id.
Qed.

(** X5.  On the classes that keep their class when sheared ([Line], [Triangle],
    [Pentagon], [Hexagon], [Polygon]), a shear along one axis is undone by
    the opposite shear along that axis: [shear(k, 0)] by [shear(-k, 0)] and
    [shear(0, k)] by [shear(0, -k)]. *)
Theorem shear_along_one_axis_undone :
  forall (s : Shape) (k : R),
    shear_keeps_class s = true ->
    (exists s1, shear s k 0 = Ok s1 /\ class_of s1 = class_of s /\
                shear s1 (- k) 0 = Ok s) /\
    (exists s1, shear s 0 k = Ok s1 /\ class_of s1 = class_of s /\
                shear s1 0 (- k) = Ok s).
Proof.
  intros s k Hs.
  destruct s as [st x1 y1 x2 y2 | st cx cy r | st x1 y1 x2 y2 | st cx cy w h
                | st pts | st cx cy r pts | st cx cy r pts | st pts];
    try discriminate; cbn [shear];
    unfold Line.shear, Triangle.shear, Pentagon.shear, Hexagon.shear, Polygon.shear;
    split; (eexists; split; [reflexivity |]); (split; [reflexivity |]);
    cbn [shear];
    unfold Line.shear, Triangle.shear, Pentagon.shear, Hexagon.shear, Polygon.shear;
    rewrite ?map_shear_point_x_back, ?map_shear_point_y_back; try reflexivity;
    do 2 f_equal; ring.
Qed.

Lemma shear_along_one_axis_undone_witness :
  exists s1, shear (Line Shape__init__ 1 2 3 4) 5 0 = Ok s1 /\
             class_of s1 = CLine /\ shear s1 (- 5) 0 = Ok (Line Shape__init__ 1 2 3 4).
Proof.
  apply (proj1 (shear_along_one_axis_undone (Line Shape__init__ 1 2 3 4) 5 eq_refl)).
Defined.

(** A shear along both axes is not undone by the opposite shear: on the
    segment from (1,0) to (0,0), [shear(1, 1)] then [shear(-1, -1)] leaves
    the first endpoint at (0,0). *)
Remark shear_both_axes_not_undone :
  exists s1, shear (Line Shape__init__ 1 0 0 0) 1 1 = Ok s1 /\
             shear s1 (-1) (-1) <> Ok (Line Shape__init__ 1 0 0 0).
Proof.
  eexists. split; [reflexivity |]. cbn [shear]. unfold Line.shear.
  intros H. injection H as H _. lra.
Qed.

(** ** Shearing a circle by nothing *)

(** X6.  Shearing a [Circle] with both coefficients 0 still turns it into a
    [Polygon]: one of 36 points, all on the circle (at squared distance
    [radius^2] from the center). *)
Theorem zero_shear_inscribes_polygon :
  forall (st : Style) (cx cy r : R),
  exists pts : list point,
    shear (Circle st cx cy r) 0 0 = Ok (Polygon st pts) /\
    length pts = 36%nat /\
    Forall (fun p => dist2 p (cx, cy) = r ^ 2) pts.
Proof.
  intros st cx cy r. eexists. split; [reflexivity |].
  unfold tessellate_shear. split; [rewrite length_map; reflexivity |].
  apply List.Forall_forall. intros p Hp. apply in_map_iff in Hp as (i & <- & _).
  unfold dist2. cbn [fst snd]. cbv zeta.
  pose proof (sin2_cos2 (2 * PI * INR i / INR num_points)) as H. unfold Rsqr in H.
  set (c := cos _) in *. set (sn := sin _) in *.
  replace ((cx + r * c + 0 * (cy + r * sn) - cx) ^ 2
           + (cy + r * sn + 0 * (cx + r * c) - cy) ^ 2)
    with (r ^ 2 * (sn * sn + c * c)) by ring.
  rewrite H. ring.
Qed.

(** ** Rectangles *)

Lemma points_bounds_in_box (pts : list point) (b : R * R * R * R) :
  points_bounds pts = Ok b -> Forall (in_box b) pts.
Proof.
  destruct b as [[[a b] c] d]. intros H.
  apply points_bounds_Ok in H as (Ha & Hb & Hc & Hd).
  apply py_min_spec in Ha as [_ Ha], Hb as [_ Hb].
  apply py_max_spec in Hc as [_ Hc], Hd as [_ Hd].
  rewrite List.Forall_forall in *. intros [x y] Hp. cbn [in_box fst snd].
  pose proof (in_map fst _ _ Hp) as Hx. pose proof (in_map snd _ _ Hp) as Hy.
  cbn [fst snd] in Hx, Hy.
  specialize (Ha x Hx). specialize (Hc x Hx). specialize (Hb y Hy). specialize (Hd y Hy).
  lra.
Qed.

Lemma Rectangle_rotate_bounds (st : Style) (x1 y1 x2 y2 angle px py : R) :
  exists b : R * R * R * R,
    points_bounds (map (rotation angle (px, py)) (Rectangle.corners x1 y1 x2 y2)) = Ok b /\
    Rectangle.rotate st x1 y1 x2 y2 angle (Some px) (Some py) =
    Ok (let '(a, b', c, d) := b in Rectangle st a b' c d).
Proof.
  destruct (points_bounds_returns
              (map (rotation angle (px, py)) (Rectangle.corners x1 y1 x2 y2)))
    as [[[[a b] c] d] Hb]; [discriminate |].
  exists (a, b, c, d). split; [exact Hb |].
  unfold Rectangle.rotate. cbn [pivot_or]. run. rewrite map_rotate_point.
  apply points_bounds_Ok in Hb as (-> & -> & -> & ->). reflexivity.
Qed.

(** X7.  [rotate] leaves a [Rectangle] with its corners in order, whatever they
    were before, for every angle and pivot: the new rectangle is the
    smallest axis-aligned box around the four rotated corners (it contains
    them, and each of its sides passes through one). *)
Theorem Rectangle_rotate_is_bounding_box :
  forall (st : Style) (x1 y1 x2 y2 angle : R) (center_x center_y : option R),
  exists (pivot : point) (a b c d : R),
    pivot_of (Rectangle st x1 y1 x2 y2) center_x center_y = Ok pivot /\
    rotate (Rectangle st x1 y1 x2 y2) angle center_x center_y =
      Ok (Rectangle st a b c d) /\
    a <= c /\ b <= d /\
    let rotated := map (rotation angle pivot) (Rectangle.corners x1 y1 x2 y2) in
    Forall (in_box (a, b, c, d)) rotated /\
    In a (xs_of rotated) /\ In c (xs_of rotated) /\
    In b (ys_of rotated) /\ In d (ys_of rotated).
Proof.
  intros st x1 y1 x2 y2 angle center_x center_y.
  assert (Hp : exists px py,
             pivot_of (Rectangle st x1 y1 x2 y2) center_x center_y = Ok (px, py) /\
             rotate (Rectangle st x1 y1 x2 y2) angle center_x center_y =
             Rectangle.rotate st x1 y1 x2 y2 angle (Some px) (Some py)).
  { unfold pivot_of. cbn [rotate]. unfold Rectangle.rotate, Rectangle.default_center.
    destruct center_x as [px |], center_y as [py |]; cbn [pivot_or];
      eexists; eexists; split; reflexivity. }
  destruct Hp as (px & py & Hpiv & ->).
  destruct (Rectangle_rotate_bounds st x1 y1 x2 y2 angle px py)
    as ([[[a b] c] d] & Hb & Hr).
  exists (px, py), a, b, c, d.
  split; [exact Hpiv |]. split; [exact Hr |].
  pose proof (points_bounds_in_box _ _ Hb) as Hbox.
  apply points_bounds_Ok in Hb as (Ha & Hb' & Hc & Hd).
  split; [exact (py_min_le_py_max _ _ _ Ha Hc) |].
  split; [exact (py_min_le_py_max _ _ _ Hb' Hd) |].
  cbv zeta. split; [exact Hbox |].
  apply py_min_spec in Ha as [Ha _], Hb' as [Hb' _].
  apply py_max_spec in Hc as [Hc _], Hd as [Hd _]. auto.
Qed.

Lemma rotation_quarter_turn (px py x y : R) :
  rotation (PI / 2) (px, py) (x, y) = (px - (y - py), py + (x - px)).
Proof.
  unfold rotation. cbn [fst snd]. rewrite cos_PI2, sin_PI2. f_equal; ring.
Qed.

(** X8.  A quarter turn of a [Rectangle] with its corners in order, about its
    own center, keeps the center and swaps width and height. *)
Theorem Rectangle_quarter_turn_swaps_sides :
  forall (st : Style) (x1 y1 x2 y2 : R),
    x1 <= x2 -> y1 <= y2 ->
    exists a b c d : R,
      rotate (Rectangle st x1 y1 x2 y2) (PI / 2) None None = Ok (Rectangle st a b c d) /\
      c - a = y2 - y1 /\ d - b = x2 - x1 /\
      (a + c) / 2 = (x1 + x2) / 2 /\ (b + d) / 2 = (y1 + y2) / 2.
Proof.
  intros st x1 y1 x2 y2 Hx Hy.
  cbn [rotate].
  change (Rectangle.rotate st x1 y1 x2 y2 (PI / 2) None None)
    with (Rectangle.rotate st x1 y1 x2 y2 (PI / 2)
            (Some ((x1 + x2) / 2)) (Some ((y1 + y2) / 2))).
  remember ((x1 + x2) / 2) as cx eqn:Ecx. remember ((y1 + y2) / 2) as cy eqn:Ecy.
  exists (cx - (y2 - cy)), (cy + (x1 - cx)), (cx - (y1 - cy)), (cy + (x2 - cx)).
  split; [| subst cx cy; repeat split; field].
  destruct (Rectangle_rotate_bounds st x1 y1 x2 y2 (PI / 2) cx cy) as (b & Hb & ->).
  unfold Rectangle.corners in Hb. cbn [map] in Hb.
  rewrite !rotation_quarter_turn in Hb.
  assert (Hb' : points_bounds
                 [(cx - (y1 - cy), cy + (x1 - cx)); (cx - (y1 - cy), cy + (x2 - cx));
                  (cx - (y2 - cy), cy + (x2 - cx)); (cx - (y2 - cy), cy + (x1 - cx))]
               = Ok (cx - (y2 - cy), cy + (x1 - cx), cx - (y1 - cy), cy + (x2 - cx))).
  { apply points_bounds_Ok. unfold xs_of, ys_of. cbn [map fst snd].
    repeat split; first [apply py_min_spec | apply py_max_spec];
      (split; [cbn; tauto
              | repeat (apply List.Forall_cons; [lra |]); apply List.Forall_nil]). }
  pose proof (eq_trans (eq_sym Hb) Hb') as E. injection E as ->. reflexivity.
Qed.

Lemma Rectangle_quarter_turn_swaps_sides_witness :
  exists a b c d : R,
    rotate (Rectangle Shape__init__ 0 0 4 2) (PI / 2) None None =
      Ok (Rectangle Shape__init__ a b c d) /\
    c - a = 2 - 0 /\ d - b = 4 - 0 /\
    (a + c) / 2 = (0 + 4) / 2 /\ (b + d) / 2 = (0 + 2) / 2.
Proof.
  apply (Rectangle_quarter_turn_swaps_sides Shape__init__ 0 0 4 2); lra.
Defined.

(** ** Hit tests *)

Lemma Rleb_iff (x y : R) : Rleb x y = true <-> x <= y.
Proof. unfold Rleb. destruct (Rle_dec x y); split; intros; auto; discriminate. Qed.

Lemma Rltb_iff (x y : R) : Rltb x y = true <-> x < y.
Proof. unfold Rltb. destruct (Rlt_dec x y); split; intros; auto; discriminate. Qed.

Lemma Rltb_false_iff (x y : R) : Rltb x y = false <-> y <= x.
Proof.
  unfold Rltb. destruct (Rlt_dec x y); split; intros; try lra; try discriminate; auto.
Qed.

Lemma Reqb_iff (x y : R) : Reqb x y = true <-> x = y.
Proof. unfold Reqb. destruct (Req_dec_T x y); split; intros; auto; discriminate. Qed.

(** X9.  The hit test of a [Rectangle] with its corners in order is a ring test:
    a point is hit exactly when it lies in the rectangle grown by 5 on
    every side and not strictly inside the rectangle shrunk by 5. *)
Theorem Rectangle_contains_point_ring :
  forall (st : Style) (x1 y1 x2 y2 x y : R),
    x1 <= x2 -> y1 <= y2 ->
    exists hit : bool,
      contains_point (Rectangle st x1 y1 x2 y2) x y = Ok hit /\
      (hit = true <->
       in_box (grow 5 (x1, y1, x2, y2)) (x, y) /\
       ~ strictly_inside (grow (- 5) (x1, y1, x2, y2)) (x, y)).
Proof.
  intros st x1 y1 x2 y2 x y Hx Hy. eexists. split; [reflexivity |].
  cbn [grow in_box strictly_inside fst snd]. cbv zeta.
  rewrite !orb_true_iff, !andb_true_iff, !Rleb_iff.
  split.
  - intros H. split; [lra |]. intros Hin. lra.
  - intros [Hout Hin].
    destruct (Rle_dec y (y1 + 5)); [left; left; left; lra |].
    destruct (Rle_dec (y2 - 5) y); [left; left; right; lra |].
    destruct (Rle_dec x (x1 + 5)); [left; right; lra |].
    destruct (Rle_dec (x2 - 5) x); [right; lra |].
    exfalso. apply Hin. lra.
Qed.

Lemma Rectangle_contains_point_ring_witness :
  exists hit : bool,
    contains_point (Rectangle Shape__init__ 0 0 100 50) 50 25 = Ok hit /\
    (hit = true <->
     in_box (grow 5 (0, 0, 100, 50)) (50, 25) /\
     ~ strictly_inside (grow (- 5) (0, 0, 100, 50)) (50, 25)).
Proof.
  apply (Rectangle_contains_point_ring Shape__init__ 0 0 100 50 50 25); lra.
Defined.

(** X10.  Both endpoints of every [Line] are hit, whether or not they coincide. *)
Theorem Line_contains_its_endpoints :
  forall (st : Style) (x1 y1 x2 y2 : R),
    contains_point (Line st x1 y1 x2 y2) x1 y1 = Ok true /\
    contains_point (Line st x1 y1 x2 y2) x2 y2 = Ok true.
Proof.
  intros st x1 y1 x2 y2. cbn [contains_point]. unfold Line.contains_point. cbv zeta.
  rewrite (math_sqrt_Ok ((y2 - y1) * (y2 - y1) + (x1 - x2) * (x1 - x2)))
    by apply sum_products_nonneg.
  run.
  assert (H5 : Rltb 0 5 = true) by (apply Rltb_iff; lra).
  pose proof (Rmin_l x1 x2). pose proof (Rmin_r x1 x2).
  pose proof (Rmax_l x1 x2). pose proof (Rmax_r x1 x2).
  pose proof (Rmin_l y1 y2). pose proof (Rmin_r y1 y2).
  pose proof (Rmax_l y1 y2). pose proof (Rmax_r y1 y2).
  destruct (Req_dec_T _ 0) as [Hz | Hnz].
  - apply sqrt_eq_0 in Hz; [| apply sum_products_nonneg].
    destruct (Rplus_sqr_eq_0 (y2 - y1) (x1 - x2) Hz) as [Hy Hx].
    assert (y2 = y1) by lra. assert (x2 = x1) by lra. subst x2 y2.
    replace ((x1 - x1) ^ 2 + (y1 - y1) ^ 2) with 0 by ring.
    rewrite (math_sqrt_Ok 0) by lra. rewrite sqrt_0. run. rewrite H5. auto.
  - rewrite !py_div_Ok by exact Hnz. run.
    replace ((y2 - y1) * x1 + (x1 - x2) * y1 + (x2 * y1 - x1 * y2)) with 0 by ring.
    replace ((y2 - y1) * x2 + (x1 - x2) * y2 + (x2 * y1 - x1 * y2)) with 0 by ring.
    rewrite Rabs_R0. unfold Rdiv. rewrite Rmult_0_l, H5.
    rewrite !(proj2 (Rleb_iff _ _)) by lra. auto.
Qed.

(** X11.  A [Circle] whose radius is -5 or less is hit by no point: after a
    scaling that makes the radius that negative the circle can no longer be
    selected. *)
Theorem Circle_negative_radius_never_hit :
  forall (st : Style) (cx cy r x y : R),
    r <= -5 -> contains_point (Circle st cx cy r) x y = Ok false.
Proof.
  intros st cx cy r x y Hr. cbn [contains_point]. unfold Circle.contains_point.
  rewrite math_sqrt_dist. run. f_equal. apply Rltb_false_iff.
  pose proof (sqrt_pos ((x - cx) ^ 2 + (y - cy) ^ 2)) as Hs.
  rewrite Rabs_right by lra. lra.
Qed.

Lemma Circle_negative_radius_never_hit_witness :
  exists s, scale (Circle Shape__init__ 0 0 5) (-1) None None = Ok s /\
            contains_point s 5 0 = Ok false.
Proof.
  eexists. split; [reflexivity |].
  apply (Circle_negative_radius_never_hit Shape__init__ 0 0 (5 * (-1)) 5 0). lra.
Defined.

(** ** Point lists: bounds and hits *)

(** X12.  The bounds of a [Triangle] or [Polygon] with at least one point contain
    every one of its points, and the hit test of a [Triangle] accepts every
    point of its bounding box grown by 5: all its vertices, and also the
    corners of the box, which lie outside the triangle. *)
Theorem point_list_bounds_contain_points :
  forall (st : Style) (pts : list point),
    pts <> [] ->
    exists b : R * R * R * R,
      get_bounds (Triangle st pts) = Ok b /\
      get_bounds (Polygon st pts) = Ok b /\
      Forall (in_box b) pts /\
      (forall x y, in_box (grow 5 b) (x, y) ->
                   contains_point (Triangle st pts) x y = Ok true) /\
      Forall (fun p => contains_point (Triangle st pts) (fst p) (snd p) = Ok true) pts.
Proof.
  intros st pts Hne.
  destruct (points_bounds_returns pts Hne) as [[[[a b] c] d] Hb].
  exists (a, b, c, d).
  pose proof (points_bounds_in_box _ _ Hb) as Hbox.
  assert (Hhit : forall x y, in_box (grow 5 (a, b, c, d)) (x, y) ->
                             contains_point (Triangle st pts) x y = Ok true).
  { intros x y Hin. cbn [grow in_box fst snd] in Hin.
    cbn [contains_point]. unfold Triangle.contains_point. cbv zeta.
    apply points_bounds_Ok in Hb as (-> & -> & -> & ->). run.
    rewrite !(proj2 (Rleb_iff _ _)) by lra. reflexivity. }
  split; [exact Hb |].
  split; [cbn [get_bounds]; unfold Polygon.get_bounds; destruct pts; [congruence | exact Hb] |].
  split; [exact Hbox |]. split; [exact Hhit |].
  rewrite List.Forall_forall in *. intros [x y] Hp. cbn [fst snd]. apply Hhit.
  specialize (Hbox _ Hp). cbn [grow in_box fst snd] in *. lra.
Qed.

Lemma point_list_bounds_contain_points_witness :
  exists b : R * R * R * R,
    get_bounds (Triangle Shape__init__ [(0, 0); (4, 0); (0, 2)]) = Ok b /\
    Forall (in_box b) [(0, 0); (4, 0); (0, 2)].
Proof.
  destruct (point_list_bounds_contain_points Shape__init__ [(0, 0); (4, 0); (0, 2)])
    as (b & Hb & _ & Hin & _); [discriminate |].
  exists b. split; assumption.
Defined.

(** ** Regular polygons *)





(** X14.  [shear] changes the points of a [Pentagon] or [Hexagon] but neither its
    bounds nor its hit test, which are computed from the center and the
    radius: the sheared outline that is drawn is bounded and selected as
    the unsheared one. *)
Theorem regular_polygon_shear_keeps_bounds_and_hits :
  forall (s : Shape) (shear_x shear_y : R),
    match s with
    | Pentagon _ _ _ _ pts | Hexagon _ _ _ _ pts =>
        exists s', shear s shear_x shear_y = Ok s' /\
          points_of s' = Some (map (shear_point shear_x shear_y) pts) /\
          get_bounds s' = get_bounds s /\
          (forall x y, contains_point s' x y = contains_point s x y) /\
          Shape_draw s' =
          Ok [create_polygon (flat_points_of (map (shear_point shear_x shear_y) pts))
                (outline_of (style s)) (fill_color (style s)) (line_width (style s))
                (get_dash_pattern (style s))]
    | _ => True
    end.
Proof.
  intros s sx sy.
  destruct s as [| | | | | st cx cy r pts | st cx cy r pts |]; try exact I;
    eexists; (split; [reflexivity |]); repeat split.
Qed.

(** ** The factory *)

(** X19.  A circle, pentagon or hexagon created by a drag is centred on the
    drag start and the drag end is hit by it. *)
Theorem factory_drag_end_is_hit :
  forall (current_tool : tool) (x1 y1 x2 y2 : R),
    match current_tool with
    | circle | pentagon | hexagon =>
        exists s, create_shape current_tool x1 y1 x2 y2 = Ok (Some s) /\
                  pivot_of s None None = Ok (x1, y1) /\
                  contains_point s x2 y2 = Ok true
    | _ => True
    end.
Proof.
  intros t x1 y1 x2 y2.
  assert (H5 : forall d, Rltb (Rabs (d - d)) 5 = true).
  { intros d. replace (d - d) with 0 by ring. rewrite Rabs_R0. apply Rltb_iff. lra. }
  assert (H10 : forall d, Rltb (Rabs (d - d)) 10 = true).
  { intros d. replace (d - d) with 0 by ring. rewrite Rabs_R0. apply Rltb_iff. lra. }
  destruct t; try exact I; cbn [create_shape]; rewrite math_sqrt_dist; run;
    (eexists; split; [reflexivity |]); (split; [reflexivity |]);
    cbn [contains_point Circle.__init__ Pentagon.__init__ Hexagon.__init__];
    unfold Circle.contains_point, Pentagon.contains_point, Hexagon.contains_point;
    rewrite math_sqrt_dist; run; rewrite ?H5, ?H10; reflexivity.
Qed.

(** X20.  The bounds of a line, rectangle or ellipse created by a drag are the
    box spanned by the two drag points, whatever the direction of the
    drag. *)
Theorem factory_bounds_are_drag_box :
  forall (current_tool : tool) (x1 y1 x2 y2 : R),
    match current_tool with
    | line | rectangle | ellipse =>
        exists s, create_shape current_tool x1 y1 x2 y2 = Ok (Some s) /\
                  get_bounds s = Ok (Rmin x1 x2, Rmin y1 y2, Rmax x1 x2, Rmax y1 y2)
    | _ => True
    end.
Proof.
  intros t x1 y1 x2 y2.
  destruct t; try exact I; cbn [create_shape]; (eexists; split; [reflexivity |]);
    try reflexivity.
  cbn [get_bounds Ellipse.__init__]. unfold Ellipse.get_bounds.
  apply box_eq; unfold Rabs, Rmin, Rmax;
    repeat match goal with |- context [Rcase_abs ?a] => destruct (Rcase_abs a) end;
    repeat match goal with |- context [Rle_dec ?a ?b] => destruct (Rle_dec a b) end;
    lra.
Qed.

(** ** Hit test and drawing of a polygon *)

Lemma py_getitem_Ok {A : Type} (xs : list A) (i : nat) (x : A) :
  xs !! i = Some x -> py_getitem xs i = Ok x.
Proof. intros H. unfold py_getitem. rewrite H. reflexivity. Qed.

(** Every index below the length has an edge, closed at the end. *)
Lemma edge_exists (pts : list point) (i : nat) :
  (i < length pts)%nat -> exists p q, edge pts i = Some (p, q).
Proof.
  intros Hi. unfold edge.
  destruct (lookup_lt_is_Some_2 pts i Hi) as [p Hp].
  assert (Hm : ((i + 1) mod length pts < length pts)%nat)
    by (apply Nat.mod_upper_bound; lia).
  destruct (lookup_lt_is_Some_2 pts _ Hm) as [q Hq].
  exists p, q. rewrite Hp. cbn. rewrite Hq. reflexivity.
Qed.

Lemma edge_inv (pts : list point) (i : nat) (p q : point) :
  edge pts i = Some (p, q) ->
  pts !! i = Some p /\ pts !! ((i + 1) mod length pts)%nat = Some q /\
  (i < length pts)%nat.
Proof.
  unfold edge. intros H.
  destruct (pts !! i) as [p' |] eqn:Hp; [| discriminate]. cbn in H.
  destruct (pts !! ((i + 1) mod length pts)%nat) as [q' |] eqn:Hq; [| discriminate].
  cbn in H. injection H as -> ->.
  split; [reflexivity |]. split; [reflexivity |]. exact (lookup_lt_Some _ _ _ Hp).
Qed.

(** *** The hit test, over binary64 *)

Section Binary64_polygon.
Local Open Scope float_scope.

Lemma Binary64_edge_exists (points : list Binary64.point) (i : nat) :
  (i < length points)%nat -> exists p q, Binary64.edge points i = Some (p, q).
Proof.
  intros Hi. unfold Binary64.edge.
  destruct (lookup_lt_is_Some_2 points i Hi) as [p Hp].
  assert (Hm : ((i + 1) mod length points < length points)%nat)
    by (apply Nat.mod_upper_bound; lia).
  destruct (lookup_lt_is_Some_2 points _ Hm) as [q Hq].
  exists p, q. rewrite Hp. cbn. rewrite Hq. reflexivity.
Qed.

Lemma Binary64_edge_index (points : list Binary64.point) (i : nat)
    (p q : Binary64.point) :
  Binary64.edge points i = Some (p, q) -> (i < length points)%nat.
Proof.
  unfold Binary64.edge. intros H.
  destruct (points !! i) as [p' |] eqn:Hp; [| discriminate].
  exact (lookup_lt_Some _ _ _ Hp).
Qed.

(** One turn of the loop: it ends at a decisive edge, with
    [ZeroDivisionError] or [True], and goes on otherwise. *)
Lemma contains_point_loop_step (points : list Binary64.point) (x y : float)
    (i : nat) (rest : list nat) (p q : Binary64.point) :
  Binary64.edge points i = Some (p, q) ->
  Binary64.Polygon.contains_point_loop points x y (i :: rest) =
  if Binary64.decisive p q x y
  then (if Binary64.divides_by_zero p q then Raise ZeroDivisionError else Ok true)
  else Binary64.Polygon.contains_point_loop points x y rest.
Proof.
  unfold Binary64.edge. intros He.
  destruct (points !! i) as [p' |] eqn:Hp; [| discriminate].
  destruct (points !! ((i + 1) mod length points)%nat) as [q' |] eqn:Hq;
    [| discriminate].
  cbn in He. injection He as -> ->.
  destruct p as [x1 y1], q as [x2 y2].
  cbn [Binary64.Polygon.contains_point_loop].
  rewrite (py_getitem_Ok _ _ _ Hp), (py_getitem_Ok _ _ _ Hq). run.
  unfold Binary64.decisive, Binary64.divides_by_zero, Binary64.near,
    Binary64.skipped, Binary64.line_distance, Binary64.norm.
  cbn [fst snd]. cbv zeta.
  destruct ((x1 =? x2) && (y1 =? y2)); [reflexivity |].
  destruct ((y2 - y1 =? 0) && (x1 - x2 =? 0)); [reflexivity |].
  rewrite math_sqrt_sum_squares. run. unfold Binary64.py_div.
  cbn [orb negb andb].
  destruct (PrimFloat.sqrt _ =? 0); [reflexivity |]. run. cbn [negb andb orb].
  destruct (_ <? 5); reflexivity.
Qed.

Lemma contains_point_loop_none (points : list Binary64.point) (x y : float)
    (indices : list nat) :
  Forall (fun i => (i < length points)%nat) indices ->
  (forall i p q, In i indices -> Binary64.edge points i = Some (p, q) ->
                 Binary64.decisive p q x y = false) ->
  Binary64.Polygon.contains_point_loop points x y indices = Ok false.
Proof.
  induction indices as [| i rest IH]; intros Hall Hnone; [reflexivity |].
  apply List.Forall_cons_iff in Hall as [Hi Hrest].
  destruct (Binary64_edge_exists points i Hi) as (p & q & He).
  rewrite (contains_point_loop_step points x y i rest p q He).
  rewrite (Hnone i p q (or_introl eq_refl) He).
  apply IH; [exact Hrest |].
  intros j p' q' Hj. apply Hnone. right. exact Hj.
Qed.

Lemma contains_point_loop_first (points : list Binary64.point) (x y : float)
    (before after : list nat) (i : nat) (p q : Binary64.point) :
  Forall (fun j => (j < length points)%nat) before ->
  Binary64.edge points i = Some (p, q) ->
  Binary64.decisive p q x y = true ->
  (forall j p' q', In j before -> Binary64.edge points j = Some (p', q') ->
                   Binary64.decisive p' q' x y = false) ->
  Binary64.Polygon.contains_point_loop points x y (before ++ i :: after) =
  if Binary64.divides_by_zero p q then Raise ZeroDivisionError else Ok true.
Proof.
  intros Hall He Hd.
  induction before as [| j before IH]; intros Hnone.
  - cbn [app]. rewrite (contains_point_loop_step points x y i after p q He), Hd.
    reflexivity.
  - apply List.Forall_cons_iff in Hall as [Hj Hrest].
    destruct (Binary64_edge_exists points j Hj) as (p' & q' & He').
    cbn [app].
    rewrite (contains_point_loop_step points x y j _ p' q' He').
    rewrite (Hnone j p' q' (or_introl eq_refl) He').
    apply IH; [exact Hrest |].
    intros k p'' q'' Hk. apply Hnone. right. exact Hk.
Qed.

Lemma contains_point_loop_outcome (points : list Binary64.point) (x y : float)
    (indices : list nat) :
  Forall (fun i => (i < length points)%nat) indices ->
  forall e, Binary64.Polygon.contains_point_loop points x y indices = Raise e ->
            e = ZeroDivisionError.
Proof.
  induction indices as [| i rest IH]; intros Hall e; [discriminate |].
  apply List.Forall_cons_iff in Hall as [Hi Hrest].
  destruct (Binary64_edge_exists points i Hi) as (p & q & He).
  rewrite (contains_point_loop_step points x y i rest p q He).
  destruct (Binary64.decisive p q x y); [| apply IH; exact Hrest].
  destruct (Binary64.divides_by_zero p q); [| discriminate].
  intros [= <-]. reflexivity.
Qed.

Lemma seq_split_at (n i : nat) :
  (i < n)%nat -> seq 0 n = seq 0 i ++ i :: seq (S i) (n - S i).
Proof.
  intros Hi. replace n with (i + S (n - S i))%nat at 1 by lia.
  rewrite seq_app. reflexivity.
Qed.

(** X16.  The hit test of a [Polygon] over binary64, for every point list and
    query point.  It raises nothing but [ZeroDivisionError]: no index is
    out of range and [math.sqrt] gets no negative number.  Its outcome is
    that of the first decisive edge (from point [i] to point [(i+1) mod n]):
    [False] when no edge is decisive; [ZeroDivisionError] when the first
    decisive edge passes both guards and the root of [A*A + B*B] is zero all
    the same (the squares underflow); [True] when it is less than 5 away
    from the query point. *)
Theorem Polygon_contains_point_first_decisive_edge :
  forall (points : list Binary64.point) (x y : float),
    (forall e, Binary64.Polygon.contains_point points x y = Raise e ->
               e = ZeroDivisionError) /\
    ((forall i p q, Binary64.edge points i = Some (p, q) ->
                    Binary64.decisive p q x y = false) ->
     Binary64.Polygon.contains_point points x y = Ok false) /\
    (forall i p q,
        Binary64.edge points i = Some (p, q) ->
        Binary64.decisive p q x y = true ->
        (forall j p' q', (j < i)%nat -> Binary64.edge points j = Some (p', q') ->
                         Binary64.decisive p' q' x y = false) ->
        Binary64.Polygon.contains_point points x y =
        if Binary64.divides_by_zero p q then Raise ZeroDivisionError else Ok true).
Proof.
  intros points x y. unfold Binary64.Polygon.contains_point.
  assert (Hall : forall n, (n <= length points)%nat ->
                   Forall (fun i => (i < length points)%nat) (seq 0 n)).
  { intros n Hn. apply List.Forall_forall. intros i Hi. apply in_seq in Hi. lia. }
  split; [| split].
  - apply contains_point_loop_outcome, Hall. lia.
  - intros Hnone. apply contains_point_loop_none; [apply Hall; lia |].
    intros i p q _. apply Hnone.
  - intros i p q He Hd Hfirst.
    pose proof (Binary64_edge_index points i p q He) as Hi.
    rewrite (seq_split_at (length points) i Hi).
    apply contains_point_loop_first; [apply Hall; lia | exact He | exact Hd |].
    intros j p' q' Hj. apply Hfirst. apply in_seq in Hj. lia.
Qed.

(** Two points 2^-600 apart: both guards pass, [A*A + B*B] underflows to
    zero and the division raises. *)
Lemma Polygon_contains_point_first_decisive_edge_witness :
  Binary64.Polygon.contains_point [(0, 0); (0x1p-600, 0)] 1 1 =
  Raise ZeroDivisionError.
Proof.
  apply (proj2 (proj2 (Polygon_contains_point_first_decisive_edge
                         [(0, 0); (0x1p-600, 0)] 1 1))
           0%nat (0, 0) (0x1p-600, 0) eq_refl eq_refl).
  intros j p' q' Hj. lia.
Defined.

End Binary64_polygon.

Lemma draw_loop_spec (st : Style) (pts : list point) (indices : list nat) :
  Forall (fun i => (i < length pts)%nat) indices ->
  exists cmds, Polygon.draw_loop st pts indices = Ok cmds /\
               Forall2 (edge_line st pts) indices cmds.
Proof.
  induction indices as [| i rest IH]; intros Hall.
  - exists []. split; [reflexivity | constructor].
  - apply List.Forall_cons_iff in Hall as [Hi Hrest].
    destruct (IH Hrest) as (cmds & Hloop & Hcmds).
    destruct (edge_exists pts i Hi) as ([x1 y1] & [x2 y2] & He).
    destruct (edge_inv _ _ _ _ He) as (Hp & Hq & _).
    cbn [Polygon.draw_loop].
    rewrite (py_getitem_Ok _ _ _ Hp), (py_getitem_Ok _ _ _ Hq). run.
    rewrite Hloop. run. eexists. split; [reflexivity |].
    constructor; [| exact Hcmds]. exists (x1, y1), (x2, y2). split; [exact He | reflexivity].
Qed.

(** X18.  [draw] on a [Polygon] returns for every point list.  With fewer than
    two points it draws nothing; otherwise it draws one line per point, the
    i-th from point i to the next one and the last back to the first, each
    in the outline color and width and none with a dash pattern or a fill,
    whatever the dash style and fill color of the shape. *)
Theorem Polygon_draw_closed_outline :
  forall (st : Style) (pts : list point),
  exists cmds : list command,
    Shape_draw (Polygon st pts) = Ok cmds /\
    length cmds = (if (length pts <? 2)%nat then 0%nat else length pts) /\
    Forall2 (edge_line st pts)
      (if (length pts <? 2)%nat then [] else seq 0 (length pts)) cmds.
Proof.
  intros st pts. cbn [Shape_draw]. unfold Polygon.draw.
  destruct (length pts <? 2)%nat.
  - exists []. split; [reflexivity |]. split; [reflexivity | constructor].
  - destruct (draw_loop_spec st pts (seq 0 (length pts))) as (cmds & Hloop & Hcmds).
    { apply List.Forall_forall. intros i Hi. apply in_seq in Hi. lia. }
    exists cmds. split; [exact Hloop |]. split; [| exact Hcmds].
    apply Forall2_length in Hcmds. rewrite length_seq in Hcmds. auto.
Qed.

(** ** Searching the drawing for a hit *)

Lemma combine_seq_lookup (shapes : list Shape) (start k j : nat) (s : Shape) :
  combine (seq start (length shapes)) shapes !! k = Some (j, s) ->
  j = (start + k)%nat /\ shapes !! k = Some s.
Proof.
  revert start k. induction shapes as [| s0 shapes IH]; intros start k H.
  - discriminate.
  - cbn [length seq combine] in H. destruct k as [| k].
    + cbn in H. injection H as <- <-. split; [lia | reflexivity].
    + cbn in H. apply IH in H as [-> H]. split; [lia | exact H].
Qed.

Lemma length_combine_seq (shapes : list Shape) (start : nat) :
  length (combine (seq start (length shapes)) shapes) = length shapes.
Proof. rewrite length_combine, length_seq. lia. Qed.

(** The loop, on any list of indexed shapes: it stops at the first shape
    whose test does not answer [False]. *)
Lemma find_first_hit_spec (indexed : list (nat * Shape)) (x y : R) :
  match find_first_hit indexed x y with
  | Ok (Some i) =>
      exists k s, indexed !! k = Some (i, s) /\ contains_point s x y = Ok true /\
        forall k' j s', (k' < k)%nat -> indexed !! k' = Some (j, s') ->
                        contains_point s' x y = Ok false
  | Ok None =>
      forall k j s, indexed !! k = Some (j, s) -> contains_point s x y = Ok false
  | Raise e =>
      exists k i s, indexed !! k = Some (i, s) /\ contains_point s x y = Raise e /\
        forall k' j s', (k' < k)%nat -> indexed !! k' = Some (j, s') ->
                        contains_point s' x y = Ok false
  end.
Proof.
  induction indexed as [| [i s] rest IH]; cbn [find_first_hit].
  - intros k j s H. discriminate.
  - destruct (contains_point s x y) as [[|] | e] eqn:Hs; run.
    + exists 0%nat, s. split; [reflexivity |]. split; [exact Hs |]. intros k' j s' Hk. lia.
    + destruct (find_first_hit rest x y) as [[i' |] | e].
      * destruct IH as (k & s1 & Hk & Hhit & Hbefore).
        exists (S k), s1. split; [exact Hk |]. split; [exact Hhit |].
        intros [| k'] j s' Hlt H; [cbn in H; injection H as <- <-; exact Hs |].
        apply (Hbefore k' j s'); [lia | exact H].
      * intros [| k] j s' H; [cbn in H; injection H as <- <-; exact Hs |].
        exact (IH k j s' H).
      * destruct IH as (k & i1 & s1 & Hk & Hraise & Hbefore).
        exists (S k), i1, s1. split; [exact Hk |]. split; [exact Hraise |].
        intros [| k'] j s' Hlt H; [cbn in H; injection H as <- <-; exact Hs |].
        apply (Hbefore k' j s'); [lia | exact H].
    + exists 0%nat, i, s. split; [reflexivity |]. split; [exact Hs |]. intros k' j s' Hk. lia.
Qed.

Lemma rev_lookup {A : Type} (l : list A) (i : nat) :
  (i < length l)%nat -> rev l !! i = l !! (length l - S i)%nat.
Proof. intros Hi. rewrite rev_alt. apply (reverse_lookup l i Hi). Qed.

Lemma rev_combine_lookup (shapes : list Shape) (k j : nat) (s : Shape) :
  rev (combine (seq 0 (length shapes)) shapes) !! k = Some (j, s) ->
  shapes !! j = Some s /\ (j + k + 1 = length shapes)%nat.
Proof.
  intros H.
  pose proof (lookup_lt_Some _ _ _ H) as Hk.
  rewrite length_rev, length_combine_seq in Hk.
  rewrite rev_lookup in H by (rewrite length_combine_seq; exact Hk).
  rewrite length_combine_seq in H.
  apply combine_seq_lookup in H as [-> H]. split; [exact H | lia].
Qed.

(** X21.  [find_shape_at_point] returns the topmost shape that is hit: the shape
    at the index it returns is hit and no shape above it is; it returns
    [None] exactly when no shape is hit; and it raises only when the test of
    some shape raises while no shape above that one is hit. *)
Theorem find_shape_at_point_topmost :
  forall (shapes : list Shape) (x y : R),
    match find_shape_at_point shapes x y with
    | Ok (Some i) =>
        (exists s, shapes !! i = Some s /\ contains_point s x y = Ok true) /\
        none_hit_above shapes i x y
    | Ok None => Forall (fun s => contains_point s x y = Ok false) shapes
    | Raise e =>
        exists i s, shapes !! i = Some s /\ contains_point s x y = Raise e /\
                    none_hit_above shapes i x y
    end.
Proof.
  intros shapes x y. unfold find_shape_at_point, none_hit_above.
  pose proof (find_first_hit_spec (rev (combine (seq 0 (length shapes)) shapes)) x y) as H.
  assert (Hpos : forall j s, shapes !! j = Some s ->
             rev (combine (seq 0 (length shapes)) shapes) !! (length shapes - 1 - j)%nat
             = Some (j, s)).
  { intros j s Hj. pose proof (lookup_lt_Some _ _ _ Hj) as Hlt.
    rewrite rev_lookup by (rewrite length_combine_seq; lia).
    rewrite length_combine_seq.
    replace (length shapes - S (length shapes - 1 - j))%nat with j by lia.
    destruct (combine (seq 0 (length shapes)) shapes !! j) as [[j' s'] |] eqn:E.
    - apply combine_seq_lookup in E as [-> E]. rewrite Hj in E. injection E as <-.
      reflexivity.
    - apply lookup_ge_None in E. rewrite length_combine_seq in E. lia. }
  destruct (find_first_hit _ x y) as [[i |] | e].
  - destruct H as (k & s & Hk & Hhit & Hbefore).
    destruct (rev_combine_lookup _ _ _ _ Hk) as [Hi Hlen].
    split; [eauto |]. intros j s' Hlt Hj.
    apply (Hbefore (length shapes - 1 - j)%nat j s'); [| apply Hpos; exact Hj].
    pose proof (lookup_lt_Some _ _ _ Hj). lia.
  - apply List.Forall_forall. intros s Hs. apply list_elem_of_In in Hs.
    apply list_elem_of_lookup in Hs as [j Hj].
    exact (H _ j s (Hpos j s Hj)).
  - destruct H as (k & i & s & Hk & Hraise & Hbefore).
    destruct (rev_combine_lookup _ _ _ _ Hk) as [Hi Hlen].
    exists i, s. split; [exact Hi |]. split; [exact Hraise |]. intros j s' Hlt Hj.
    apply (Hbefore (length shapes - 1 - j)%nat j s'); [| apply Hpos; exact Hj].
    pose proof (lookup_lt_Some _ _ _ Hj). lia.
Qed.

(** ** What the user interface keeps true *)

Lemma ui_invariant_set_style (st : Style) (s : Shape) :
  ui_invariant s -> ui_invariant (set_style st s).
Proof. destruct s; cbn; auto. Qed.

Lemma translate_ui_invariant (s s' : Shape) (dx dy : R) :
  ui_invariant s -> translate s dx dy = Ok s' -> ui_invariant s'.
Proof.
  intros Hs H. destruct s; cbn [translate] in H; injection H as <-;
    cbn [ui_invariant Line.translate Circle.translate Rectangle.translate
         Ellipse.translate Triangle.translate Pentagon.translate Hexagon.translate
         Polygon.translate] in *;
    rewrite ?length_map; try lra; auto.
Qed.

Lemma shear_ui_invariant (s s' : Shape) (sx sy : R) :
  ui_invariant s -> shear s sx sy = Ok s' -> ui_invariant s'.
Proof.
  intros Hs H. destruct s; cbn [shear] in H; injection H as <-;
    cbn [ui_invariant Line.shear Circle.shear Rectangle.shear Ellipse.shear
         Triangle.shear Pentagon.shear Hexagon.shear Polygon.shear] in *;
    unfold tessellate_shear; rewrite ?length_map, ?length_seq; auto;
    unfold num_points; cbn; lia.
Qed.

Lemma scale_ui_invariant (s s' : Shape) (f : R) (cx cy : option R) :
  0 <= f -> ui_invariant s -> scale s f cx cy = Ok s' -> ui_invariant s'.
Proof.
  intros Hf Hs H. destruct s; invert_transform H; cbn [ui_invariant] in *;
    rewrite ?length_map, ?length_generate_pentagon_points,
      ?length_generate_hexagon_points; auto; try nra;
    try (destruct Hs; split; first [nra | reflexivity]).
Qed.

Lemma rotate_ui_invariant (s s' : Shape) (a : R) (cx cy : option R) :
  ui_invariant s -> rotate s a cx cy = Ok s' -> ui_invariant s'.
Proof.
  intros Hs H.
  destruct s as [st x1 y1 x2 y2 | st px py r | st x1 y1 x2 y2 | st px py w h
                | st pts | st px py r pts | st px py r pts | st pts].
  3: { cbn [rotate] in H.
       assert (Hp : exists qx qy, Rectangle.rotate st x1 y1 x2 y2 a cx cy =
                                  Rectangle.rotate st x1 y1 x2 y2 a (Some qx) (Some qy)).
       { unfold Rectangle.rotate. destruct cx, cy; cbn [pivot_or];
           unfold Rectangle.default_center; eauto. }
       destruct Hp as (qx & qy & Hp). rewrite Hp in H.
       destruct (Rectangle_rotate_bounds st x1 y1 x2 y2 a qx qy)
         as ([[[b0 b1] b2] b3] & Hb & Hr).
       rewrite Hr in H. injection H as <-.
       apply points_bounds_Ok in Hb as (H0 & H1 & H2 & H3).
       split; eapply py_min_le_py_max; eassumption. }
  all: invert_transform H; cbn [ui_invariant] in *;
    rewrite ?length_map, ?length_generate_pentagon_points,
      ?length_generate_hexagon_points; auto;
    try (destruct Hs; split; auto).
Qed.

Lemma copy_ui_invariant (s c : Shape) :
  ui_invariant s -> copy s = Ok c -> ui_invariant c.
Proof.
  intros Hs H.
  destruct s as [st x1 y1 x2 y2 | st px py r | st x1 y1 x2 y2 | st px py w h
                | st pts | st px py r pts | st px py r pts | st pts];
    cbn [copy] in H;
    unfold Line.copy, Circle.copy, Rectangle.copy, Ellipse.copy, Triangle.copy,
      Pentagon.copy, Hexagon.copy, Polygon.copy in H;
    rewrite ?Triangle_init_Ok in H; run_in H; injection H as <-;
    cbn [ui_invariant set_style Line.__init__ Circle.__init__ Rectangle.__init__
         Ellipse.__init__ Pentagon.__init__ Hexagon.__init__ Polygon.__init__] in *;
    rewrite ?length_generate_pentagon_points, ?length_generate_hexagon_points; auto.
  - pose proof (Rmin_l x1 x2). pose proof (Rmax_l x1 x2).
    pose proof (Rmin_l y1 y2). pose proof (Rmax_l y1 y2). lra.
  - destruct Hs; auto.
  - destruct Hs; auto.
Qed.

Lemma get_bounds_returns (s : Shape) :
  ui_invariant s -> exists b, get_bounds s = Ok b.
Proof.
  intros Hs.
  destruct s as [st x1 y1 x2 y2 | st px py r | st x1 y1 x2 y2 | st px py w h
                | st pts | st px py r pts | st px py r pts | st pts];
    cbn [get_bounds ui_invariant] in *; eauto.
  - apply points_bounds_returns. intros ->. discriminate.
  - unfold Polygon.get_bounds. destruct pts as [| p pts]; [cbn in Hs; lia |].
    apply points_bounds_returns. discriminate.
Qed.

Lemma create_shape_ui_invariant (t : tool) (x1 y1 x2 y2 : R) (s : Shape) :
  create_shape t x1 y1 x2 y2 = Ok (Some s) -> ui_invariant s.
Proof.
  intros H. destruct t; cbn [create_shape] in H;
    rewrite ?math_sqrt_dist, ?Triangle_init_Ok in H; run_in H;
    try discriminate; injection H as <-;
    cbn [ui_invariant Line.__init__ Circle.__init__ Rectangle.__init__
         Ellipse.__init__ Pentagon.__init__ Hexagon.__init__];
    rewrite ?length_generate_pentagon_points, ?length_generate_hexagon_points;
    auto using sqrt_pos, Rabs_pos.
  pose proof (Rmin_l x1 x2). pose proof (Rmax_l x1 x2).
  pose proof (Rmin_l y1 y2). pose proof (Rmax_l y1 y2). lra.
Qed.

Lemma ui_apply_invariant (o : ui_op) (s s' : Shape) :
  ui_accepts o -> ui_invariant s -> ui_apply o s = Ok s' -> ui_invariant s'.
Proof.
  intros Ho Hs H. destruct o as [dx dy | mode [v |] | sx sy | b |]; cbn [ui_apply] in H.
  - exact (translate_ui_invariant _ _ _ _ Hs H).
  - unfold handle_transform_click in H.
    destruct (get_bounds s) as [[[[b0 b1] b2] b3] |]; [| discriminate]. run_in H.
    destruct mode; cbn [ui_accepts dialog_accepts] in Ho.
    + assert (Hv : 0 <= v) by lra. exact (scale_ui_invariant _ _ _ _ _ Hv Hs H).
    + exact (rotate_ui_invariant _ _ _ _ _ Hs H).
  - injection H as <-. exact Hs.
  - unfold shear_transform in H. destruct (hasattr_shear s).
    + exact (shear_ui_invariant _ _ _ _ Hs H).
    + injection H as <-. exact Hs.
  - injection H as <-. apply ui_invariant_set_style. exact Hs.
  - unfold duplicate_value in H.
    destruct (copy s) as [c |] eqn:Hc; [| discriminate]. run_in H.
    destruct (translate c 20 20) as [c' |] eqn:Ht; [| discriminate]. run_in H.
    injection H as <-. apply ui_invariant_set_style.
    apply (translate_ui_invariant _ _ _ _ (copy_ui_invariant _ _ Hs Hc) Ht).
Qed.

(** X23.  Every shape the user interface can produce is well formed: a circle,
    pentagon or hexagon has a radius that is not negative, an ellipse a
    width and height that are not negative, a rectangle its corners in
    order, a triangle 3 points, a pentagon 5, a hexagon 6 and a polygon at
    least 3.  The scale dialog only lets factors from 0.1 to 5.0 through,
    and a polygon is only closed with 3 points or more. *)
Theorem ui_shapes_are_well_formed :
  forall s : Shape, ui_reachable s -> ui_invariant s.
Proof.
  induction 1 as [t app x1 y1 x2 y2 s H
                 | app pts shapes shapes' s H Hlast Hne
                 | s o s' _ IH Ho H].
  - unfold on_release in H.
    destruct (create_shape t x1 y1 x2 y2) as [[s0 |] |] eqn:Hc; run_in H;
      try discriminate.
    cbn [option_map] in H. injection H as <-.
    apply ui_invariant_set_style. exact (create_shape_ui_invariant _ _ _ _ _ _ Hc).
  - unfold on_right_click in H.
    destruct (3 <=? length pts)%nat eqn:Hlen.
    + injection H as <-. rewrite last_snoc in Hlast. injection Hlast as <-.
      apply Nat.leb_le. exact Hlen.
    + injection H as H _. contradiction.
  - exact (ui_apply_invariant o s s' Ho IH H).
Qed.

Lemma ui_shapes_are_well_formed_witness :
  ui_invariant (Rectangle (copy_style4 Shape__init__ Shape__init__)
                  (Rmin 3 1) (Rmin 4 2) (Rmax 3 1) (Rmax 4 2)).
Proof.
  apply ui_shapes_are_well_formed.
  apply (ui_drag rectangle Shape__init__ 3 4 1 2). reflexivity.
Defined.

(** X24.  On a well-formed shape the operations of the user interface (move,
    the scale and rotate dialogs, shear, selection, duplication), the
    bounds and the drawing all return, and so do the hit tests of
    [Rectangle] and [Triangle], which only compare.  (The other hit tests
    square or divide floats; see [Binary64].) *)
Theorem ui_calls_return_on_well_formed_shapes :
  forall s : Shape,
    ui_invariant s ->
    (forall o, returns (ui_apply o s)) /\
    (forall x y, match s with
                 | Rectangle _ _ _ _ _ | Triangle _ _ => returns (contains_point s x y)
                 | _ => True
                 end) /\
    returns (get_bounds s) /\
    returns (Shape_draw s).
Proof.
  intros s Hs. destruct (get_bounds_returns s Hs) as [[[[b0 b1] b2] b3] Hb].
  assert (Hscale : forall f px py, returns (scale s f (Some px) (Some py))).
  { intros f px py. destruct s; cbn [scale];
      unfold Line.scale, Circle.scale, Rectangle.scale, Ellipse.scale, Triangle.scale,
        Pentagon.scale, Hexagon.scale, Polygon.scale; cbn [pivot_or]; run;
      eexists; reflexivity. }
  assert (Hrot : forall a px py, returns (rotate s a (Some px) (Some py))).
  { intros a px py.
    destruct s as [st x1 y1 x2 y2 | st cx cy r | st x1 y1 x2 y2 | st cx cy w h
                  | st pts | st cx cy r pts | st cx cy r pts | st pts]; cbn [rotate].
    3: { destruct (Rectangle_rotate_bounds st x1 y1 x2 y2 a px py) as (b & _ & ->).
         eexists; reflexivity. }
    all: unfold Line.rotate, Circle.rotate, Ellipse.rotate, Triangle.rotate,
        Pentagon.rotate, Hexagon.rotate, Polygon.rotate; cbn [pivot_or]; run;
      eexists; reflexivity. }
  assert (Hcopy : exists c, copy s = Ok c).
  { destruct (copy_returns s) as (c & Hc & _). eauto. }
  split; [| split; [| split]].
  - intros [dx dy | mode [v |] | sx sy | b |]; cbn [ui_apply].
    + destruct s; eexists; reflexivity.
    + unfold handle_transform_click. rewrite Hb. run. destruct mode; auto.
    + eexists; reflexivity.
    + unfold shear_transform. destruct (hasattr_shear s); [| eexists; reflexivity].
      destruct s; eexists; reflexivity.
    + eexists; reflexivity.
    + unfold duplicate_value. destruct Hcopy as [c ->]. run.
      destruct c; eexists; reflexivity.
  - intros x y.
    destruct s as [st x1 y1 x2 y2 | st cx cy r | st x1 y1 x2 y2 | st cx cy w h
                  | st pts | st cx cy r pts | st cx cy r pts | st pts];
      try exact I; cbn [contains_point].
    + eexists; reflexivity.
    + cbn [get_bounds] in Hb. unfold Triangle.get_bounds in Hb.
      apply points_bounds_Ok in Hb as (H0 & H1 & H2 & H3).
      unfold Triangle.contains_point. cbv zeta. rewrite H0, H1, H2, H3.
      eexists; reflexivity.
  - eexists; exact Hb.
  - destruct s as [st x1 y1 x2 y2 | st cx cy r | st x1 y1 x2 y2 | st cx cy w h
                  | st pts | st cx cy r pts | st cx cy r pts | st pts];
      cbn [Shape_draw]; try (eexists; reflexivity).
    unfold Polygon.draw. destruct (length pts <? 2)%nat; [eexists; reflexivity |].
    destruct (draw_loop_spec st pts (seq 0 (length pts))) as (cmds & Hloop & _).
    { apply List.Forall_forall. intros i Hi. apply in_seq in Hi. lia. }
    exists cmds. exact Hloop.
Qed.

Lemma ui_calls_return_on_well_formed_shapes_witness :
  returns (ui_apply (UDialog mode_rotate (Some 90))
             (Triangle Shape__init__ [(0, 0); (4, 0); (0, 2)])).
Proof.
  apply (proj1 (ui_calls_return_on_well_formed_shapes
                  (Triangle Shape__init__ [(0, 0); (4, 0); (0, 2)]) eq_refl)).
Defined.

(** ** Order of the drawing *)

Lemma py_in_iff (x : loc) (xs : list loc) : py_in x xs = true <-> In x xs.
Proof.
  unfold py_in. rewrite existsb_exists. split.
  - intros (y & Hy & Heq). apply Nat.eqb_eq in Heq. subst y. exact Hy.
  - intros H. exists x. split; [exact H | apply Nat.eqb_refl].
Qed.

(** [xs.remove(x)] takes out the first occurrence of [x]. *)
Lemma py_remove_first (x : loc) (before after : list loc) :
  ~ In x before ->
  py_remove x (before ++ x :: after) = Ok (before ++ after).
Proof.
  induction before as [| y before IH]; intros Hnot; cbn [app py_remove].
  - rewrite Nat.eqb_refl. reflexivity.
  - destruct (Nat.eqb_spec y x) as [-> | Hne].
    + exfalso. apply Hnot. left; reflexivity.
    + rewrite IH by (intros H; apply Hnot; right; exact H). reflexivity.
Qed.

Lemma py_remove_absent (x : loc) (xs : list loc) :
  ~ In x xs -> py_remove x xs = Raise ValueError.
Proof.
  induction xs as [| y xs IH]; intros Hnot; cbn [py_remove]; [reflexivity |].
  destruct (Nat.eqb_spec y x) as [-> | Hne].
  - exfalso. apply Hnot. left; reflexivity.
  - rewrite IH by (intros H; apply Hnot; right; exact H). reflexivity.
Qed.

Lemma in_split_first (x : loc) (xs : list loc) :
  In x xs -> exists before after, xs = before ++ x :: after /\ ~ In x before.
Proof.
  induction xs as [| y xs IH]; intros H; [destruct H |].
  destruct (Nat.eq_dec y x) as [-> | Hne].
  - exists [], xs. split; [reflexivity | intros []].
  - destruct H as [-> | H]; [congruence |].
    destruct (IH H) as (before & after & -> & Hnot).
    exists (y :: before), after. split; [reflexivity |].
    intros [-> | Hin]; [congruence | contradiction].
Qed.

(** X26.  With the selected shape in the drawing, [bring_to_front] moves it to
    the end of the list and [send_to_back] to the beginning, and
    [delete_selected] takes it out and clears the selection; the other
    shapes keep their order. *)
Theorem z_order_moves_selected_shape :
  forall (x : loc) (before after : list loc),
    ~ In x before ->
    let app := {| shapes := before ++ x :: after; selected_shape := Some x |} in
    bring_to_front app =
      Ok {| shapes := before ++ after ++ [x]; selected_shape := Some x |} /\
    send_to_back app =
      Ok {| shapes := x :: before ++ after; selected_shape := Some x |} /\
    delete_selected app =
      Ok {| shapes := before ++ after; selected_shape := None |}.
Proof.
  intros x before after Hnot app.
  assert (Hin : py_in x (before ++ x :: after) = true).
  { apply py_in_iff, in_or_app. right; left; reflexivity. }
  unfold bring_to_front, send_to_back, delete_selected. subst app. cbn [shapes selected_shape].
  rewrite Hin, py_remove_first by exact Hnot. run.
  rewrite <- app_assoc. auto.
Qed.

Lemma z_order_moves_selected_shape_witness :
  bring_to_front {| shapes := [3; 5] ++ 7 :: [9]; selected_shape := Some 7 |}%nat =
  Ok {| shapes := [3; 5] ++ [9] ++ [7]; selected_shape := Some 7 |}%nat.
Proof.
  apply (z_order_moves_selected_shape 7%nat [3; 5]%nat [9]%nat).
  cbn. intros [H | [H | []]]; discriminate.
Defined.

(** X27.  [bring_to_front], [send_to_back] and [delete_selected] never raise,
    although [list.remove] does on a missing element: with nothing selected,
    or with a selected shape that is not in the drawing, they leave the
    application as it is; otherwise the first two permute the drawing and
    keep the selection, and the third shortens the drawing by one. *)
Theorem z_order_operations_are_safe :
  forall app : App,
  exists front back deleted : App,
    bring_to_front app = Ok front /\
    send_to_back app = Ok back /\
    delete_selected app = Ok deleted /\
    Permutation (shapes app) (shapes front) /\
    Permutation (shapes app) (shapes back) /\
    selected_shape front = selected_shape app /\
    selected_shape back = selected_shape app /\
    match selected_shape app with
    | None => front = app /\ back = app /\ deleted = app
    | Some x =>
        if py_in x (shapes app)
        then last (shapes front) = Some x /\ head (shapes back) = Some x /\
             S (length (shapes deleted)) = length (shapes app) /\
             selected_shape deleted = None
        else front = app /\ back = app /\ deleted = app
    end.
Proof.
  intros [xs [x |]]; unfold bring_to_front, send_to_back, delete_selected;
    cbn [shapes selected_shape].
  - destruct (py_in x xs) eqn:Hin.
    + apply py_in_iff in Hin.
      destruct (in_split_first x xs Hin) as (before & after & -> & Hnot).
      rewrite py_remove_first by exact Hnot. run.
      do 3 eexists. do 3 (split; [reflexivity |]). cbn [shapes selected_shape].
      split; [rewrite <- app_assoc; apply Permutation_app_head;
              apply Permutation_cons_append |].
      split; [symmetry; apply Permutation_middle |].
      split; [reflexivity |]. split; [reflexivity |].
      split; [apply last_snoc |]. split; [reflexivity |].
      split; [rewrite !length_app; cbn [length]; lia | reflexivity].
    + do 3 eexists. do 3 (split; [reflexivity |]). auto 10.
  - do 3 eexists. do 3 (split; [reflexivity |]). auto 10.
Qed.

(** ** Duplicating the selected shape *)

Lemma style_retarget {P Q : Type} (q : Q) (s : ShapeOf P) :
  style (retarget q s) = style s.
Proof. destruct s; reflexivity. Qed.

Lemma map_points_set_style {P Q : Type} (f : P -> option Q) (st : Style)
    (o : ShapeOf P) (s : ShapeOf Q) :
  map_points f o = Some s -> map_points f (set_style st o) = Some (set_style st s).
Proof.
  destruct o as [| | | | st0 p | st0 cx cy r p | st0 cx cy r p | st0 p];
    cbn [map_points set_style]; try (intros [= <-]; reflexivity).
  all: destruct (f p) as [q |]; cbn; [| discriminate]; intros [= <-]; reflexivity.
Qed.

(** X28.  [duplicate_selected] never raises on an object of the heap.  It appends
    one new object, at an address not in use before, on top of the drawing
    and keeps the selection; the new object is the copy of the selected
    one, moved by (20, 20) and not selected; and every object that was on
    the heap, the selected one included, keeps its value. *)
Theorem duplicate_selected_appends_independent_copy :
  forall (h : Heap) (app : App) (a : loc) (s : Shape),
    selected_shape app = Some a -> load h a = Some s ->
    exists (h' : Heap) (new_shape : loc) (v : Shape),
      duplicate_selected h app =
        Some (Ok (h', {| shapes := shapes app ++ [new_shape];
                         selected_shape := Some a |})) /\
      objs h !! new_shape = None /\
      duplicate_value s = Ok v /\
      load h' new_shape = Some v /\
      selected (style v) = false /\
      (forall b sb, load h b = Some sb -> load h' b = Some sb).
Proof.
  intros h app a s Hsel Hs.
  destruct (copy_returns s) as (c & Hc & _).
  assert (Ht : exists c1, translate c 20 20 = Ok c1) by (destruct c; eexists; reflexivity).
  destruct Ht as [c1 Ht].
  set (h1 := fst (alloc_obj h c)). set (new := length (objs h)).
  set (h2 := store_obj h1 new c1).
  set (o2 := retarget (length (lists h1)) c1 : Obj).
  set (h3 := {| objs := <[new := set_style (with_selected false (style o2)) o2]> (objs h2);
                lists := lists h2 |}).
  assert (Hnew1 : load h1 new = Some c) by apply load_alloc_obj.
  assert (Hlen1 : (new < length (objs h1))%nat).
  { subst h1 new. cbn [alloc_obj fst objs]. rewrite length_app. cbn. lia. }
  assert (Ho2 : objs h2 !! new = Some o2).
  { subst h2. cbn [store_obj objs]. apply list_lookup_insert_eq. exact Hlen1. }
  exists h3, new, (set_style (with_selected false (style c1)) c1).
  split.
  { unfold duplicate_selected. rewrite Hsel.
    unfold heap_copy. rewrite Hs. cbn [mbind option_bind]. rewrite Hc.
    change (alloc_obj h c) with (h1, new). cbn [mbind option_bind mutate].
    rewrite Hnew1. cbn [mbind option_bind apply_op]. rewrite Ht.
    fold h2. cbn [mbind option_bind]. rewrite Ho2. cbn [mbind option_bind].
    reflexivity. }
  split; [apply lookup_ge_None_2; subst new; lia |].
  split; [unfold duplicate_value; rewrite Hc; run; rewrite Ht; reflexivity |].
  split.
  { unfold load. subst h3. cbn [objs lists].
    rewrite list_lookup_insert_eq
      by (subst h2; cbn [store_obj objs]; rewrite length_insert; exact Hlen1).
    cbn [mbind option_bind]. subst o2. rewrite style_retarget.
    apply map_points_set_style. subst h2. cbn [store_obj lists].
    apply map_points_retarget. }
  split; [destruct c1; reflexivity |].
  intros b sb Hb.
  pose proof (load_valid h b sb Hb) as Hvb.
  apply (load_frame h); [exact Hb | |].
  - subst h3 h2 h1. cbn [objs store_obj alloc_obj fst].
    rewrite !list_lookup_insert_ne by (subst new; lia).
    apply lookup_app_l. exact Hvb.
  - intros ob l pts _ _ Hl. subst h3 h2 h1. cbn [lists store_obj alloc_obj fst].
    do 2 apply lookup_alloc_points. exact Hl.
Qed.

Lemma duplicate_selected_appends_independent_copy_witness :
  let h := {| objs := [Triangle Shape__init__ 0%nat];
              lists := [[(0, 0); (4, 0); (0, 2)]] |} in
  exists (h' : Heap) (new_shape : loc),
    duplicate_selected h {| shapes := [0%nat]; selected_shape := Some 0%nat |} =
    Some (Ok (h', {| shapes := [0%nat] ++ [new_shape]; selected_shape := Some 0%nat |})) /\
    load h' 0 = Some (Triangle Shape__init__ [(0, 0); (4, 0); (0, 2)]).
Proof.
  intros h.
  destruct (duplicate_selected_appends_independent_copy h
              {| shapes := [0%nat]; selected_shape := Some 0%nat |} 0%nat
              (Triangle Shape__init__ [(0, 0); (4, 0); (0, 2)]) eq_refl eq_refl)
    as (h' & new & v & Hd & _ & _ & _ & _ & Hold).
  exists h', new. split; [exact Hd |]. apply Hold. reflexivity.
Defined.

(** ** Hits lie near the bounds *)

Lemma component_le_norm (a b : R) : Rabs a <= sqrt (a ^ 2 + b ^ 2).
Proof.
  rewrite <- (sqrt_Rsqr_abs a). apply sqrt_le_1_alt. unfold Rsqr. nra.
Qed.

Lemma near_center (cx cy r margin x y : R) :
  Rabs (sqrt ((x - cx) ^ 2 + (y - cy) ^ 2) - r) < margin ->
  in_box (grow margin (cx - r, cy - r, cx + r, cy + r)) (x, y).
Proof.
  intros H. cbn [grow in_box fst snd].
  pose proof (component_le_norm (x - cx) (y - cy)) as Hx.
  pose proof (component_le_norm (y - cy) (x - cx)) as Hy.
  replace ((y - cy) ^ 2 + (x - cx) ^ 2) with ((x - cx) ^ 2 + (y - cy) ^ 2) in Hy by ring.
  apply Rabs_def2 in H as [H1 H2].
  unfold Rabs in Hx, Hy.
  destruct (Rcase_abs (x - cx)), (Rcase_abs (y - cy)); lra.
Qed.

(** X15.  For every class but [Polygon], a point that is hit lies within the
    bounds of the shape grown by the tolerance of its test: 5 for [Line],
    [Circle], [Triangle] and a [Rectangle] with its corners in order, 10 for
    [Pentagon] and [Hexagon], 0 for [Ellipse]. *)
Theorem hits_lie_within_grown_bounds :
  forall (s : Shape) (x y : R) (b : R * R * R * R),
    contains_point s x y = Ok true -> get_bounds s = Ok b -> normalized s ->
    match s with
    | Polygon _ _ => True
    | Pentagon _ _ _ _ _ | Hexagon _ _ _ _ _ => in_box (grow 10 b) (x, y)
    | Ellipse _ _ _ _ _ => in_box b (x, y)
    | _ => in_box (grow 5 b) (x, y)
    end.
Proof.
  intros s x y b Hhit Hb Hnorm.
  destruct s as [st x1 y1 x2 y2 | st cx cy r | st x1 y1 x2 y2 | st cx cy w h
                | st pts | st cx cy r pts | st cx cy r pts | st pts];
    cbn [contains_point get_bounds normalized] in *; try exact I.
  - injection Hb as <-. unfold Line.contains_point in Hhit. cbv zeta in Hhit.
    rewrite (math_sqrt_Ok ((y2 - y1) * (y2 - y1) + (x1 - x2) * (x1 - x2))) in Hhit
      by apply sum_products_nonneg.
    run_in Hhit. destruct (Req_dec_T _ 0) as [Hz | Hnz].
    + apply sqrt_eq_0 in Hz; [| apply sum_products_nonneg].
      destruct (Rplus_sqr_eq_0 _ _ Hz) as [Hy Hx].
      assert (y2 = y1) by lra. assert (x2 = x1) by lra. subst x2 y2.
      rewrite math_sqrt_dist in Hhit. run_in Hhit. injection Hhit as Hhit.
      apply Rltb_iff in Hhit.
      unfold Line.get_bounds. rewrite !Rmin_left, !Rmax_left by lra.
      replace (x1, y1, x1, y1) with (x1 - 0, y1 - 0, x1 + 0, y1 + 0)
        by (repeat f_equal; ring).
      apply near_center. rewrite Rminus_0_r, Rabs_right by (apply Rle_ge, sqrt_pos).
      exact Hhit.
    + rewrite py_div_Ok in Hhit by exact Hnz. run_in Hhit. injection Hhit as Hhit.
      apply andb_true_iff in Hhit as [Hhit Hy]. apply andb_true_iff in Hhit as [_ Hx].
      apply andb_true_iff in Hx as [Hx1 Hx2]. apply andb_true_iff in Hy as [Hy1 Hy2].
      apply Rleb_iff in Hx1, Hx2, Hy1, Hy2.
      unfold Line.get_bounds. cbn [grow in_box fst snd]. lra.
  - injection Hb as <-. unfold Circle.contains_point in Hhit.
    rewrite math_sqrt_dist in Hhit. run_in Hhit. injection Hhit as Hhit.
    apply Rltb_iff in Hhit. apply near_center. exact Hhit.
  - injection Hb as <-. unfold Rectangle.contains_point in Hhit. cbv zeta in Hhit.
    injection Hhit as Hhit.
    rewrite !orb_true_iff, !andb_true_iff, !Rleb_iff in Hhit.
    unfold Rectangle.get_bounds. cbn [grow in_box fst snd]. lra.
  - injection Hb as <-. unfold Ellipse.contains_point, Rleb in Hhit.
    destruct (Rle_dec w 0); [discriminate |]. destruct (Rle_dec h 0); [discriminate |].
    cbn [orb] in Hhit. rewrite (py_div_Ok w 2) in Hhit by lra. run_in Hhit.
    rewrite py_div_Ok in Hhit by lra. run_in Hhit.
    rewrite (py_div_Ok h 2) in Hhit by lra. run_in Hhit.
    rewrite py_div_Ok in Hhit by lra. run_in Hhit.
    destruct (Rle_dec _ 1) as [Hle |]; [| discriminate].
    unfold Ellipse.get_bounds. cbn [in_box fst snd].
    set (dx := (x - cx) / (w / 2)) in *. set (dy := (y - cy) / (h / 2)) in *.
    assert (Hx : x - cx = dx * (w / 2)) by (unfold dx; field; lra).
    assert (Hy : y - cy = dy * (h / 2)) by (unfold dy; field; lra).
    assert (-1 <= dx <= 1) by nra. assert (-1 <= dy <= 1) by nra.
    nra.
  - unfold Triangle.get_bounds in Hb. destruct b as [[[b0 b1] b2] b3].
    apply points_bounds_Ok in Hb as (H0 & H1 & H2 & H3).
    unfold Triangle.contains_point in Hhit. cbv zeta in Hhit.
    rewrite H0, H1, H2, H3 in Hhit. run_in Hhit. injection Hhit as Hhit.
    rewrite !andb_true_iff, !Rleb_iff in Hhit. cbn [grow in_box fst snd]. lra.
  - injection Hb as <-. unfold Pentagon.contains_point in Hhit.
    rewrite math_sqrt_dist in Hhit. run_in Hhit. injection Hhit as Hhit.
    apply Rltb_iff in Hhit. apply near_center. exact Hhit.
  - injection Hb as <-. unfold Hexagon.contains_point in Hhit.
    rewrite math_sqrt_dist in Hhit. run_in Hhit. injection Hhit as Hhit.
    apply Rltb_iff in Hhit. apply near_center. exact Hhit.
Qed.


Lemma hits_lie_within_grown_bounds_witness :
  in_box (grow 5 (0, 0, 10, 10)) (0, 0).
Proof.
  apply (hits_lie_within_grown_bounds (Rectangle Shape__init__ 0 0 10 10) 0 0
           (0, 0, 10, 10)).
  - cbn [contains_point]. unfold Rectangle.contains_point. cbv zeta. f_equal.
    rewrite !orb_true_iff, !andb_true_iff, !Rleb_iff. lra.
  - reflexivity.
  - cbn. lra.
Defined.

(** ** The rotate dialog on round shapes *)

Lemma bounds_center_x (cx r : R) : (cx - r + (cx + r)) / 2 = cx.
Proof. field. Qed.

Lemma rotate_about_itself_x (cx cy c sn : R) : cx + (cx - cx) * c - (cy - cy) * sn = cx.
Proof. ring. Qed.

Lemma rotate_about_itself_y (cx cy c sn : R) : cy + (cx - cx) * sn + (cy - cy) * c = cy.
Proof. ring. Qed.

(** X25.  The rotate dialog has no effect on a [Circle], an [Ellipse], or a
    [Pentagon] or [Hexagon] whose points are generated from its center and
    radius, whatever the angle: the pivot it passes, the center of the
    bounds, is the center of the shape, and these classes only rotate their
    center. *)
Theorem rotate_dialog_leaves_round_shapes :
  forall (s : Shape) (angle_deg : R),
    is_round s = true -> in_sync s ->
    handle_transform_click mode_rotate (Some angle_deg) s = Ok s.
Proof.
  intros s a Hround Hsync.
  destruct s as [| st cx cy r | | st cx cy w h | | st cx cy r pts | st cx cy r pts |];
    try discriminate; cbn [in_sync] in Hsync;
    unfold handle_transform_click; cbn [get_bounds];
    unfold Circle.get_bounds, Ellipse.get_bounds, Pentagon.get_bounds,
      Hexagon.get_bounds; run; rewrite !bounds_center_x; cbn [rotate];
    unfold Circle.rotate, Ellipse.rotate, Pentagon.rotate, Hexagon.rotate;
    cbv beta iota zeta; rewrite rotate_about_itself_x, rotate_about_itself_y;
    try subst pts; reflexivity.
Qed.

Lemma rotate_dialog_leaves_round_shapes_witness :
  handle_transform_click mode_rotate (Some 36) (Pentagon.__init__ 100 100 50) =
  Ok (Pentagon.__init__ 100 100 50).
Proof.
  apply (rotate_dialog_leaves_round_shapes (Pentagon.__init__ 100 100 50) 36);
    reflexivity.
Defined.

(** ** Scaling in place *)

Lemma py_sum_xs_scale (f cx cy : R) (pts : list point) :
  py_sum (xs_of (map (scale_point f cx cy) pts)) =
  py_len pts * cx + (py_sum (xs_of pts) - py_len pts * cx) * f.
Proof.
  induction pts as [| [x y] pts IH].
  - unfold py_sum, py_len. cbn. ring.
  - unfold xs_of in *. cbn [map fst].
    rewrite !py_sum_cons, py_len_cons, IH. unfold scale_point. cbn [fst]. ring.
Qed.

Lemma py_sum_ys_scale (f cx cy : R) (pts : list point) :
  py_sum (ys_of (map (scale_point f cx cy) pts)) =
  py_len pts * cy + (py_sum (ys_of pts) - py_len pts * cy) * f.
Proof.
  induction pts as [| [x y] pts IH].
  - unfold py_sum, py_len. cbn. ring.
  - unfold ys_of in *. cbn [map snd].
    rewrite !py_sum_cons, py_len_cons, IH. unfold scale_point. cbn [snd]. ring.
Qed.

Lemma centroid_scale (f : R) (pts : list point) (c : point) :
  centroid pts = Ok c -> centroid (map (scale_point f (fst c) (snd c)) pts) = Ok c.
Proof.
  intros Hc.
  assert (Hne : pts <> []) by (apply centroid_returns_iff; eexists; exact Hc).
  rewrite centroid_Ok in Hc by exact Hne. injection Hc as <-. cbn [fst snd].
  pose proof (py_len_nonzero pts Hne) as Hn.
  rewrite centroid_Ok by (destruct pts; [congruence | discriminate]).
  rewrite py_sum_xs_scale, py_sum_ys_scale, py_len_map.
  f_equal. f_equal; field; exact Hn.
Qed.

(** X4.  Scaling with the pivot omitted leaves the default pivot of the shape
    where it was, for every factor: the midpoint of a line, the center of a
    circle, rectangle, ellipse, pentagon or hexagon, the centroid of the
    points of a triangle or polygon. *)
Theorem scale_in_place_keeps_default_pivot :
  forall (s : Shape) (factor : R) (c : point),
    pivot_of s None None = Ok c ->
    exists s', scale s factor None None = Ok s' /\ pivot_of s' None None = Ok c.
Proof.
  intros s f [px py] Hc.
  destruct s as [st x1 y1 x2 y2 | st cx cy r | st x1 y1 x2 y2 | st cx cy w h
                | st pts | st cx cy r pts | st cx cy r pts | st pts];
    unfold pivot_of in Hc; cbn [pivot_or] in Hc; cbn [scale];
    unfold Line.scale, Circle.scale, Rectangle.scale, Ellipse.scale, Triangle.scale,
      Pentagon.scale, Hexagon.scale, Polygon.scale; cbn [pivot_or];
    try rewrite Hc; run; (eexists; split; [reflexivity |]);
    unfold pivot_of; cbn [pivot_or]; try exact Hc.
  - unfold Line.default_center in *. injection Hc as <- <-. f_equal. f_equal; field.
  - unfold Rectangle.default_center in *. injection Hc as <- <-. f_equal. f_equal; field.
  - exact (centroid_scale f pts (px, py) Hc).
  - exact (centroid_scale f pts (px, py) Hc).
Qed.

Lemma scale_in_place_keeps_default_pivot_witness :
  exists s', scale (Line Shape__init__ 0 0 4 2) 3 None None = Ok s' /\
             pivot_of s' None None = Ok ((0 + 4) / 2, (0 + 2) / 2).
Proof.
  apply (scale_in_place_keeps_default_pivot (Line Shape__init__ 0 0 4 2) 3
           ((0 + 4) / 2, (0 + 2) / 2)).
  reflexivity.
Defined.

(** ** Selecting with the pointer *)

Lemma lookup_map_Some {A B : Type} (f : A -> B) (l : list A) (i : nat) (x : A) :
  l !! i = Some x -> map f l !! i = Some (f x).
Proof.
  revert i. induction l as [| y l IH]; intros [| i] H; try discriminate; cbn in *.
  - injection H as ->. reflexivity.
  - apply IH. exact H.
Qed.

Lemma geometry_set_selected (b : bool) (s : Shape) :
  geometry (set_selected b s) = geometry s.
Proof. destruct s; reflexivity. Qed.

Lemma selected_set_selected (b : bool) (s : Shape) :
  selected (style (set_selected b s)) = b.
Proof. destruct s; reflexivity. Qed.

(** X22.  After a click with the pointer tool that returns, the shape at index
    [j] of the drawing is selected exactly when [j] is the index the click
    selects, so at most one shape is selected, and every shape keeps its
    geometry; the selected index is the one [find_shape_at_point] finds. *)
Theorem pointer_click_selects_at_most_one :
  forall (shapes shapes' : list Shape) (x y : R) (sel : option nat),
    handle_pointer_click shapes x y = Ok (shapes', sel) ->
    find_shape_at_point shapes x y = Ok sel /\
    length shapes' = length shapes /\
    forall j s, shapes !! j = Some s ->
      exists s', shapes' !! j = Some s' /\
                 geometry s' = geometry s /\
                 selected (style s') = bool_decide (sel = Some j).
Proof.
  intros shapes shapes' x y sel H. unfold handle_pointer_click in H.
  destruct (find_shape_at_point shapes x y) as [clicked |]; [| discriminate].
  run_in H. destruct clicked as [i |]; injection H as <- <-.
  - split; [reflexivity |]. split; [rewrite length_alter, length_map; reflexivity |].
    intros j s Hj.
    assert (Hd : map (set_selected false) shapes !! j = Some (set_selected false s))
      by (apply lookup_map_Some; exact Hj).
    destruct (decide (i = j)) as [-> | Hne].
    + exists (set_selected true (set_selected false s)).
      split; [rewrite list_lookup_alter_eq, Hd; reflexivity |].
      split; [rewrite !geometry_set_selected; reflexivity |].
      rewrite selected_set_selected, bool_decide_eq_true_2; reflexivity.
    + exists (set_selected false s).
      split; [rewrite list_lookup_alter_ne by exact Hne; exact Hd |].
      split; [apply geometry_set_selected |].
      rewrite selected_set_selected, bool_decide_eq_false_2; [reflexivity | congruence].
  - split; [reflexivity |]. split; [apply length_map |].
    intros j s Hj. exists (set_selected false s).
    split; [apply lookup_map_Some; exact Hj |].
    split; [apply geometry_set_selected |].
    rewrite selected_set_selected, bool_decide_eq_false_2; [reflexivity | discriminate].
Qed.

Lemma pointer_click_selects_at_most_one_witness :
  exists s',
    map (set_selected false)
        [Ellipse (with_selected true Shape__init__) 0 0 0 0] !! 0%nat = Some s' /\
    geometry s' = geometry (Ellipse (with_selected true Shape__init__) 0 0 0 0) /\
    selected (style s') = bool_decide (@None nat = Some 0%nat).
Proof.
  pose (shapes := [Ellipse (with_selected true Shape__init__) 0 0 0 0] : list Shape).
  assert (H : handle_pointer_click shapes 3 4
              = Ok (map (set_selected false) shapes, None)).
  { subst shapes. unfold handle_pointer_click, find_shape_at_point.
    cbn [length seq combine rev app].
    cbn [find_first_hit contains_point]. unfold Ellipse.contains_point.
    rewrite (Rleb_true 0 0) by lra. reflexivity. }
  destruct (pointer_click_selects_at_most_one shapes _ 3 4 None H)
    as (_ & _ & Hall).
  apply (Hall 0%nat). reflexivity.
Defined.
